(** * Worker-to-Investor Challenge: the financial projection engine

    A shallow embedding of the numeric core of [calculator.js]
    ([APP_CONFIG], [TaxCalculator], [FinancialCalculator]), of the form layer
    that feeds it ([UtilityFunctions], [FormValidator], [CurrencyInputHandler],
    [handleCalculatorSubmit]) and of the values [UIController] computes for the
    display, together with the properties of its specification.

    Numbers.  The engine computes on JavaScript numbers, that is on IEEE 754
    binary64.  They are embedded twice.

    Over exact rationals ([Q]): [+], [-], [*], [<=], [Math.min] and
    [Math.max] are the exact operations, [Math.round x] is
    [floor (x + 1/2)] (ties go towards +infinity, as in ECMAScript), and the
    [Infinity] ceiling of the last tax bracket has its own constructor.
    Equality of amounts is [Qeq] ([==]); whole currency units produced by
    [Math.round] are integers ([Z]).  The invariants, orderings and
    equivalences of the engine are stated over this embedding.

    Over binary64 itself ([Binary64], [Double]): every operation returns the
    exact result rounded to the nearest double and every decimal literal is
    the double it denotes.  The properties that fix a returned value (the
    tax, the endurance year, the crossover year, the yearly updates) are
    stated over this embedding: a rounded product can decide a comparison
    the other way than the exact one. *)

From Stdlib Require Import String Ascii DecimalString DecimalN DecimalPos.
From Stdlib Require Import QArith Qround Qminmax Qabs ZArith List Bool Lia Lqa.
Import ListNotations.

Local Open Scope Q_scope.

(* ================================================================== *)
(** ** JavaScript number primitives *)

Module Js.

(** [x <= y] and [x < y], [x >= y], [x > y] on numbers. *)
Definition le (x y : Q) : bool := Qle_bool x y.
Definition lt (x y : Q) : bool := negb (Qle_bool y x).
Definition ge (x y : Q) : bool := Qle_bool y x.
Definition gt (x y : Q) : bool := negb (Qle_bool x y).

(** [Math.max(x, y)] and [Math.min(x, y)] on finite numbers. *)
Definition Math_max (x y : Q) : Q := if Qle_bool x y then y else x.
Definition Math_min (x y : Q) : Q := if Qle_bool x y then x else y.

(** [Math.round(x)]: the nearest integer, ties towards +infinity. *)
Definition Math_round (x : Q) : Z := Qfloor (x + (1 # 2)).

(** A number that may be [Infinity] (bracket ceilings). *)
Inductive ext : Type :=
| Fin (q : Q)
| Infinity.

(** [Math.min(x, t)] for a finite [x] and a possibly infinite [t]. *)
Definition Math_min_ext (x : Q) (t : ext) : Q :=
  match t with
  | Fin q => Math_min x q
  | Infinity => x
  end.

(** What evaluating an expression yields: a value or a thrown [TypeError]. *)
Inductive completion (A : Type) : Type :=
| Normal (a : A)
| TypeError.
Arguments Normal {A} a.
Arguments TypeError {A}.

Definition bind {A B : Type} (c : completion A) (k : A -> completion B)
  : completion B :=
  match c with
  | Normal a => k a
  | TypeError => TypeError
  end.

End Js.

Import Js.

(* ================================================================== *)
(** ** 1. Global configuration ([APP_CONFIG]) *)

Record bracket : Type := mkBracket {
  threshold : ext;
  rate : Q
}.

Module APP_CONFIG.

Definition single : list bracket :=
  [ mkBracket (Fin 11925) 0.10;
    mkBracket (Fin 48475) 0.12;
    mkBracket (Fin 103350) 0.22;
    mkBracket (Fin 197300) 0.24;
    mkBracket (Fin 250525) 0.32;
    mkBracket (Fin 626350) 0.35;
    mkBracket Infinity 0.37 ].

Definition marriedJointly : list bracket :=
  [ mkBracket (Fin 23850) 0.10;
    mkBracket (Fin 96950) 0.12;
    mkBracket (Fin 206700) 0.22;
    mkBracket (Fin 394600) 0.24;
    mkBracket (Fin 501050) 0.32;
    mkBracket (Fin 751600) 0.35;
    mkBracket Infinity 0.37 ].

Definition marriedSeparately : list bracket :=
  [ mkBracket (Fin 11925) 0.10;
    mkBracket (Fin 48475) 0.12;
    mkBracket (Fin 103350) 0.22;
    mkBracket (Fin 197300) 0.24;
    mkBracket (Fin 250525) 0.32;
    mkBracket (Fin 375800) 0.35;
    mkBracket Infinity 0.37 ].

Definition headOfHousehold : list bracket :=
  [ mkBracket (Fin 17000) 0.10;
    mkBracket (Fin 64850) 0.12;
    mkBracket (Fin 103350) 0.22;
    mkBracket (Fin 197300) 0.24;
    mkBracket (Fin 250500) 0.32;
    mkBracket (Fin 626350) 0.35;
    mkBracket Infinity 0.37 ].

(** The own properties of the object literal [TAX_BRACKETS], in source
    order. *)
Definition TAX_BRACKETS_own : list (string * list bracket) :=
  [ ("single"%string, single);
    ("marriedJointly"%string, marriedJointly);
    ("marriedSeparately"%string, marriedSeparately);
    ("headOfHousehold"%string, headOfHousehold) ].

(** Financial calculation parameters. *)
Definition WEALTH_SPENDING_RATE : Q := 0.05.
Definition AFTER_TAX_SPENDING_RATE : Q := 0.5.
Definition DEFAULT_SAVINGS_RATE : Q := 0.1.
Definition INVESTMENT_RETURN_RATE : Q := 0.07.
Definition WITHDRAWAL_RATE : Q := 0.05.
Definition PROJECTION_YEARS : nat := 15.

End APP_CONFIG.

(** [TAX_BRACKETS] is a plain object literal, so a property read
    [TAX_BRACKETS[key]] first looks at the four own properties and then
    follows the prototype link to [Object.prototype].  The names below are
    the properties every [Object.prototype] has; each of them reads as a
    function (or, for [__proto__], as [Object.prototype] itself): a truthy
    value that is not iterable. *)
Definition Object_prototype_properties : list string :=
  [ "constructor"; "__defineGetter__"; "__defineSetter__"; "hasOwnProperty";
    "__lookupGetter__"; "__lookupSetter__"; "isPrototypeOf";
    "propertyIsEnumerable"; "toString"; "valueOf"; "__proto__";
    "toLocaleString" ]%string.

Inductive property_value : Type :=
| Undefined
| BracketArray (brackets : list bracket)
| Inherited.

Fixpoint own_property (key : string) (props : list (string * list bracket))
  : option (list bracket) :=
  match props with
  | [] => None
  | (k, v) :: rest => if String.eqb key k then Some v else own_property key rest
  end.

(** [APP_CONFIG.TAX_BRACKETS[filingStatus]]. *)
Definition TAX_BRACKETS_get (filingStatus : string) : property_value :=
  match own_property filingStatus APP_CONFIG.TAX_BRACKETS_own with
  | Some brackets => BracketArray brackets
  | None =>
      if existsb (String.eqb filingStatus) Object_prototype_properties
      then Inherited
      else Undefined
  end.

(** The four filing statuses the configuration recognises. *)
Definition recognized (filingStatus : string) : Prop :=
  filingStatus = "single"%string \/ filingStatus = "marriedJointly"%string \/
  filingStatus = "marriedSeparately"%string \/
  filingStatus = "headOfHousehold"%string.

(* ================================================================== *)
(** ** 4. Tax calculator module ([TaxCalculator]) *)

Module TaxCalculator.

(** The [for (const bracket of brackets)] loop of [calculateFederalTax],
    with its two loop variables. [income <= previousThreshold] holds at
    once when the previous ceiling is [Infinity]. *)
Fixpoint bracket_loop (income : Q) (brackets : list bracket)
    (totalTax : Q) (previousThreshold : ext) : Q :=
  match brackets with
  | [] => totalTax
  | bracket :: rest =>
      match previousThreshold with
      | Infinity => totalTax
      | Fin previous =>
          if Js.le income previous then totalTax
          else
            let taxableInThisBracket :=
              Math_min_ext income (threshold bracket) - previous in
            bracket_loop income rest
              (totalTax + taxableInThisBracket * rate bracket)
              (threshold bracket)
      end
  end.

Definition calculateFederalTax (income : Q) (filingStatus : string)
  : completion Z :=
  if Js.le income 0 then Normal 0%Z
  else
    match TAX_BRACKETS_get filingStatus with
    | Undefined => Normal 0%Z
    | Inherited => TypeError
    | BracketArray brackets =>
        Normal (Math_round (bracket_loop income brackets 0 (Fin 0)))
    end.

Definition calculateEffectiveRate (tax income : Q) : Q :=
  if Js.le income 0 then 0 else tax / income.

End TaxCalculator.

(* ================================================================== *)
(** ** 7. Financial calculator module ([FinancialCalculator]) *)

(** The [inputs] object built by the form handler. [wealthAccount] is the
    empty string when the field was left blank, a number otherwise. *)
Module Inputs.
Inductive wealth_field : Type :=
| Blank
| Amount (q : Q).

Record t : Type := mk {
  preTaxIncome : Q;
  wealthAccount : wealth_field;
  stateIncomeTax : Q;
  filingStatus : string
}.
End Inputs.

(** The object returned by [FinancialCalculator.calculate]. *)
Module Calculations.
Record t : Type := mk {
  federalTax : Z;
  totalTax : Q;
  afterTaxIncome : Q;
  targetSpending : Z;
  targetSaving : Z;
  estimatedSaving : Z;
  estimatedSpending : Z;
  wealthAccount : Q
}.
End Calculations.

(** One entry of [projectionData] in [calculateCrossoverPoint]. *)
Module YearRecord.
Record t : Type := mk {
  year : Z;
  assets : Q;
  passiveIncome : Q;
  earnedIncome : Q
}.
End YearRecord.

(** The object returned by [calculateCrossoverPoint]. *)
Module Crossover.
Record t : Type := mk {
  years : Z;
  projectionData : list YearRecord.t
}.
End Crossover.

(** The object returned by [calculateAllCrossoverPoints]. *)
Module AllCrossovers.
Record t : Type := mk {
  worker : Crossover.t;
  investor : Crossover.t
}.
End AllCrossovers.

(** The object returned by [calculateAssetEnduranceMetrics]. *)
Module EnduranceMetrics.
Record t : Type := mk {
  workerCurrentEndurance : Z;
  investorCurrentEndurance : Z;
  workerFutureEndurance : Z;
  investorFutureEndurance : Z;
  workerWealth15Yr : Z;
  investorWealth15Yr : Z
}.
End EnduranceMetrics.

Module FinancialCalculator.
Import APP_CONFIG.

(** The two corrections of [calculate], applied in source order to the
    pair of mutable variables [(targetSpending, targetSaving)]. *)
Definition match_worker_saving (afterTaxIncome estimatedSaving : Q)
    (targets : Q * Q) : Q * Q :=
  let '(targetSpending, targetSaving) := targets in
  if Js.lt targetSaving estimatedSaving
  then (afterTaxIncome - estimatedSaving, estimatedSaving)
  else (targetSpending, targetSaving).

Definition match_worker_spending (afterTaxIncome estimatedSpending : Q)
    (targets : Q * Q) : Q * Q :=
  let '(targetSpending, targetSaving) := targets in
  if Js.gt targetSpending estimatedSpending
  then (estimatedSpending, afterTaxIncome - estimatedSpending)
  else (targetSpending, targetSaving).

Definition calculate (inputs : Inputs.t) : completion Calculations.t :=
  Js.bind
    (TaxCalculator.calculateFederalTax
       (Inputs.preTaxIncome inputs) (Inputs.filingStatus inputs))
    (fun federalTax =>
       let totalTax := inject_Z federalTax + Inputs.stateIncomeTax inputs in
       let afterTaxIncome := Inputs.preTaxIncome inputs - totalTax in
       let wealthAccount :=
         match Inputs.wealthAccount inputs with
         | Inputs.Blank => 0
         | Inputs.Amount w => w
         end in
       let estimatedSaving :=
         Inputs.preTaxIncome inputs * DEFAULT_SAVINGS_RATE in
       let estimatedSpending := afterTaxIncome - estimatedSaving in
       let targetSpending0 :=
         AFTER_TAX_SPENDING_RATE * afterTaxIncome
         + WEALTH_SPENDING_RATE * wealthAccount in
       let targetSaving0 := Math_max 0 (afterTaxIncome - targetSpending0) in
       let '(targetSpending, targetSaving) :=
         match_worker_spending afterTaxIncome estimatedSpending
           (match_worker_saving afterTaxIncome estimatedSaving
              (targetSpending0, targetSaving0)) in
       Normal
         (Calculations.mk federalTax totalTax afterTaxIncome
            (Math_round targetSpending) (Math_round targetSaving)
            (Math_round estimatedSaving) (Math_round estimatedSpending)
            wealthAccount)).

(** [calculateAssetEndurance] is recursive on no structural argument; the
    embedding counts the calls it may still make.  [None] means the count
    ran out before a [return] was reached. *)
Fixpoint calculateAssetEndurance_calls (calls : nat)
    (annualSpending assetBase : Q) (yearsElapsed : Z) : option Z :=
  match calls with
  | O => None
  | S calls' =>
      if Js.le annualSpending (assetBase * INVESTMENT_RETURN_RATE)
      then Some (-1)%Z
      else if Js.le (assetBase - annualSpending) 0
      then Some (yearsElapsed + 1)%Z
      else
        let remainingAssets :=
          (assetBase - annualSpending) * (1 + INVESTMENT_RETURN_RATE) in
        calculateAssetEndurance_calls calls' annualSpending remainingAssets
          (yearsElapsed + 1)%Z
  end.

(** A number of calls that is always enough (see [endurance_calls_bound]):
    every call that recurses lowers the asset base by more than
    [INVESTMENT_RETURN_RATE * annualSpending]. *)
Definition endurance_calls (annualSpending assetBase : Q) : nat :=
  S (Z.to_nat
       (Qceiling (assetBase / (INVESTMENT_RETURN_RATE * annualSpending)))).

(** [calculateAssetEndurance(annualSpending, assetBase)], with
    [yearsElapsed] at its default [0]. *)
Definition calculateAssetEndurance (annualSpending assetBase : Q)
  : option Z :=
  calculateAssetEndurance_calls (endurance_calls annualSpending assetBase)
    annualSpending assetBase 0%Z.

(** One turn of the loop body shared by [calculateProjection] and
    [calculateFifteenYearValue]: [balance += annualSaving] and then
    [balance = balance * (1 + INVESTMENT_RETURN_RATE)]. *)
Definition projection_year (annualSaving balance : Q) : Q :=
  let balance := balance + annualSaving in
  balance * (1 + INVESTMENT_RETURN_RATE).

Fixpoint projection_loop (annualSaving : Q) (turns : nat) (balance : Q)
    (projection : list Z) : list Z :=
  match turns with
  | O => projection
  | S turns' =>
      let balance := projection_year annualSaving balance in
      projection_loop annualSaving turns' balance
        (projection ++ [Math_round balance])
  end.

Definition calculateProjection (annualSaving : Q) (years : nat)
    (startingBalance : Q) : list Z :=
  projection_loop annualSaving years startingBalance [].

Fixpoint fifteen_year_loop (annualSaving : Q) (turns : nat) (balance : Q)
  : Q :=
  match turns with
  | O => balance
  | S turns' =>
      fifteen_year_loop annualSaving turns'
        (projection_year annualSaving balance)
  end.

Definition calculateFifteenYearValue (annualSaving startingBalance : Q)
  : Z :=
  Math_round (fifteen_year_loop annualSaving PROJECTION_YEARS startingBalance).

(** The loop variables of [calculateCrossoverPoint]. *)
Record crossover_state : Type := mkState {
  st_assets : Q;
  st_projectionData : list YearRecord.t;
  st_crossoverYear : Z
}.

(** The body of [for (let year = 1; year <= 50; year++)]. *)
Definition crossover_year (earnedIncome annualSavings : Q) (year : Z)
    (st : crossover_state) : crossover_state :=
  let assets :=
    st_assets st * (1 + INVESTMENT_RETURN_RATE) + annualSavings in
  let passiveIncome := assets * WITHDRAWAL_RATE in
  let projectionData :=
    st_projectionData st
    ++ [YearRecord.mk year assets passiveIncome earnedIncome] in
  let crossoverYear :=
    if Js.ge passiveIncome earnedIncome
       && (st_crossoverYear st =? -1)%Z
    then year
    else st_crossoverYear st in
  mkState assets projectionData crossoverYear.

Fixpoint crossover_loop (earnedIncome annualSavings : Q) (turns : nat)
    (year : Z) (st : crossover_state) : crossover_state :=
  match turns with
  | O => st
  | S turns' =>
      crossover_loop earnedIncome annualSavings turns' (year + 1)%Z
        (crossover_year earnedIncome annualSavings year st)
  end.

Definition calculateCrossoverPoint
    (earnedIncome currentAssets annualSavings : Q) : Crossover.t :=
  let startingPassiveIncome := currentAssets * WITHDRAWAL_RATE in
  let crossoverYear :=
    if Js.ge startingPassiveIncome earnedIncome then 0%Z else (-1)%Z in
  let projectionData :=
    [YearRecord.mk 0 currentAssets startingPassiveIncome earnedIncome] in
  let st :=
    crossover_loop earnedIncome annualSavings 50 1%Z
      (mkState currentAssets projectionData crossoverYear) in
  Crossover.mk (st_crossoverYear st) (st_projectionData st).

Definition calculateAllCrossoverPoints (calculations : Calculations.t)
  : AllCrossovers.t :=
  let afterTaxIncome := Calculations.afterTaxIncome calculations in
  let currentAssets := Calculations.wealthAccount calculations in
  let workerCrossover :=
    calculateCrossoverPoint afterTaxIncome currentAssets
      (inject_Z (Calculations.estimatedSaving calculations)) in
  let investorCrossover :=
    calculateCrossoverPoint afterTaxIncome currentAssets
      (inject_Z (Calculations.targetSaving calculations)) in
  AllCrossovers.mk workerCrossover investorCrossover.


End FinancialCalculator.

(* ================================================================== *)
(** ** Field values and text *)

(** What a field of the raw [inputs] object may hold before validation:
    [null], [undefined], the empty string, or a number. *)
Module FormValue.

Inductive t : Type :=
| Null
| Undefined
| Empty
| Number (q : Q).

(** [!v]. *)
Definition falsy (v : t) : bool :=
  match v with
  | Number q => Qeq_bool q 0
  | _ => true
  end.

(** [ToNumber(v)]; [None] stands for [NaN]. *)
Definition to_number (v : t) : option Q :=
  match v with
  | Null => Some 0
  | Undefined => None
  | Empty => Some 0
  | Number q => Some q
  end.

(** [v <= n] and [v < n] against a number literal; a comparison with [NaN]
    is false. *)
Definition le_number (v : t) (n : Q) : bool :=
  match to_number v with
  | Some x => Js.le x n
  | None => false
  end.

Definition lt_number (v : t) (n : Q) : bool :=
  match to_number v with
  | Some x => Js.lt x n
  | None => false
  end.

(** [a > b] between two fields.  The only string a field holds is the
    empty one, and comparing two empty strings as strings or as numbers
    gives the same answer. *)
Definition gt (a b : t) : bool :=
  match to_number a, to_number b with
  | Some x, Some y => Js.gt x y
  | _, _ => false
  end.

End FormValue.

(** Text primitives behind [replace], [parseFloat], [parseInt] and
    [toLocaleString]. *)
Module Text.

Definition is_digit (c : ascii) : bool :=
  Ascii.leb "0" c && Ascii.leb c "9".

(** The class [[0-9.-]]. *)
Definition is_numeric (c : ascii) : bool :=
  is_digit c || Ascii.eqb c "." || Ascii.eqb c "-".

(** [s.replace(/[^...]/g, '')]: only the characters of the class stay. *)
Definition keep_only (keep : ascii -> bool) (s : string) : string :=
  string_of_list_ascii (filter keep (list_ascii_of_string s)).

(** The number a string of decimal digits denotes (0 for no digit). *)
Definition digits_value (s : string) : N :=
  match NilEmpty.uint_of_string s with
  | Some d => N.of_uint d
  | None => 0%N
  end.

(** The decimal digits of a natural number, as [String(n)] prints them. *)
Definition digits_of (n : N) : string :=
  NilZero.string_of_uint (N.to_uint n).

(** The longest prefix of digits, and what follows it. *)
Fixpoint span_digits (s : string) : string * string :=
  match s with
  | EmptyString => (EmptyString, EmptyString)
  | String c rest =>
      if is_digit c
      then let (digits, after) := span_digits rest in (String c digits, after)
      else (EmptyString, s)
  end.

(** [parseFloat] on a string made of digits, [.] and [-] only (what the
    cleaning [replace] of [parseCurrency] leaves): an optional leading [-],
    then digits with an optional [.] and optional digits, or a [.] followed
    by digits; the longest such prefix counts, and [None] is [NaN]. *)
Definition parseFloat_numeric (s : string) : option Q :=
  let (negative, body) :=
    match s with
    | String c rest => if Ascii.eqb c "-" then (true, rest) else (false, s)
    | EmptyString => (false, s)
    end in
  let (whole, after) := span_digits body in
  let fraction :=
    match after with
    | String c rest =>
        if Ascii.eqb c "." then fst (span_digits rest) else EmptyString
    | EmptyString => EmptyString
    end in
  if String.eqb whole "" && String.eqb fraction "" then None
  else
    let magnitude :=
      inject_Z (Z.of_N (digits_value whole))
      + inject_Z (Z.of_N (digits_value fraction))
        / inject_Z (10 ^ Z.of_nat (String.length fraction)) in
    Some (if negative then - magnitude else magnitude).

(** Grouping of the en-US locale, on the digits in reverse order: a comma
    after every third digit that is followed by another one. *)
Fixpoint group_rev (k : nat) (reversed : list ascii) : list ascii :=
  match reversed with
  | [] => []
  | c :: rest =>
      if (k =? 3)%nat
      then ","%char :: c :: group_rev 1 rest
      else c :: group_rev (S k) rest
  end.

Definition group_thousands (digits : string) : string :=
  string_of_list_ascii
    (rev (group_rev 0 (rev (list_ascii_of_string digits)))).

End Text.

(* ================================================================== *)
(** ** 3. Utility functions ([UtilityFunctions]) *)

Module UtilityFunctions.

(** [Math.min(Math.max(value, min), max)]. *)
Definition clamp (value min max : Q) : Q :=
  Math_min (Math_max value min) max.


(** [parseCurrency]: the empty string, or the number read. *)
Definition parseCurrency (value : string) : FormValue.t :=
  if String.eqb value "" then FormValue.Empty
  else
    let cleaned := Text.keep_only Text.is_numeric value in
    match Text.parseFloat_numeric cleaned with
    | Some parsed => FormValue.Number parsed
    | None => FormValue.Empty
    end.

(** [formatCurrency]: US dollars without cents.  The magnitude is rounded
    to the nearest unit, a half going up, and grouped by thousands; a
    negative value shows a leading minus sign. *)
Definition formatCurrency (value : Q) : string :=
  ((if Js.lt value 0 then "-" else "")
   ++ "$"
   ++ Text.group_thousands
        (Text.digits_of (Z.to_N (Math_round (Qabs value)))))%string.

End UtilityFunctions.

(* ================================================================== *)
(** ** 5. Form validation module ([FormValidator]) *)

(** The raw [inputs] object of the submit handler. *)
Module RawInputs.
Record t : Type := mk {
  preTaxIncome : FormValue.t;
  wealthAccount : FormValue.t;
  stateIncomeTax : FormValue.t;
  filingStatus : string
}.
End RawInputs.

(** The [errors] object: one optional message per field name. *)
Module Errors.
Record t : Type := mk {
  preTaxIncome : option string;
  wealthAccount : option string;
  stateIncomeTax : option string;
  filingStatus : option string
}.

Definition empty : t := mk None None None None.

(** [Object.keys(errors).length === 0]. *)
Definition no_keys (errors : t) : bool :=
  match preTaxIncome errors, wealthAccount errors,
        stateIncomeTax errors, filingStatus errors with
  | None, None, None, None => true
  | _, _, _, _ => false
  end.
End Errors.

Module FormValidator.

(** The messages of [validateCalculatorForm]. *)
Definition income_invalid : string := "Please enter a valid income amount".
Definition wealth_missing : string :=
  "Please enter your wealth account amount (enter $0 if none)".
Definition wealth_negative : string := "Wealth account cannot be negative".
Definition state_tax_negative : string := "State tax cannot be negative".
Definition status_missing : string := "Please select a filing status".
Definition state_tax_exceeds : string := "State tax cannot exceed income".

Definition validateCalculatorForm (inputs : RawInputs.t) : Errors.t :=
  let errors := Errors.empty in
  let errors :=
    if FormValue.falsy (RawInputs.preTaxIncome inputs)
       || FormValue.le_number (RawInputs.preTaxIncome inputs) 0
    then Errors.mk (Some income_invalid)
           (Errors.wealthAccount errors) (Errors.stateIncomeTax errors)
           (Errors.filingStatus errors)
    else errors in
  let errors :=
    match RawInputs.wealthAccount inputs with
    | FormValue.Null | FormValue.Undefined | FormValue.Empty =>
        Errors.mk (Errors.preTaxIncome errors) (Some wealth_missing)
          (Errors.stateIncomeTax errors) (Errors.filingStatus errors)
    | FormValue.Number _ =>
        if FormValue.lt_number (RawInputs.wealthAccount inputs) 0
        then Errors.mk (Errors.preTaxIncome errors) (Some wealth_negative)
               (Errors.stateIncomeTax errors) (Errors.filingStatus errors)
        else errors
    end in
  let errors :=
    if FormValue.lt_number (RawInputs.stateIncomeTax inputs) 0
    then Errors.mk (Errors.preTaxIncome errors) (Errors.wealthAccount errors)
           (Some state_tax_negative) (Errors.filingStatus errors)
    else errors in
  let errors :=
    if String.eqb (RawInputs.filingStatus inputs) ""
    then Errors.mk (Errors.preTaxIncome errors) (Errors.wealthAccount errors)
           (Errors.stateIncomeTax errors) (Some status_missing)
    else errors in
  let errors :=
    if FormValue.gt (RawInputs.stateIncomeTax inputs)
         (RawInputs.preTaxIncome inputs)
    then Errors.mk (Errors.preTaxIncome errors) (Errors.wealthAccount errors)
           (Some state_tax_exceeds) (Errors.filingStatus errors)
    else errors in
  errors.

End FormValidator.

(* ================================================================== *)
(** ** 9. Currency input handler and 10. the submit handler: the
    computed parts *)

Module CurrencyInputHandler.

(** [formatLive(value)] on a whole number. *)
Definition formatLive (value : N) : string :=
  ("$" ++ Text.group_thousands (Text.digits_of value))%string.

(** The new text of the field after [handleInput]. *)
Definition handleInput (value : string) : string :=
  let value := Text.keep_only Text.is_digit value in
  let numValue := Text.digits_value value in
  if (0 <? numValue)%N then formatLive numValue else ""%string.

(** The new text of the field [id] after [handleBlur]. *)
Definition handleBlur (id value : string) : string :=
  match UtilityFunctions.parseCurrency value with
  | FormValue.Number v =>
      if Js.gt v 0 then UtilityFunctions.formatCurrency v
      else if Qeq_bool v 0 && String.eqb id "wealthAccount"
      then "$0"%string
      else ""%string
  | _ => ""%string
  end.

End CurrencyInputHandler.

(** What a submission leads to: the errors shown, or the outcome of
    [FinancialCalculator.calculate] stored in the application state. *)
Inductive submission : Type :=
| Rejected (errors : Errors.t)
| Calculated (outcome : completion Calculations.t).

(** The [inputs] object [handleCalculatorSubmit] reads off the form. *)
Definition form_inputs
    (preTaxIncome wealthAccount stateIncomeTax filingStatus : string)
  : RawInputs.t :=
  RawInputs.mk
    (UtilityFunctions.parseCurrency preTaxIncome)
    (if String.eqb wealthAccount "" then FormValue.Empty
     else UtilityFunctions.parseCurrency wealthAccount)
    (let parsed := UtilityFunctions.parseCurrency stateIncomeTax in
     if FormValue.falsy parsed then FormValue.Number 0 else parsed)
    filingStatus.

(** [handleCalculatorSubmit], up to the call of [calculate].  Validated
    inputs hold numbers (see [validated_inputs_are_numbers]); [None] marks
    the other shapes, which validation never lets through. *)
Definition handleCalculatorSubmit
    (preTaxIncome wealthAccount stateIncomeTax filingStatus : string)
  : option submission :=
  let inputs :=
    form_inputs preTaxIncome wealthAccount stateIncomeTax filingStatus in
  let errors := FormValidator.validateCalculatorForm inputs in
  if negb (Errors.no_keys errors) then Some (Rejected errors)
  else
    match RawInputs.preTaxIncome inputs, RawInputs.wealthAccount inputs,
          RawInputs.stateIncomeTax inputs with
    | FormValue.Number income, FormValue.Number wealth, FormValue.Number tax =>
        Some (Calculated
                (FinancialCalculator.calculate
                   (Inputs.mk income (Inputs.Amount wealth) tax filingStatus)))
    | _, _, _ => None
    end.

(* ================================================================== *)
(** ** 8. UI controller module ([UIController]): the computed parts

    Only what the controller computes is embedded; what it writes into
    the page is returned as a value. *)

(** The text of an integer inside a template string: [`${n}`]. *)
Definition number_to_string (n : Z) : string :=
  NilZero.string_of_int (Z.to_int n).

(** The object returned by [calculateEnduranceDifference]. *)
Module Difference.
Record t : Type := mk {
  text : string;
  className : string
}.
End Difference.

(** The [chartData] object built by [createCrossoverChart]. *)
Module ChartData.
Record t : Type := mk {
  labels : list Z;
  earnedIncome : list Q;
  workerPassive : list Q;
  investorPassive : list Q
}.
End ChartData.

Module UIController.

Definition calculateEnduranceDifference (workerEndurance investorEndurance : Z)
  : Difference.t :=
  if (workerEndurance =? -1)%Z && (investorEndurance =? -1)%Z
  then Difference.mk "Both indefinite" "positive"
  else if (investorEndurance =? -1)%Z && negb (workerEndurance =? -1)%Z
  then Difference.mk "Investor: Indefinite" "positive"
  else if (workerEndurance =? -1)%Z && negb (investorEndurance =? -1)%Z
  then Difference.mk "Worker: Indefinite" "negative"
  else if (workerEndurance =? 0)%Z || (investorEndurance =? 0)%Z
  then Difference.mk "N/A" ""
  else
    let diff := (investorEndurance - workerEndurance)%Z in
    let sign := if (0 <? diff)%Z then "+"%string else ""%string in
    Difference.mk
      (sign ++ number_to_string diff ++ " years")%string
      (if (0 <? diff)%Z then "positive" else "negative").

(** The viewing window [maxYears] chosen by [createCrossoverChart]. *)
Definition crossover_window (workerCrossover investorCrossover : Z) : Z :=
  let maxYears := 30%Z in
  let maxYears :=
    if (0 <? workerCrossover)%Z && negb (workerCrossover =? -1)%Z
    then Z.min 50 (Z.max maxYears (Qceiling (inject_Z workerCrossover * 1.3)))
    else maxYears in
  let maxYears :=
    if (0 <? investorCrossover)%Z && negb (investorCrossover =? -1)%Z
    then Z.min 50 (Z.max 20 (Qceiling (inject_Z investorCrossover * 1.5)))
    else maxYears in
  if negb (workerCrossover =? -1)%Z && (workerCrossover <=? 10)%Z
     && negb (investorCrossover =? -1)%Z && (investorCrossover <=? 10)%Z
  then 15%Z
  else maxYears.



(** What [updateCrossoverStats] writes into the cells [crossoverDifference]
    and [freedomGained]. *)
Definition crossover_difference_cells (crossoverData : AllCrossovers.t)
  : string * string :=
  let worker := Crossover.years (AllCrossovers.worker crossoverData) in
  let investor := Crossover.years (AllCrossovers.investor crossoverData) in
  if negb (worker =? -1)%Z && negb (investor =? -1)%Z
  then
    let yearsSaved := (worker - investor)%Z in
    ((number_to_string yearsSaved ++ " years")%string,
     (number_to_string yearsSaved ++ " years")%string)
  else ("N/A"%string, "Infinite"%string).

End UIController.

(* ================================================================== *)
(** ** Definitions used to state the properties

    These follow the wording of the specification, not the source; the
    theorems below compare them with the embedding above. *)

Module Spec.
Import APP_CONFIG.

(** Projection engine, one year: the contribution is added before growth. *)
Definition contribute_then_grow (saving balance : Q) : Q :=
  (balance + saving) * 1.07.

(** Crossover engine, one year: growth is applied before the
    contribution. *)
Definition grow_then_contribute (savings assets : Q) : Q :=
  assets * 1.07 + savings.

(** assets_0 = currentAssets, assets_y = assets_(y-1) * 1.07 + savings. *)
Definition crossover_assets (currentAssets annualSavings : Q) (y : nat)
  : Q :=
  Nat.iter y (grow_then_contribute annualSavings) currentAssets.

(** Passive income of year [y]. *)
Definition passive_income (currentAssets annualSavings : Q) (y : nat) : Q :=
  crossover_assets currentAssets annualSavings y * 0.05.

(** The "never" sentinel of the crossover engine. *)
Definition never : Z := (-1)%Z.

(** [no_later y1 y2]: crossover year [y1] comes no later than [y2], the
    "never" sentinel being ordered after every finite year. *)
Definition no_later (y1 y2 : Z) : Prop :=
  y2 = never \/ (y1 <> never /\ (y1 <= y2)%Z).

(** The part of the income lying in the bracket that runs from the
    previous threshold [lower] to its own threshold [ceiling]. *)
Definition portion_in_bracket (income : Q) (lower ceiling : ext) : Q :=
  match lower with
  | Infinity => 0
  | Fin lo =>
      Qmax 0 (match ceiling with
              | Fin hi => Qmin income hi
              | Infinity => income
              end - lo)
  end.

(** The marginal-bracket sum: each bracket taxes its portion of the income
    at its own marginal rate. *)
Fixpoint marginal_bracket_sum_from (previous : ext) (income : Q)
    (brackets : list bracket) : Q :=
  match brackets with
  | [] => 0
  | b :: rest =>
      portion_in_bracket income previous (threshold b) * rate b
      + marginal_bracket_sum_from (threshold b) income rest
  end.

Definition marginal_bracket_sum (income : Q) (brackets : list bracket) : Q :=
  marginal_bracket_sum_from (Fin 0) income brackets.

(** A bracket table in ascending threshold order above [previous]: strictly
    increasing ceilings, nothing after an unbounded one, rates not
    negative. *)
Fixpoint ascending_from (previous : ext) (brackets : list bracket) : Prop :=
  match brackets with
  | [] => True
  | b :: rest =>
      match previous with
      | Infinity => False
      | Fin lo =>
          match threshold b with
          | Fin hi => lo < hi
          | Infinity => True
          end
      end
      /\ 0 <= rate b
      /\ ascending_from (threshold b) rest
  end.

(** Rounding to the nearest whole unit, a half going away from zero. *)
Definition round_half_away_from_zero (x : Q) : Z :=
  if Qle_bool 0 x then Qfloor (x + (1 # 2)) else Qceiling (x - (1 # 2)).

(** The schedule of tax year 2024 for single filers as the IRS published
    it.  It is NOT the table of the source, whose thresholds are those of
    tax year 2025; it only serves to explain the documented value 17053. *)
Definition irs_2024_single : list bracket :=
  [ mkBracket (Fin 11600) 0.10;
    mkBracket (Fin 47150) 0.12;
    mkBracket (Fin 100525) 0.22;
    mkBracket (Fin 191950) 0.24;
    mkBracket (Fin 243725) 0.32;
    mkBracket (Fin 609350) 0.35;
    mkBracket Infinity 0.37 ].


(** Inputs the form layer lets through: a positive income, a wealth that
    is blank or not negative, a state tax between 0 and the income, one of
    the four filing statuses. *)
Definition valid_inputs (inputs : Inputs.t) : Prop :=
  0 < Inputs.preTaxIncome inputs /\
  match Inputs.wealthAccount inputs with
  | Inputs.Blank => True
  | Inputs.Amount w => 0 <= w
  end /\
  0 <= Inputs.stateIncomeTax inputs /\
  Inputs.stateIncomeTax inputs <= Inputs.preTaxIncome inputs /\
  recognized (Inputs.filingStatus inputs).

(** Endurance recurrence: A_0 = assetBase,
    A_k = (A_(k-1) - annualSpending) * 1.07. *)
Definition spend_then_grow (annualSpending assets : Q) : Q :=
  (assets - annualSpending) * 1.07.

Definition endurance_assets (annualSpending assetBase : Q) (k : nat) : Q :=
  Nat.iter k (spend_then_grow annualSpending) assetBase.

(** The "indefinite" sentinel of the endurance engine. *)
Definition indefinite : Z := (-1)%Z.

End Spec.

(** The records the crossover loop pushes for the years [year],
    [year + 1], ..., starting from the asset base [assets]. *)
Fixpoint crossover_records (earnedIncome annualSavings : Q) (turns : nat)
    (year : Z) (assets : Q) : list YearRecord.t :=
  match turns with
  | O => []
  | S turns' =>
      let assets :=
        assets * (1 + APP_CONFIG.INVESTMENT_RETURN_RATE) + annualSavings in
      YearRecord.mk year assets (assets * APP_CONFIG.WITHDRAWAL_RATE)
        earnedIncome
      :: crossover_records earnedIncome annualSavings turns' (year + 1)%Z assets
  end.

(* ================================================================== *)
(** ** Shape of a bracket table *)

Module Table.

(** Every marginal rate of the table lies between [lowest] and [highest]. *)
Fixpoint rates_within (lowest highest : Q) (brackets : list bracket) : Prop :=
  match brackets with
  | [] => True
  | b :: rest =>
      (lowest <= rate b /\ rate b <= highest)
      /\ rates_within lowest highest rest
  end.

(** The table is not empty and its last ceiling is [Infinity]. *)
Fixpoint ends_unbounded (brackets : list bracket) : Prop :=
  match brackets with
  | [] => False
  | b :: rest =>
      match rest with
      | [] => threshold b = Infinity
      | _ :: _ => ends_unbounded rest
      end
  end.

End Table.

(* ================================================================== *)
(** ** Closed forms used to state further properties *)

(** The targets [calculate] settles on, before rounding: the worker's own
    split when the first-pass saving is below the worker's saving, the
    first-pass split otherwise. *)
Definition settled_targets (preTaxIncome afterTaxIncome wealthAccount : Q)
  : Q * Q :=
  let firstPassSpending := 0.5 * afterTaxIncome + 0.05 * wealthAccount in
  let workerSaving := preTaxIncome * 0.1 in
  if Js.lt (afterTaxIncome - firstPassSpending) workerSaving
  then (afterTaxIncome - workerSaving, workerSaving)
  else (firstPassSpending, afterTaxIncome - firstPassSpending).

(** [inputs.wealthAccount === '' ? 0 : inputs.wealthAccount]. *)
Definition wealth_or_zero (w : Inputs.wealth_field) : Q :=
  match w with
  | Inputs.Blank => 0
  | Inputs.Amount q => q
  end.

(** [lasts_at_least e1 e2]: the endurance [e1] is at least as long as [e2],
    the "indefinite" sentinel -1 being the longest. *)
Definition lasts_at_least (e1 e2 : Z) : Prop :=
  e1 = (-1)%Z \/ (e2 <> (-1)%Z /\ (e2 <= e1)%Z).


(** A text made of decimal digits only. *)
Definition all_digits (s : string) : Prop :=
  Forall (fun c => Text.is_digit c = true) (list_ascii_of_string s).

(** The number the digits of a text spell: what [handleInput] and
    [parseInt] make of a field's text. *)
Definition typed_number (value : string) : N :=
  Text.digits_value (Text.keep_only Text.is_digit value).

(* ================================================================== *)
(** ** Binary64 numbers

    The engines run on IEEE 754 binary64 numbers.  A finite double is an
    integer multiple of 2^-1074 whose magnitude has at most 53 significant
    bits and stays below 2^1024: [Finite n] is the number [n * 2^-1074].
    An arithmetic operation returns the exact result rounded to the nearest
    double, a tie going to the even significand, and an infinity when the
    rounded magnitude reaches 2^1024.  The two zeros are one value here: no
    comparison and none of the operations below tells them apart. *)

Module Binary64.
Local Open Scope Z_scope.

Inductive number : Type :=
| NaN
| Infinity (negative : bool)
| Finite (units : Z).

(** The number 1 is [2^unit_bits] units; a magnitude of [overflow] units
    (2^1024) is out of range. *)
Definition unit_bits : Z := 1074.
Definition one : Z := 2 ^ unit_bits.
Definition overflow : Z := 2 ^ 2098.

Definition zero : number := Finite 0.

(** The integer nearest to [N / D], a tie going to the even one
    ([0 <= N], [0 < D]). *)
Definition nearest_even (N D : Z) : Z :=
  let f := N / D in
  match 2 * (N mod D) ?= D with
  | Lt => f
  | Gt => f + 1
  | Eq => if Z.even f then f else f + 1
  end.

(** [N / D] units rounded to 53 significant bits ([0 <= N], [0 < D]): when
    the integer part has [53 + k] bits, its last [k] bits are dropped and
    the result is a multiple of [2^k]. *)
Definition dropped_bits (N D : Z) : Z := Z.max 0 (Z.log2 (N / D) - 52).

Definition round_magnitude (N D : Z) : Z :=
  let k := dropped_bits N D in
  nearest_even N (D * 2 ^ k) * 2 ^ k.

(** The same for a denominator [2^j], by shifts. *)
Definition nearest_even_dyadic (N j : Z) : Z :=
  let f := Z.shiftr N j in
  match 2 * Z.land N (Z.ones j) ?= 2 ^ j with
  | Lt => f
  | Gt => f + 1
  | Eq => if Z.even f then f else f + 1
  end.

Definition round_magnitude_dyadic (N j : Z) : Z :=
  let k := Z.max 0 (Z.log2 (Z.shiftr N j) - 52) in
  nearest_even_dyadic N (j + k) * 2 ^ k.

(** A rounded magnitude under its sign: an infinity once out of range. *)
Definition signed (negative : bool) (n : Z) : number :=
  if overflow <=? n then Infinity negative
  else Finite (if negative then - n else n).

(** The double nearest to [N / D] units ([0 < D]), and to [N / 2^j]
    units. *)
Definition round_ratio (N D : Z) : number :=
  signed (N <? 0) (round_magnitude (Z.abs N) D).

Definition round_dyadic (N j : Z) : number :=
  signed (N <? 0) (round_magnitude_dyadic (Z.abs N) j).

(** The value of a decimal literal of the source. *)
Definition literal (x : Q) : number :=
  round_ratio (Qnum x * one) (Zpos (Qden x)).

(** The exact value of a finite double. *)
Definition value (n : Z) : Q := inject_Z n / inject_Z one.

(** The integers that are doubles (in units), and the numbers that are
    doubles other than [NaN]. *)
Definition representable (n : Z) : Prop :=
  round_magnitude (Z.abs n) 1 = Z.abs n /\ Z.abs n < overflow.

Definition double (x : number) : Prop :=
  match x with
  | NaN => False
  | Infinity _ => True
  | Finite n => representable n
  end.

(** What an operation can return: a double or [NaN]. *)
Definition well_formed (x : number) : Prop :=
  match x with
  | Finite n => representable n
  | _ => True
  end.

Definition add (x y : number) : number :=
  match x, y with
  | NaN, _ | _, NaN => NaN
  | Infinity s1, Infinity s2 => if Bool.eqb s1 s2 then Infinity s1 else NaN
  | Infinity s, Finite _ | Finite _, Infinity s => Infinity s
  | Finite a, Finite b => round_dyadic (a + b) 0
  end.

Definition opp (x : number) : number :=
  match x with
  | NaN => NaN
  | Infinity s => Infinity (negb s)
  | Finite a => Finite (- a)
  end.

Definition sub (x y : number) : number := add x (opp y).

Definition mul (x y : number) : number :=
  match x, y with
  | NaN, _ | _, NaN => NaN
  | Infinity s1, Infinity s2 => Infinity (xorb s1 s2)
  | Infinity s, Finite a | Finite a, Infinity s =>
      if a =? 0 then NaN else Infinity (xorb s (a <? 0))
  | Finite a, Finite b => round_dyadic (a * b) unit_bits
  end.

(** [x / y].  The sign of a zero is not kept, so a division by zero (which
    no function below performs) is shown as one by +0. *)
Definition div (x y : number) : number :=
  match x, y with
  | NaN, _ | _, NaN => NaN
  | Infinity _, Infinity _ => NaN
  | Infinity s, Finite b => Infinity (xorb s (b <? 0))
  | Finite _, Infinity _ => zero
  | Finite a, Finite b =>
      if b =? 0 then (if a =? 0 then NaN else Infinity (a <? 0))
      else round_ratio (Z.sgn b * a * one) (Z.abs b)
  end.

(** [x <= y], [x < y], [x >= y], [x > y]: false as soon as one side is
    [NaN]. *)
Definition le (x y : number) : bool :=
  match x, y with
  | NaN, _ | _, NaN => false
  | Infinity true, _ => true
  | _, Infinity false => true
  | Infinity false, _ => false
  | _, Infinity true => false
  | Finite a, Finite b => a <=? b
  end.

Definition lt (x y : number) : bool :=
  match x, y with
  | NaN, _ | _, NaN => false
  | _, _ => negb (le y x)
  end.

Definition ge (x y : number) : bool := le y x.
Definition gt (x y : number) : bool := lt y x.

(** [Math.min(x, y)] and [Math.max(x, y)]. *)
Definition Math_min (x y : number) : number :=
  match x, y with
  | NaN, _ | _, NaN => NaN
  | _, _ => if le x y then x else y
  end.

Definition Math_max (x y : number) : number :=
  match x, y with
  | NaN, _ | _, NaN => NaN
  | _, _ => if le x y then y else x
  end.

(** [Math.round(x)]: the integer [floor(x + 1/2)], computed exactly. *)
Definition Math_round (x : number) : number :=
  match x with
  | Finite n =>
      Finite (Z.shiftl (Z.shiftr (2 * n + one) (unit_bits + 1)) unit_bits)
  | _ => x
  end.

(** The double of a whole number. *)
Definition integer (z : Z) : number := round_dyadic (z * one) 0.

End Binary64.

(* ================================================================== *)
(** ** The engines on binary64 numbers

    The functions of [TaxCalculator] and [FinancialCalculator] once more,
    every [+], [-], [*] and comparison of the source being the binary64
    one and every decimal literal the double it denotes.  Counters (years,
    calls) stay integers: they never leave the range in which doubles are
    exact. *)

Module Double.
Import Binary64.

(** The doubles the literals of a table entry denote. *)
Definition threshold_literal (b : bracket) : number :=
  match threshold b with
  | Fin q => literal q
  | Js.Infinity => Infinity false
  end.

Definition rate_literal (b : bracket) : number := literal (rate b).

(** A table entry as the source writes it, and as the engine holds it. *)
Definition decimal_bracket : Type := bracket.

Record bracket : Type := mkBracket {
  threshold : number;
  rate : number
}.

Definition bracket_of (b : decimal_bracket) : bracket :=
  mkBracket (threshold_literal b) (rate_literal b).

(** The doubles of the literals 0.07 and 0.05 (see [rate_literal_eq] and
    [withdrawal_literal]). *)
Definition INVESTMENT_RETURN_RATE : number :=
  Eval vm_compute in literal APP_CONFIG.INVESTMENT_RETURN_RATE.
Definition WITHDRAWAL_RATE : number :=
  Eval vm_compute in literal APP_CONFIG.WITHDRAWAL_RATE.

Module TaxCalculator.

(** The [for (const bracket of brackets)] loop of [calculateFederalTax]. *)
Fixpoint bracket_loop (income : number) (brackets : list bracket)
    (totalTax previousThreshold : number) : number :=
  match brackets with
  | [] => totalTax
  | bracket :: rest =>
      if le income previousThreshold then totalTax
      else
        let taxableInThisBracket :=
          sub (Math_min income (threshold bracket)) previousThreshold in
        bracket_loop income rest
          (add totalTax (mul taxableInThisBracket (rate bracket)))
          (threshold bracket)
  end.

Definition calculateFederalTax (income : number) (filingStatus : string)
  : completion number :=
  if le income zero then Normal zero
  else
    match TAX_BRACKETS_get filingStatus with
    | Undefined => Normal zero
    | Inherited => TypeError
    | BracketArray brackets =>
        Normal
          (Math_round
             (bracket_loop income (map bracket_of brackets) zero zero))
    end.

Definition calculateEffectiveRate (tax income : number) : number :=
  if le income zero then zero else div tax income.

End TaxCalculator.

Module YearRecord.
Record t : Type := mk {
  year : Z;
  assets : number;
  passiveIncome : number;
  earnedIncome : number
}.
End YearRecord.

Module Crossover.
Record t : Type := mk {
  years : Z;
  projectionData : list YearRecord.t
}.
End Crossover.

Module FinancialCalculator.

(** [1 + APP_CONFIG.FINANCIAL.INVESTMENT_RETURN_RATE]: the double 1.07
    (see [growth_sum] and [growth_literal]). *)
Definition growth : number :=
  Eval vm_compute in add (integer 1) INVESTMENT_RETURN_RATE.

Fixpoint calculateAssetEndurance_calls (calls : nat)
    (annualSpending assetBase : number) (yearsElapsed : Z) : option Z :=
  match calls with
  | O => None
  | S calls' =>
      if le annualSpending (mul assetBase INVESTMENT_RETURN_RATE)
      then Some (-1)%Z
      else if le (sub assetBase annualSpending) zero
      then Some (yearsElapsed + 1)%Z
      else
        let remainingAssets := mul (sub assetBase annualSpending) growth in
        calculateAssetEndurance_calls calls' annualSpending remainingAssets
          (yearsElapsed + 1)%Z
  end.

(** A number of calls that is always enough on an asset base that is not
    negative when neither argument is [NaN] (see
    [double_endurance_returns]): a base that is not sustainable is worth
    less than 14.3 spendings, and a call that recurses passes on a base
    lower by more than 6.99% of the spending.  With a spending that is
    [NaN] no number of calls is enough (see [double_endurance_of_NaN]). *)
Definition endurance_calls : nat := 200.

Definition calculateAssetEndurance (annualSpending assetBase : number)
  : option Z :=
  calculateAssetEndurance_calls endurance_calls annualSpending assetBase 0%Z.

Definition projection_year (annualSaving balance : number) : number :=
  let balance := add balance annualSaving in
  mul balance growth.

Fixpoint projection_loop (annualSaving : number) (turns : nat)
    (balance : number) (projection : list number) : list number :=
  match turns with
  | O => projection
  | S turns' =>
      let balance := projection_year annualSaving balance in
      projection_loop annualSaving turns' balance
        (projection ++ [Math_round balance])
  end.

Definition calculateProjection (annualSaving : number) (years : nat)
    (startingBalance : number) : list number :=
  projection_loop annualSaving years startingBalance [].

Fixpoint fifteen_year_loop (annualSaving : number) (turns : nat)
    (balance : number) : number :=
  match turns with
  | O => balance
  | S turns' =>
      fifteen_year_loop annualSaving turns'
        (projection_year annualSaving balance)
  end.

Definition calculateFifteenYearValue (annualSaving startingBalance : number)
  : number :=
  Math_round
    (fifteen_year_loop annualSaving APP_CONFIG.PROJECTION_YEARS
       startingBalance).

Record crossover_state : Type := mkState {
  st_assets : number;
  st_projectionData : list YearRecord.t;
  st_crossoverYear : Z
}.

Definition crossover_year (earnedIncome annualSavings : number) (year : Z)
    (st : crossover_state) : crossover_state :=
  let assets := add (mul (st_assets st) growth) annualSavings in
  let passiveIncome := mul assets WITHDRAWAL_RATE in
  let projectionData :=
    st_projectionData st
    ++ [YearRecord.mk year assets passiveIncome earnedIncome] in
  let crossoverYear :=
    if ge passiveIncome earnedIncome && (st_crossoverYear st =? -1)%Z
    then year
    else st_crossoverYear st in
  mkState assets projectionData crossoverYear.

Fixpoint crossover_loop (earnedIncome annualSavings : number) (turns : nat)
    (year : Z) (st : crossover_state) : crossover_state :=
  match turns with
  | O => st
  | S turns' =>
      crossover_loop earnedIncome annualSavings turns' (year + 1)%Z
        (crossover_year earnedIncome annualSavings year st)
  end.

Definition calculateCrossoverPoint
    (earnedIncome currentAssets annualSavings : number) : Crossover.t :=
  let startingPassiveIncome := mul currentAssets WITHDRAWAL_RATE in
  let crossoverYear :=
    if ge startingPassiveIncome earnedIncome then 0%Z else (-1)%Z in
  let projectionData :=
    [YearRecord.mk 0 currentAssets startingPassiveIncome earnedIncome] in
  let st :=
    crossover_loop earnedIncome annualSavings 50 1%Z
      (mkState currentAssets projectionData crossoverYear) in
  Crossover.mk (st_crossoverYear st) (st_projectionData st).

End FinancialCalculator.

(** The definitions that follow the wording of the specification, on
    binary64 numbers. *)
Module Spec.

Definition contribute_then_grow (saving balance : number) : number :=
  mul (add balance saving) (literal 1.07).

Definition grow_then_contribute (savings assets : number) : number :=
  add (mul assets (literal 1.07)) savings.

Definition crossover_assets (currentAssets annualSavings : number) (y : nat)
  : number :=
  Nat.iter y (grow_then_contribute annualSavings) currentAssets.

Definition passive_income (currentAssets annualSavings : number) (y : nat)
  : number :=
  mul (crossover_assets currentAssets annualSavings y) (literal 0.05).

(** The part of the income between the previous threshold [lower] and
    [min(income, ceiling)]; nothing when the income does not reach
    [lower]. *)
Definition portion_in_bracket (income lower ceiling : number) : number :=
  Math_max zero (sub (Math_min income ceiling) lower).

(** The marginal-bracket sum, accumulated bracket after bracket in table
    order. *)
Fixpoint marginal_bracket_sum_from (previous income : number)
    (brackets : list bracket) (total : number) : number :=
  match brackets with
  | [] => total
  | b :: rest =>
      marginal_bracket_sum_from (threshold b) income rest
        (add total
           (mul (portion_in_bracket income previous (threshold b)) (rate b)))
  end.

Definition marginal_bracket_sum (income : number) (brackets : list bracket)
  : number :=
  marginal_bracket_sum_from zero income brackets zero.

(** A table in ascending threshold order above [previous], with finite
    positive rates. *)
Fixpoint ascending_from (previous : number) (brackets : list bracket)
  : bool :=
  match brackets with
  | [] => true
  | b :: rest =>
      lt previous (threshold b)
      && match rate b with
         | Finite r => (0 <? r)%Z
         | _ => false
         end
      && ascending_from (threshold b) rest
  end.

Definition spend_then_grow (annualSpending assets : number) : number :=
  mul (sub assets annualSpending) (literal 1.07).

Definition endurance_assets (annualSpending assetBase : number) (k : nat)
  : number :=
  Nat.iter k (spend_then_grow annualSpending) assetBase.

End Spec.

End Double.

(* ================================================================== *)
(** ** Properties *)

Example federal_tax_single_50000 :
  TaxCalculator.calculateFederalTax 50000 "single" = Normal 5914%Z.
Proof. vm_compute. reflexivity. Qed.

Example endurance_100000_500000 :
  FinancialCalculator.calculateAssetEndurance 100000 500000 = Some 6%Z.
Proof. vm_compute. reflexivity. Qed.

Example endurance_50000_1000000 :
  FinancialCalculator.calculateAssetEndurance 50000 1000000 = Some (-1)%Z.
Proof. vm_compute. reflexivity. Qed.

Example projection_10000_3 :
  FinancialCalculator.calculateProjection 10000 3 0 = [10700; 22149; 34399]%Z.
Proof. vm_compute. reflexivity. Qed.

Example crossover_years_example :
  Crossover.years (FinancialCalculator.calculateCrossoverPoint 50000 100000 20000) = 18%Z.
Proof. vm_compute. reflexivity. Qed.

(* ------------------------------------------------------------------ *)
(** *** Comparisons *)

Lemma le_true (x y : Q) : Js.le x y = true <-> x <= y.
Proof. apply Qle_bool_iff. Qed.

Lemma le_false (x y : Q) : Js.le x y = false <-> y < x.
Proof.
  unfold Js.le. split; intro H.
  - apply Qnot_le_lt. intro Hle. apply Qle_bool_iff in Hle. congruence.
  - destruct (Qle_bool x y) eqn:E; [|reflexivity].
    apply Qle_bool_iff in E. exfalso. apply (Qlt_not_le _ _ H E).
Qed.

Lemma ge_true (x y : Q) : Js.ge x y = true <-> y <= x.
Proof. apply Qle_bool_iff. Qed.

Lemma ge_false (x y : Q) : Js.ge x y = false <-> x < y.
Proof. apply (le_false y x). Qed.

Lemma lt_true (x y : Q) : Js.lt x y = true <-> x < y.
Proof.
  unfold Js.lt. rewrite negb_true_iff. apply (le_false y x).
Qed.

Lemma lt_false (x y : Q) : Js.lt x y = false <-> y <= x.
Proof.
  unfold Js.lt. rewrite negb_false_iff. apply Qle_bool_iff.
Qed.

Lemma gt_true (x y : Q) : Js.gt x y = true <-> y < x.
Proof. apply (lt_true y x). Qed.

Lemma gt_false (x y : Q) : Js.gt x y = false <-> x <= y.
Proof. apply (lt_false y x). Qed.

(** Closed comparisons, decided by evaluation. *)
Ltac q_le := apply Qle_bool_iff; vm_compute; reflexivity.
Ltac q_not_le :=
  let H := fresh "H" in
  intro H; apply Qle_bool_iff in H; vm_compute in H; discriminate H.

Lemma Math_round_monotone (x y : Q) :
  x <= y -> (Math_round x <= Math_round y)%Z.
Proof.
  intro H. unfold Math_round. apply Qfloor_resp_le. lra.
Qed.

(* ------------------------------------------------------------------ *)
(** *** Projection engine *)

Section Projection.
Import FinancialCalculator.
Variable annualSaving : Q.

Lemma projection_loop_app (turns : nat) :
  forall balance projection,
    projection_loop annualSaving turns balance projection
    = projection ++ projection_loop annualSaving turns balance [].
Proof.
  induction turns as [|turns IH]; intros balance projection; simpl.
  - now rewrite app_nil_r.
  - rewrite IH. rewrite (IH _ [_]). now rewrite <- app_assoc.
Qed.

Lemma projection_loop_length (turns : nat) :
  forall balance projection,
    length (projection_loop annualSaving turns balance projection)
    = (length projection + turns)%nat.
Proof.
  induction turns as [|turns IH]; intros balance projection; simpl.
  - lia.
  - rewrite IH, length_app. simpl. lia.
Qed.

Lemma fifteen_year_loop_iter (turns : nat) :
  forall balance,
    fifteen_year_loop annualSaving turns balance
    = Nat.iter turns (projection_year annualSaving) balance.
Proof.
  induction turns as [|turns IH]; intro balance.
  - reflexivity.
  - rewrite Nat.iter_succ_r. simpl. apply IH.
Qed.

Lemma projection_loop_nth (turns : nat) :
  forall balance projection k,
    (k < turns)%nat ->
    nth_error (projection_loop annualSaving turns balance projection)
      (length projection + k)
    = Some (Math_round (fifteen_year_loop annualSaving (S k) balance)).
Proof.
  induction turns as [|turns IH]; intros balance projection k Hk; [lia|].
  simpl projection_loop. destruct k as [|k].
  - rewrite projection_loop_app, Nat.add_0_r.
    rewrite nth_error_app1 by (rewrite length_app; simpl; lia).
    rewrite nth_error_app2 by lia. now rewrite Nat.sub_diag.
  - specialize (IH (projection_year annualSaving balance)
                  (projection ++ [Math_round (projection_year annualSaving balance)])
                  k ltac:(lia)).
    rewrite length_app in IH. simpl length in IH.
    replace (length projection + S k)%nat
      with (length projection + 1 + k)%nat by lia.
    exact IH.
Qed.

Lemma calculateProjection_nth (years : nat) (startingBalance : Q) (k : nat) :
  (k < years)%nat ->
  nth_error (calculateProjection annualSaving years startingBalance) k
  = Some (Math_round (fifteen_year_loop annualSaving (S k) startingBalance)).
Proof.
  intro Hk. unfold calculateProjection.
  apply (projection_loop_nth years startingBalance [] k Hk).
Qed.

Lemma calculateProjection_last (years : nat) (startingBalance : Q) (d : Z) :
  last (calculateProjection annualSaving (S years) startingBalance) d
  = Math_round (fifteen_year_loop annualSaving (S years) startingBalance).
Proof.
  pose proof (calculateProjection_nth (S years) startingBalance years
                ltac:(lia)) as Hn.
  pose proof (projection_loop_length (S years) startingBalance []) as Hl.
  fold (calculateProjection annualSaving (S years) startingBalance) in Hl.
  simpl length in Hl.
  destruct (nth_error_split _ _ Hn) as (l1 & l2 & Heq & Hlen).
  rewrite Heq in Hl |- *. rewrite length_app in Hl. simpl in Hl.
  destruct l2 as [|z l2]; [|simpl in Hl; lia].
  apply last_last.
Qed.

End Projection.

(** C6.  The last element of the fifteen-year series is the value the
    single-value routine returns: [calculateProjection(s, 15, b)[14]] equals
    [calculateFifteenYearValue(s, b)] for every saving [s] and starting
    balance [b].  The series has exactly fifteen entries; the rounding of each
    recorded entry never flows back into the running balance. *)
Theorem projection_last_is_fifteen_year_value :
  forall annualSaving startingBalance : Q,
    let series :=
      FinancialCalculator.calculateProjection annualSaving
        APP_CONFIG.PROJECTION_YEARS startingBalance in
    length series = APP_CONFIG.PROJECTION_YEARS /\
    nth_error series (APP_CONFIG.PROJECTION_YEARS - 1)
    = Some (FinancialCalculator.calculateFifteenYearValue annualSaving
              startingBalance) /\
    forall d,
      last series d
      = FinancialCalculator.calculateFifteenYearValue annualSaving
          startingBalance.
Proof.
  intros annualSaving startingBalance series. subst series.
  split; [|split].
  - unfold FinancialCalculator.calculateProjection.
    now rewrite projection_loop_length.
  - change (APP_CONFIG.PROJECTION_YEARS - 1)%nat with 14%nat.
    rewrite calculateProjection_nth by (unfold APP_CONFIG.PROJECTION_YEARS; lia).
    unfold FinancialCalculator.calculateFifteenYearValue.
    unfold APP_CONFIG.PROJECTION_YEARS. reflexivity.
  - intro d. unfold FinancialCalculator.calculateFifteenYearValue.
    unfold APP_CONFIG.PROJECTION_YEARS.
    apply calculateProjection_last.
Qed.

(* ------------------------------------------------------------------ *)
(** *** Crossover engine *)

Section CrossoverLoop.
Import FinancialCalculator.
Variables earnedIncome annualSavings : Q.

Let grow := Spec.grow_then_contribute annualSavings.

Lemma crossover_year_assets (year : Z) (st : crossover_state) :
  st_assets (crossover_year earnedIncome annualSavings year st)
  = grow (st_assets st).
Proof. reflexivity. Qed.

Lemma crossover_loop_assets (turns : nat) :
  forall year st,
    st_assets (crossover_loop earnedIncome annualSavings turns year st)
    = Nat.iter turns grow (st_assets st).
Proof.
  induction turns as [|turns IH]; intros year st.
  - reflexivity.
  - rewrite Nat.iter_succ_r. simpl crossover_loop. rewrite IH.
    now rewrite crossover_year_assets.
Qed.

Lemma crossover_loop_data (turns : nat) :
  forall year st,
    st_projectionData (crossover_loop earnedIncome annualSavings turns year st)
    = st_projectionData st
      ++ crossover_records earnedIncome annualSavings turns year (st_assets st).
Proof.
  induction turns as [|turns IH]; intros year st.
  - simpl. now rewrite app_nil_r.
  - simpl crossover_loop. rewrite IH. simpl crossover_records.
    unfold crossover_year. simpl st_projectionData. simpl st_assets.
    now rewrite <- app_assoc.
Qed.

Lemma crossover_records_nth (turns : nat) :
  forall year assets k,
    (k < turns)%nat ->
    nth_error (crossover_records earnedIncome annualSavings turns year assets) k
    = Some (YearRecord.mk (year + Z.of_nat k)
              (Nat.iter (S k) grow assets)
              (Nat.iter (S k) grow assets * APP_CONFIG.WITHDRAWAL_RATE)
              earnedIncome).
Proof.
  induction turns as [|turns IH]; intros year assets k Hk; [lia|].
  destruct k as [|k].
  - simpl. now rewrite Z.add_0_r.
  - simpl crossover_records. simpl nth_error.
    rewrite IH by lia. rewrite (Nat.iter_succ_r (S k)).
    replace (year + 1 + Z.of_nat k)%Z with (year + Z.of_nat (S k))%Z by lia.
    reflexivity.
Qed.

(** Once a crossover year is set, later turns do not overwrite it. *)
Lemma crossover_loop_keeps (turns : nat) :
  forall year st,
    st_crossoverYear st <> (-1)%Z ->
    st_crossoverYear (crossover_loop earnedIncome annualSavings turns year st)
    = st_crossoverYear st.
Proof.
  induction turns as [|turns IH]; intros year st Hset; [reflexivity|].
  simpl crossover_loop.
  assert (Hstep :
            st_crossoverYear (crossover_year earnedIncome annualSavings year st)
            = st_crossoverYear st).
  { unfold crossover_year. simpl st_crossoverYear.
    apply Z.eqb_neq in Hset. rewrite Hset. now rewrite andb_false_r. }
  rewrite IH; rewrite Hstep; auto.
Qed.

(** No crossing in any of the turns: the sentinel stays. *)
Lemma crossover_loop_never (turns : nat) :
  forall year st,
    st_crossoverYear st = (-1)%Z ->
    (forall j, (j < turns)%nat ->
       ~ earnedIncome
         <= Nat.iter (S j) grow (st_assets st) * APP_CONFIG.WITHDRAWAL_RATE) ->
    st_crossoverYear (crossover_loop earnedIncome annualSavings turns year st)
    = (-1)%Z.
Proof.
  induction turns as [|turns IH]; intros year st Hunset Hno; [exact Hunset|].
  simpl crossover_loop. apply IH.
  - unfold crossover_year. simpl st_crossoverYear.
    destruct (Js.ge _ earnedIncome) eqn:Hge; [|exact Hunset].
    apply ge_true in Hge. exfalso. apply (Hno 0%nat ltac:(lia)). exact Hge.
  - intros j Hj. rewrite crossover_year_assets, <- Nat.iter_succ_r.
    apply Hno. lia.
Qed.

(** The first turn whose passive income reaches the earned income sets the
    crossover year. *)
Lemma crossover_loop_first (turns : nat) :
  forall year st j,
    st_crossoverYear st = (-1)%Z ->
    (0 <= year)%Z ->
    (j < turns)%nat ->
    earnedIncome
    <= Nat.iter (S j) grow (st_assets st) * APP_CONFIG.WITHDRAWAL_RATE ->
    (forall i, (i < j)%nat ->
       ~ earnedIncome
         <= Nat.iter (S i) grow (st_assets st) * APP_CONFIG.WITHDRAWAL_RATE) ->
    st_crossoverYear (crossover_loop earnedIncome annualSavings turns year st)
    = (year + Z.of_nat j)%Z.
Proof.
  induction turns as [|turns IH]; intros year st j Hunset Hyear Hj Hcross Hmin;
    [lia|].
  simpl crossover_loop. destruct j as [|j].
  - rewrite crossover_loop_keeps.
    + unfold crossover_year. simpl st_crossoverYear.
      apply ge_true in Hcross. simpl Nat.iter in Hcross.
      unfold grow, Spec.grow_then_contribute in Hcross.
      change (1 + APP_CONFIG.INVESTMENT_RETURN_RATE) with 1.07.
      rewrite Hcross, Hunset. simpl. lia.
    + unfold crossover_year. simpl st_crossoverYear.
      apply ge_true in Hcross. simpl Nat.iter in Hcross.
      unfold grow, Spec.grow_then_contribute in Hcross.
      change (1 + APP_CONFIG.INVESTMENT_RETURN_RATE) with 1.07.
      rewrite Hcross, Hunset. simpl. lia.
  - replace (year + Z.of_nat (S j))%Z with (year + 1 + Z.of_nat j)%Z by lia.
    apply IH.
    + unfold crossover_year. simpl st_crossoverYear.
      destruct (Js.ge _ earnedIncome) eqn:Hge; [|exact Hunset].
      apply ge_true in Hge. exfalso. apply (Hmin 0%nat ltac:(lia)). exact Hge.
    + lia.
    + lia.
    + rewrite crossover_year_assets, <- Nat.iter_succ_r. exact Hcross.
    + intros i Hi. rewrite crossover_year_assets, <- Nat.iter_succ_r.
      apply Hmin. lia.
Qed.

End CrossoverLoop.

Lemma calculateCrossoverPoint_data (earnedIncome currentAssets annualSavings : Q)
    (k : nat) :
  (k <= 50)%nat ->
  nth_error
    (Crossover.projectionData
       (FinancialCalculator.calculateCrossoverPoint earnedIncome currentAssets
          annualSavings)) k
  = Some (YearRecord.mk (Z.of_nat k)
            (Spec.crossover_assets currentAssets annualSavings k)
            (Spec.passive_income currentAssets annualSavings k)
            earnedIncome).
Proof.
  intro Hk. unfold FinancialCalculator.calculateCrossoverPoint.
  cbn [Crossover.projectionData]. rewrite crossover_loop_data.
  cbn [FinancialCalculator.st_projectionData FinancialCalculator.st_assets].
  destruct k as [|k].
  - reflexivity.
  - change (nth_error
              (crossover_records earnedIncome annualSavings 50 1 currentAssets) k
            = Some (YearRecord.mk (Z.of_nat (S k))
                      (Spec.crossover_assets currentAssets annualSavings (S k))
                      (Spec.passive_income currentAssets annualSavings (S k))
                      earnedIncome)).
    rewrite crossover_records_nth by lia.
    replace (1 + Z.of_nat k)%Z with (Z.of_nat (S k)) by lia.
    reflexivity.
Qed.

(** What [calculateCrossoverPoint] leaves in [years], case by case. *)
Lemma calculateCrossoverPoint_years :
  forall earnedIncome currentAssets annualSavings : Q,
    let result :=
      FinancialCalculator.calculateCrossoverPoint earnedIncome currentAssets
        annualSavings in
    let passive := Spec.passive_income currentAssets annualSavings in
    (earnedIncome <= currentAssets * 0.05 -> Crossover.years result = 0%Z) /\
    (~ earnedIncome <= currentAssets * 0.05 ->
     (forall y,
         (1 <= y <= 50)%nat ->
         earnedIncome <= passive y ->
         (forall j, (1 <= j < y)%nat -> ~ earnedIncome <= passive j) ->
         Crossover.years result = Z.of_nat y) /\
     ((forall y, (1 <= y <= 50)%nat -> ~ earnedIncome <= passive y) ->
      Crossover.years result = (-1)%Z)).
Proof.
  intros earnedIncome currentAssets annualSavings result passive.
  subst result passive.
  unfold FinancialCalculator.calculateCrossoverPoint. cbn [Crossover.years].
  change APP_CONFIG.WITHDRAWAL_RATE with 0.05.
  split.
  - intro H0. apply ge_true in H0. rewrite H0.
    now rewrite crossover_loop_keeps.
  - intro H0. apply Qnot_le_lt, ge_false in H0. rewrite H0.
    split.
    + intros y Hy Hcross Hmin.
      destruct y as [|y]; [lia|].
      rewrite (crossover_loop_first earnedIncome annualSavings 50 1 _ y);
        cbn [FinancialCalculator.st_crossoverYear FinancialCalculator.st_assets].
      * lia.
      * reflexivity.
      * lia.
      * lia.
      * exact Hcross.
      * intros i Hi. apply (Hmin (S i)). lia.
    + intros Hnone. apply crossover_loop_never; [reflexivity|].
      intros j Hj. apply (Hnone (S j)). lia.
Qed.

(* ------------------------------------------------------------------ *)
(** *** Saving more never delays the crossover *)

Lemma first_crossing_or_none (P : nat -> Prop) :
  (forall y, P y \/ ~ P y) ->
  forall n,
    (forall y, (1 <= y <= n)%nat -> ~ P y) \/
    (exists y, (1 <= y <= n)%nat /\ P y /\
               forall j, (1 <= j < y)%nat -> ~ P j).
Proof.
  intros dec n. induction n as [|n [IH|IH]].
  - left. intros y Hy. lia.
  - destruct (dec (S n)) as [HP|HP].
    + right. exists (S n). repeat split; try lia; [exact HP|].
      intros j Hj. apply IH. lia.
    + left. intros y Hy.
      destruct (Nat.eq_dec y (S n)) as [->|Hne]; [exact HP|].
      apply IH. lia.
  - right. destruct IH as (y & Hy & HP & Hmin).
    exists y. repeat split; try lia; assumption.
Qed.

Lemma Qle_decidable (x y : Q) : x <= y \/ ~ x <= y.
Proof.
  destruct (Qlt_le_dec y x) as [H|H]; [right|left; exact H].
  apply Qlt_not_le. exact H.
Qed.

(** The three outcomes of [calculateCrossoverPoint], exhaustively. *)
Lemma calculateCrossoverPoint_cases (E A S : Q) :
  let result := FinancialCalculator.calculateCrossoverPoint E A S in
  let passive := Spec.passive_income A S in
  (E <= A * 0.05 /\ Crossover.years result = 0%Z) \/
  (~ E <= A * 0.05 /\
   exists y, (1 <= y <= 50)%nat /\ E <= passive y /\
             (forall j, (1 <= j < y)%nat -> ~ E <= passive j) /\
             Crossover.years result = Z.of_nat y) \/
  (~ E <= A * 0.05 /\
   (forall y, (1 <= y <= 50)%nat -> ~ E <= passive y) /\
   Crossover.years result = (-1)%Z).
Proof.
  intros result passive.
  destruct (calculateCrossoverPoint_years E A S) as [Hzero Hlater].
  fold result in Hzero, Hlater. fold passive in Hlater.
  destruct (Qle_decidable E (A * 0.05)) as [H0|H0].
  - left. split; [exact H0|]. apply Hzero, H0.
  - right. destruct (Hlater H0) as [Hfirst Hnever].
    destruct (first_crossing_or_none (fun y => E <= passive y)
                (fun y => Qle_decidable E (passive y)) 50)
      as [Hnone|(y & Hy & Hcross & Hmin)].
    + right. repeat split; [exact H0|exact Hnone|]. apply Hnever, Hnone.
    + left. split; [exact H0|]. exists y. repeat split; try lia; try assumption.
      apply Hfirst; assumption.
Qed.

Lemma crossover_assets_monotone (A S1 S2 : Q) :
  S1 <= S2 ->
  forall y, Spec.crossover_assets A S1 y <= Spec.crossover_assets A S2 y.
Proof.
  intros HS y. unfold Spec.crossover_assets.
  induction y as [|y IH].
  - simpl. lra.
  - rewrite !Nat.iter_succ. unfold Spec.grow_then_contribute at 1 3. lra.
Qed.

Lemma passive_income_monotone (A S1 S2 : Q) :
  S1 <= S2 ->
  forall y, Spec.passive_income A S1 y <= Spec.passive_income A S2 y.
Proof.
  intros HS y. unfold Spec.passive_income.
  pose proof (crossover_assets_monotone A S1 S2 HS y). lra.
Qed.

Lemma crossover_year_antitone (E A S1 S2 : Q) :
  S1 <= S2 ->
  Spec.no_later
    (Crossover.years (FinancialCalculator.calculateCrossoverPoint E A S2))
    (Crossover.years (FinancialCalculator.calculateCrossoverPoint E A S1)).
Proof.
  intro HS. unfold Spec.no_later, Spec.never.
  destruct (calculateCrossoverPoint_cases E A S1)
    as [[H1 ->]|[(H1 & y1 & Hy1 & Hc1 & Hm1 & ->)|(H1 & Hn1 & ->)]].
  - right.
    destruct (calculateCrossoverPoint_cases E A S2)
      as [[H2 ->]|[(H2 & _)|(H2 & _)]]; try contradiction.
    lia.
  - right.
    assert (Hc2 : E <= Spec.passive_income A S2 y1).
    { apply Qle_trans with (1 := Hc1). now apply passive_income_monotone. }
    destruct (calculateCrossoverPoint_cases E A S2)
      as [[H2 ->]|[(H2 & y2 & Hy2 & _ & Hm2 & ->)|(H2 & Hn2 & _)]].
    + contradiction.
    + assert (y2 <= y1)%nat.
      { destruct (Nat.le_gt_cases y2 y1) as [Hle|Hgt]; [exact Hle|].
        exfalso. apply (Hm2 y1); [lia|exact Hc2]. }
      lia.
    + exfalso. apply (Hn2 y1); [lia|exact Hc2].
  - left. reflexivity.
Qed.

(** C10.  Saving more never delays the crossover.  For every calculation
    record with [targetSaving >= estimatedSaving >= 0], the investor
    crossover year returned by [calculateAllCrossoverPoints] is no later than
    the worker crossover year, "never" (-1) coming after every finite year;
    and in general the crossover year of [calculateCrossoverPoint] does not
    increase when [annualSavings] grows with [earnedIncome] and
    [currentAssets] fixed. *)
Theorem investor_crossover_no_later_than_worker :
  (forall calculations : Calculations.t,
      (0 <= Calculations.estimatedSaving calculations)%Z ->
      (Calculations.estimatedSaving calculations
       <= Calculations.targetSaving calculations)%Z ->
      let all :=
        FinancialCalculator.calculateAllCrossoverPoints calculations in
      Spec.no_later
        (Crossover.years (AllCrossovers.investor all))
        (Crossover.years (AllCrossovers.worker all))) /\
  (forall earnedIncome currentAssets savings1 savings2 : Q,
      savings1 <= savings2 ->
      Spec.no_later
        (Crossover.years
           (FinancialCalculator.calculateCrossoverPoint earnedIncome
              currentAssets savings2))
        (Crossover.years
           (FinancialCalculator.calculateCrossoverPoint earnedIncome
              currentAssets savings1))).
Proof.
  split.
  - intros calculations _ Hle all. subst all.
    unfold FinancialCalculator.calculateAllCrossoverPoints.
    cbn [AllCrossovers.investor AllCrossovers.worker].
    apply crossover_year_antitone.
    rewrite <- Zle_Qle. exact Hle.
  - intros earnedIncome currentAssets savings1 savings2 Hle.
    now apply crossover_year_antitone.
Qed.

Lemma investor_crossover_no_later_than_worker_witness :
  Spec.no_later
    (Crossover.years
       (AllCrossovers.investor
          (FinancialCalculator.calculateAllCrossoverPoints
             (Calculations.mk 16914 19914 80086 40043 40043 10000 70086 0))))
    (Crossover.years
       (AllCrossovers.worker
          (FinancialCalculator.calculateAllCrossoverPoints
             (Calculations.mk 16914 19914 80086 40043 40043 10000 70086 0))))
  /\ Spec.no_later
       (Crossover.years
          (FinancialCalculator.calculateCrossoverPoint 50000 100000 20000))
       (Crossover.years
          (FinancialCalculator.calculateCrossoverPoint 50000 100000 5000)).
Proof.
  destruct investor_crossover_no_later_than_worker as [Hcalc Hmono].
  split.
  - apply Hcalc; cbn [Calculations.estimatedSaving Calculations.targetSaving];
      lia.
  - apply Hmono. q_le.
Defined.

(* ------------------------------------------------------------------ *)
(** *** Tax engine *)


Lemma bracket_loop_unbounded (income : Q) (brackets : list bracket) (total : Q) :
  TaxCalculator.bracket_loop income brackets total Infinity = total.
Proof. destruct brackets; reflexivity. Qed.

Section BracketWalk.
Variable income : Q.

Lemma marginal_sum_nonneg (brackets : list bracket) :
  forall previous,
    Spec.ascending_from previous brackets ->
    0 <= Spec.marginal_bracket_sum_from previous income brackets.
Proof.
  induction brackets as [|b rest IH]; intros previous Hasc.
  - simpl. lra.
  - simpl in Hasc |- *. destruct Hasc as (Hprev & Hrate & Hrest).
    specialize (IH _ Hrest).
    assert (0 <= Spec.portion_in_bracket income previous (threshold b)).
    { unfold Spec.portion_in_bracket. destruct previous; [|lra].
      apply Q.le_max_l. }
    assert (0 <= Spec.portion_in_bracket income previous (threshold b) * rate b)
      by (apply Qmult_le_0_compat; assumption).
    lra.
Qed.

(** Brackets that start at or above the income tax nothing. *)
Lemma marginal_sum_covered (brackets : list bracket) :
  forall previous,
    Spec.ascending_from previous brackets ->
    match previous with Fin lo => income <= lo | Infinity => True end ->
    Spec.marginal_bracket_sum_from previous income brackets == 0.
Proof.
  induction brackets as [|b rest IH]; intros previous Hasc Hcov.
  - reflexivity.
  - simpl in Hasc |- *. destruct Hasc as (Hprev & Hrate & Hrest).
    destruct previous as [lo|]; [|contradiction].
    rewrite (IH _ Hrest).
    + unfold Spec.portion_in_bracket.
      destruct (threshold b) as [hi|].
      * rewrite Q.max_l; [lra|]. pose proof (Q.le_min_l income hi). lra.
      * rewrite Q.max_l; lra.
    + destruct (threshold b) as [hi|]; [lra|exact I].
Qed.

(** The loop of [calculateFederalTax] adds the marginal-bracket sum of the
    brackets it is given to the tax accumulated so far. *)
Lemma bracket_loop_sum (brackets : list bracket) :
  forall lo total,
    Spec.ascending_from (Fin lo) brackets ->
    TaxCalculator.bracket_loop income brackets total (Fin lo)
    == total + Spec.marginal_bracket_sum_from (Fin lo) income brackets.
Proof.
  induction brackets as [|b rest IH]; intros lo total Hasc.
  - simpl. lra.
  - pose proof Hasc as Hasc'. simpl in Hasc. destruct Hasc as (Hprev & Hrate & Hrest).
    simpl TaxCalculator.bracket_loop.
    destruct (Js.le income lo) eqn:Hle.
    + apply le_true in Hle.
      rewrite (marginal_sum_covered (b :: rest) (Fin lo) Hasc' Hle). lra.
    + apply le_false in Hle.
      simpl Spec.marginal_bracket_sum_from.
      destruct (threshold b) as [hi|] eqn:Hthr.
      * rewrite (IH hi _ Hrest).
        unfold Spec.portion_in_bracket, Math_min_ext, Math_min.
        destruct (Qle_bool income hi) eqn:Hmin.
        -- apply Qle_bool_iff in Hmin.
           rewrite (Q.min_l _ _ Hmin). rewrite Q.max_r by lra. lra.
        -- apply (le_false income hi) in Hmin.
           rewrite Q.min_r by lra. rewrite Q.max_r by lra. lra.
      * rewrite bracket_loop_unbounded.
        rewrite (marginal_sum_covered rest Infinity Hrest I).
        unfold Spec.portion_in_bracket, Math_min_ext.
        rewrite Q.max_r by lra. lra.
Qed.

End BracketWalk.

Lemma Math_round_nearest (x : Q) :
  inject_Z (Math_round x) - (1 # 2) <= x < inject_Z (Math_round x) + (1 # 2).
Proof.
  unfold Math_round.
  pose proof (Qfloor_le (x + (1 # 2))) as Hlo.
  pose proof (Qlt_floor (x + (1 # 2))) as Hhi.
  rewrite inject_Z_plus in Hhi. change (inject_Z 1) with 1 in Hhi.
  split; lra.
Qed.

Lemma Math_round_half_away (x : Q) :
  0 <= x -> Math_round x = Spec.round_half_away_from_zero x.
Proof.
  intro Hx. unfold Spec.round_half_away_from_zero.
  apply Qle_bool_iff in Hx. now rewrite Hx.
Qed.


(** Rounding, not truncation: 6 of income owes 0.6, which rounds to 1. *)
Example federal_tax_rounds_up :
  TaxCalculator.calculateFederalTax 6 "single" = Normal 1%Z.
Proof. vm_compute. reflexivity. Qed.

(** C9.  [calculateFederalTax(100000, "single")] evaluated on the configured
    table: 10% of 11925, 12% of 36550 and 22% of 51525 make 16914, not the
    documented 17053. *)
Theorem federal_tax_100000_single :
  TaxCalculator.calculateFederalTax 100000 "single" = Normal 16914%Z /\
  TaxCalculator.calculateFederalTax 100000 "single" <> Normal 17053%Z.
Proof.
  split.
  - vm_compute. reflexivity.
  - vm_compute. intro H. discriminate H.
Qed.

(** The documented 17053 is what the same bracket walk yields on the
    schedule of tax year 2024; the configured table, although labelled
    "2024 Federal Tax Brackets", carries the thresholds of tax year 2025. *)
Lemma bracket_walk_on_irs_2024_single :
  Math_round (TaxCalculator.bracket_loop 100000 Spec.irs_2024_single 0 (Fin 0))
  = 17053%Z.
Proof. vm_compute. reflexivity. Qed.

(** The defined default: a non-positive income owes 0 whatever the filing
    status, and so does any income under a status that names no property of
    [TAX_BRACKETS] at all, such as "unknown". *)
Lemma federal_tax_nonpositive_income (income : Q) (filingStatus : string) :
  income <= 0 ->
  TaxCalculator.calculateFederalTax income filingStatus = Normal 0%Z.
Proof.
  intro H. unfold TaxCalculator.calculateFederalTax.
  apply le_true in H. now rewrite H.
Qed.

Lemma federal_tax_undefined_status (income : Q) (filingStatus : string) :
  TAX_BRACKETS_get filingStatus = Undefined ->
  TaxCalculator.calculateFederalTax income filingStatus = Normal 0%Z.
Proof.
  intro H. unfold TaxCalculator.calculateFederalTax. rewrite H.
  now destruct (Js.le income 0).
Qed.

Example federal_tax_unknown_status (income : Q) :
  TaxCalculator.calculateFederalTax income "unknown" = Normal 0%Z.
Proof. now apply federal_tax_undefined_status. Qed.

(** C8.  A filing status that is not one of the four recognised keys but
    names a property inherited from [Object.prototype] passes the guard of
    [calculateFederalTax] (the value read is truthy) and the [for ... of]
    loop then throws: with a positive income the call raises a [TypeError]
    instead of returning 0. *)
Theorem federal_tax_inherited_key_throws :
  ~ recognized "toString" /\
  TaxCalculator.calculateFederalTax 50000 "toString" = TypeError /\
  TaxCalculator.calculateFederalTax 50000 "toString" <> Normal 0%Z.
Proof.
  split; [|split].
  - intros [H|[H|[H|H]]]; discriminate H.
  - vm_compute. reflexivity.
  - vm_compute. intro H. discriminate H.
Qed.

(* ------------------------------------------------------------------ *)
(** *** Target policy engine *)

Section Targets.
Import FinancialCalculator.
Variables afterTaxIncome estimatedSaving targetSpending0 : Q.
Hypothesis worker_saves : 0 < estimatedSaving.

Let estimatedSpending := afterTaxIncome - estimatedSaving.
Let targetSaving0 := Math_max 0 (afterTaxIncome - targetSpending0).


End Targets.



Example calculate_example :
  FinancialCalculator.calculate
    (Inputs.mk 100000 (Inputs.Amount 20000) 3000 "single")
  = Normal (Calculations.mk 16914 19914 80086 41043 39043 10000 70086 20000).
Proof. vm_compute. reflexivity. Qed.

(* ------------------------------------------------------------------ *)
(** *** Endurance engine *)

Section Endurance.
Import FinancialCalculator.
Variable annualSpending : Q.

Let next := Spec.spend_then_grow annualSpending.

(** A call that reaches neither [return] recurses on a smaller, still
    positive asset base, which is again not sustainable. *)
Lemma endurance_recursion_decreases (assetBase : Q) :
  ~ annualSpending <= assetBase * 0.07 ->
  ~ assetBase - annualSpending <= 0 ->
  0 < annualSpending /\
  0 < next assetBase /\
  next assetBase < assetBase - 0.07 * annualSpending /\
  ~ annualSpending <= next assetBase * 0.07.
Proof.
  intros Hsust Hdepl. unfold next, Spec.spend_then_grow.
  repeat split; lra.
Qed.

Lemma endurance_calls_unfold (calls : nat) (assetBase : Q) (yearsElapsed : Z) :
  calculateAssetEndurance_calls (S calls) annualSpending assetBase yearsElapsed
  = if Js.le annualSpending (assetBase * 0.07) then Some (-1)%Z
    else if Js.le (assetBase - annualSpending) 0
         then Some (yearsElapsed + 1)%Z
         else calculateAssetEndurance_calls calls annualSpending
                (next assetBase) (yearsElapsed + 1)%Z.
Proof. reflexivity. Qed.

(** More calls than needed change nothing. *)
Lemma endurance_calls_enough (calls : nat) :
  forall assetBase yearsElapsed result more,
    calculateAssetEndurance_calls calls annualSpending assetBase yearsElapsed
    = Some result ->
    (calls <= more)%nat ->
    calculateAssetEndurance_calls more annualSpending assetBase yearsElapsed
    = Some result.
Proof.
  induction calls as [|calls IH];
    intros assetBase yearsElapsed result more Hres Hmore; [discriminate Hres|].
  destruct more as [|more]; [lia|].
  rewrite endurance_calls_unfold in Hres |- *.
  destruct (Js.le annualSpending (assetBase * 0.07)); [exact Hres|].
  destruct (Js.le (assetBase - annualSpending) 0); [exact Hres|].
  apply (IH _ _ _ more Hres). lia.
Qed.

(** A sustainable asset base: the first [return]. *)
Lemma endurance_sustainable (calls : nat) (assetBase : Q) (yearsElapsed : Z) :
  annualSpending <= assetBase * 0.07 ->
  calculateAssetEndurance_calls (S calls) annualSpending assetBase yearsElapsed
  = Some (-1)%Z.
Proof.
  intro H. rewrite endurance_calls_unfold.
  apply le_true in H. now rewrite H.
Qed.

(** An asset base that is not sustainable is depleted after finitely many
    years: the call returns the first year [y] at which the remainder
    [A_(y-1) - annualSpending] is not positive, and needs [y] calls. *)
Lemma endurance_depletes (bound : nat) :
  forall assetBase yearsElapsed,
    ~ annualSpending <= assetBase * 0.07 ->
    assetBase - annualSpending
    <= 0.07 * annualSpending * inject_Z (Z.of_nat bound) ->
    exists y,
      (1 <= y <= S bound)%nat /\
      (forall calls,
          (y <= calls)%nat ->
          calculateAssetEndurance_calls calls annualSpending assetBase
            yearsElapsed
          = Some (yearsElapsed + Z.of_nat y)%Z) /\
      Spec.endurance_assets annualSpending assetBase (y - 1) - annualSpending
      <= 0 /\
      (forall j,
          (1 <= j < y)%nat ->
          ~ Spec.endurance_assets annualSpending assetBase (j - 1)
            - annualSpending <= 0).
Proof.
  induction bound as [|bound IH]; intros assetBase yearsElapsed Hsust Hbound.
  - exists 1%nat. change (inject_Z (Z.of_nat 0)) with 0 in Hbound.
    assert (Hdepl : assetBase - annualSpending <= 0) by lra.
    split; [lia|]. split; [|split].
    + intros calls Hcalls. destruct calls as [|calls]; [lia|].
      rewrite endurance_calls_unfold.
      apply Qnot_le_lt, le_false in Hsust. rewrite Hsust.
      apply le_true in Hdepl. rewrite Hdepl. reflexivity.
    + exact Hdepl.
    + intros j Hj. lia.
  - destruct (Qle_decidable (assetBase - annualSpending) 0) as [Hdepl|Hdepl].
    + exists 1%nat. split; [lia|]. split; [|split].
      * intros calls Hcalls. destruct calls as [|calls]; [lia|].
        rewrite endurance_calls_unfold.
        apply Qnot_le_lt, le_false in Hsust. rewrite Hsust.
        apply le_true in Hdepl. rewrite Hdepl. reflexivity.
      * exact Hdepl.
      * intros j Hj. lia.
    + destruct (endurance_recursion_decreases assetBase Hsust Hdepl)
        as (Hpos & Hnext_pos & Hnext_lt & Hnext_sust).
      assert (Hnext_bound :
                next assetBase - annualSpending
                <= 0.07 * annualSpending * inject_Z (Z.of_nat bound)).
      { rewrite Nat2Z.inj_succ, <- Z.add_1_r, inject_Z_plus in Hbound.
        change (inject_Z 1) with 1 in Hbound. lra. }
      destruct (IH (next assetBase) (yearsElapsed + 1)%Z Hnext_sust Hnext_bound)
        as (y & Hy & Hcalls & Hlast & Hmin).
      exists (S y). split; [lia|]. split; [|split].
      * intros calls Hle. destruct calls as [|calls]; [lia|].
        rewrite endurance_calls_unfold.
        apply Qnot_le_lt, le_false in Hsust. rewrite Hsust.
        apply Qnot_le_lt, le_false in Hdepl. rewrite Hdepl.
        rewrite Hcalls by lia. f_equal. lia.
      * replace (S y - 1)%nat with (S (y - 1)) by lia.
        unfold Spec.endurance_assets in Hlast |- *.
        rewrite Nat.iter_succ_r. exact Hlast.
      * intros j Hj. destruct (Nat.eq_dec j 1) as [->|Hne].
        -- exact Hdepl.
        -- replace (j - 1)%nat with (S (j - 1 - 1)) by lia.
           unfold Spec.endurance_assets. rewrite Nat.iter_succ_r.
           replace (j - 1 - 1)%nat with ((j - 1) - 1)%nat by lia.
           apply (Hmin (j - 1)%nat). lia.
Qed.

(** The number of calls [endurance_calls] grants is enough. *)
Lemma endurance_calls_bound (assetBase : Q) :
  0 < annualSpending ->
  assetBase - annualSpending
  <= 0.07 * annualSpending
     * inject_Z (Z.of_nat (Nat.pred (endurance_calls annualSpending assetBase))).
Proof.
  intro Hpos. unfold endurance_calls. cbn [Nat.pred].
  change APP_CONFIG.INVESTMENT_RETURN_RATE with 0.07.
  set (d := 0.07 * annualSpending).
  assert (Hd : 0 < d) by (unfold d; lra).
  pose proof (Qle_ceiling (assetBase / d)) as Hceil.
  assert (Hto : (Qceiling (assetBase / d)
                 <= Z.of_nat (Z.to_nat (Qceiling (assetBase / d))))%Z) by lia.
  rewrite Zle_Qle in Hto.
  assert (Hdiv : assetBase == assetBase / d * d).
  { field. lra. }
  assert (Hmul : assetBase / d * d
                 <= inject_Z (Z.of_nat (Z.to_nat (Qceiling (assetBase / d)))) * d).
  { apply Qmult_le_compat_r; lra. }
  lra.
Qed.

End Endurance.

(** What [calculateAssetEndurance] returns on a non-negative asset base. *)
Lemma calculateAssetEndurance_returns (annualSpending assetBase : Q) :
  0 <= assetBase ->
  (annualSpending <= assetBase * 0.07 ->
   forall calls yearsElapsed,
     FinancialCalculator.calculateAssetEndurance_calls (S calls) annualSpending
       assetBase yearsElapsed
     = Some (-1)%Z) /\
  (~ annualSpending <= assetBase * 0.07 ->
   exists y,
     (1 <= y <= FinancialCalculator.endurance_calls annualSpending assetBase)%nat /\
     (forall calls,
         (y <= calls)%nat ->
         FinancialCalculator.calculateAssetEndurance_calls calls annualSpending
           assetBase 0
         = Some (Z.of_nat y)) /\
     Spec.endurance_assets annualSpending assetBase (y - 1) - annualSpending
     <= 0 /\
     (forall j,
         (1 <= j < y)%nat ->
         ~ Spec.endurance_assets annualSpending assetBase (j - 1)
           - annualSpending <= 0)).
Proof.
  intro Hbase. split.
  - intros Hsust calls yearsElapsed. now apply endurance_sustainable.
  - intro Hsust.
    assert (Hpos : 0 < annualSpending) by lra.
    destruct (endurance_depletes annualSpending
                (Nat.pred (FinancialCalculator.endurance_calls annualSpending assetBase))
                assetBase 0%Z Hsust
                (endurance_calls_bound annualSpending assetBase Hpos))
      as (y & Hy & Hcalls & Hlast & Hmin).
    exists y. split; [|split; [|split]].
    + unfold FinancialCalculator.endurance_calls in Hy |- *.
      cbn [Nat.pred] in Hy. exact Hy.
    + intros calls Hle. rewrite (Hcalls calls Hle). f_equal.
    + exact Hlast.
    + exact Hmin.
Qed.

(** The embedded function is total on every pair of numbers: a negative
    asset base returns at the first call. *)
Lemma calculateAssetEndurance_total (annualSpending assetBase : Q) :
  exists result,
    FinancialCalculator.calculateAssetEndurance annualSpending assetBase
    = Some result.
Proof.
  destruct (Qlt_le_dec assetBase 0) as [Hneg|Hbase].
  - unfold FinancialCalculator.calculateAssetEndurance,
      FinancialCalculator.endurance_calls.
    rewrite endurance_calls_unfold.
    destruct (Js.le annualSpending (assetBase * 0.07)) eqn:H1; [eauto|].
    destruct (Js.le (assetBase - annualSpending) 0) eqn:H2; [eauto|].
    apply le_false in H1. apply le_false in H2. lra.
  - destruct (calculateAssetEndurance_returns annualSpending assetBase Hbase)
      as [Hsust Hdepl].
    destruct (Qle_decidable annualSpending (assetBase * 0.07)) as [H|H].
    + exists (-1)%Z. apply Hsust, H.
    + destruct (Hdepl H) as (y & Hy & Hcalls & _).
      exists (Z.of_nat y). apply Hcalls. lia.
Qed.

(** C5.  The recursion of [calculateAssetEndurance] terminates on every
    non-negative asset base.  A call either returns at once (one of the two
    base cases) or recurses on [(assetBase - annualSpending) * 1.07], which
    is positive and strictly below [assetBase]; some finite number of calls
    always reaches a [return], any larger number gives the same result, and
    the embedded function is total. *)
Theorem endurance_recursion_terminates :
  forall annualSpending assetBase : Q,
    0 <= assetBase ->
    (forall a calls yearsElapsed,
        annualSpending <= a * 0.07 \/
        a - annualSpending <= 0 \/
        (0 < Spec.spend_then_grow annualSpending a < a /\
         FinancialCalculator.calculateAssetEndurance_calls (S calls)
           annualSpending a yearsElapsed
         = FinancialCalculator.calculateAssetEndurance_calls calls
             annualSpending (Spec.spend_then_grow annualSpending a)
             (yearsElapsed + 1)%Z)) /\
    (exists depth result,
        forall calls,
          (depth <= calls)%nat ->
          FinancialCalculator.calculateAssetEndurance_calls calls annualSpending
            assetBase 0
          = Some result) /\
    (exists result,
        FinancialCalculator.calculateAssetEndurance annualSpending assetBase
        = Some result).
Proof.
  intros annualSpending assetBase Hbase.
  destruct (calculateAssetEndurance_returns annualSpending assetBase Hbase)
    as [Hsust Hdepl].
  split; [|split].
  - intros a calls yearsElapsed.
    destruct (Qle_decidable annualSpending (a * 0.07)) as [H1|H1];
      [left; exact H1|].
    destruct (Qle_decidable (a - annualSpending) 0) as [H2|H2];
      [right; left; exact H2|].
    right. right.
    destruct (endurance_recursion_decreases annualSpending a H1 H2)
      as (Hpos & Hnext & Hlt & _).
    split; [split; [exact Hnext|lra]|].
    rewrite endurance_calls_unfold.
    apply Qnot_le_lt, le_false in H1. rewrite H1.
    apply Qnot_le_lt, le_false in H2. rewrite H2. reflexivity.
  - destruct (Qle_decidable annualSpending (assetBase * 0.07)) as [H|H].
    + exists 1%nat, (-1)%Z. intros calls Hcalls.
      destruct calls as [|calls]; [lia|]. apply Hsust, H.
    + destruct (Hdepl H) as (y & Hy & Hcalls & _).
      exists y, (Z.of_nat y). exact Hcalls.
  - destruct (Qle_decidable annualSpending (assetBase * 0.07)) as [H|H].
    + exists (-1)%Z. apply Hsust, H.
    + destruct (Hdepl H) as (y & Hy & Hcalls & _).
      exists (Z.of_nat y). apply Hcalls. lia.
Qed.

Lemma endurance_recursion_terminates_witness :
  exists result,
    FinancialCalculator.calculateAssetEndurance 100000 500000 = Some result.
Proof.
  apply (endurance_recursion_terminates 100000 500000). q_le.
Defined.

(* ================================================================== *)
(** ** Further properties of the tax engine *)

Lemma recognized_table (filingStatus : string) :
  recognized filingStatus ->
  exists brackets,
    TAX_BRACKETS_get filingStatus = BracketArray brackets /\
    Spec.ascending_from (Fin 0) brackets /\
    Table.rates_within 0.10 0.37 brackets /\
    Table.ends_unbounded brackets.
Proof.
  intros [ -> | [ -> | [ -> | -> ] ] ];
    eexists; (split; [reflexivity|]);
    cbn; repeat split; try reflexivity; intro H; discriminate H.
Qed.

Section MarginalBand.
Variables lowest highest : Q.
Hypothesis highest_nonneg : 0 <= highest.

Lemma scaled_within (r d : Q) :
  lowest <= r -> r <= highest -> 0 <= d ->
  lowest * d <= r * d /\ r * d <= highest * d.
Proof.
  intros Hlo Hhi Hd. split; apply Qmult_le_compat_r; assumption.
Qed.

(** Between two incomes above the floor of the table, the marginal-bracket
    sum grows by at most the highest rate per unit of income, and, when the
    last bracket is unbounded, by at least the lowest rate. *)
Lemma marginal_sum_band (brackets : list bracket) :
  forall lo x y,
    Spec.ascending_from (Fin lo) brackets ->
    Table.rates_within lowest highest brackets ->
    lo <= x -> x <= y ->
    Spec.marginal_bracket_sum_from (Fin lo) y brackets
    - Spec.marginal_bracket_sum_from (Fin lo) x brackets
    <= highest * (y - x)
    /\ (Table.ends_unbounded brackets ->
        lowest * (y - x)
        <= Spec.marginal_bracket_sum_from (Fin lo) y brackets
           - Spec.marginal_bracket_sum_from (Fin lo) x brackets).
Proof.
  induction brackets as [|b rest IH]; intros lo x y Hasc Hrates Hlo Hxy.
  - simpl. split; [|contradiction].
    assert (0 <= highest * (y - x)) by (apply Qmult_le_0_compat; lra). lra.
  - simpl in Hasc. destruct Hasc as (Hprev & Hrate & Hrest).
    simpl in Hrates. destruct Hrates as ([Hrlo Hrhi] & Hrates).
    simpl Spec.marginal_bracket_sum_from.
    destruct (threshold b) as [hi|] eqn:Hthr.
    + (* a bounded bracket *)
      assert (Hunb : Table.ends_unbounded (b :: rest) -> Table.ends_unbounded rest).
      { simpl. rewrite Hthr. destruct rest; [discriminate|auto]. }
      unfold Spec.portion_in_bracket.
      destruct (Qlt_le_dec hi x) as [Hx|Hx].
      * (* both incomes are past the bracket *)
        rewrite !Q.min_r by lra. rewrite !Q.max_r by lra.
        destruct (IH hi x y Hrest Hrates ltac:(lra) Hxy) as [Hup Hdown].
        split; [lra|]. intro Hu. specialize (Hdown (Hunb Hu)). lra.
      * destruct (Qlt_le_dec hi y) as [Hy|Hy].
        -- (* the bracket ends between the two incomes *)
           rewrite (Q.min_l x hi) by lra. rewrite (Q.min_r y hi) by lra.
           rewrite !Q.max_r by lra.
           rewrite (marginal_sum_covered x rest (Fin hi) Hrest Hx).
           destruct (IH hi hi y Hrest Hrates ltac:(lra) ltac:(lra)) as [Hup Hdown].
           rewrite (marginal_sum_covered hi rest (Fin hi) Hrest (Qle_refl hi)) in Hup, Hdown.
           destruct (scaled_within (rate b) (hi - x) Hrlo Hrhi ltac:(lra)) as [H1 H2].
           split; [lra|]. intro Hu. specialize (Hdown (Hunb Hu)). lra.
        -- (* both incomes end inside the bracket *)
           rewrite !Q.min_l by lra. rewrite !Q.max_r by lra.
           rewrite (marginal_sum_covered x rest (Fin hi) Hrest Hx).
           rewrite (marginal_sum_covered y rest (Fin hi) Hrest Hy).
           destruct (scaled_within (rate b) (y - x) Hrlo Hrhi ltac:(lra)) as [H1 H2].
           split; [lra|]. intros _. lra.
    + (* the unbounded bracket *)
      unfold Spec.portion_in_bracket. rewrite !Q.max_r by lra.
      rewrite (marginal_sum_covered x rest Infinity Hrest I).
      rewrite (marginal_sum_covered y rest Infinity Hrest I).
      destruct (scaled_within (rate b) (y - x) Hrlo Hrhi ltac:(lra)) as [H1 H2].
      split; [lra|]. intros _. lra.
Qed.

End MarginalBand.

(** The marginal-bracket sum of no income is zero. *)
Lemma marginal_sum_zero (brackets : list bracket) :
  Spec.ascending_from (Fin 0) brackets ->
  Spec.marginal_bracket_sum 0 brackets == 0.
Proof.
  intro Hasc. unfold Spec.marginal_bracket_sum.
  apply marginal_sum_covered; [exact Hasc|apply Qle_refl].
Qed.

(** What [calculateFederalTax] returns on a positive income, in terms of
    the marginal-bracket sum of the table it reads. *)
Lemma federal_tax_positive (income : Q) (filingStatus : string)
    (brackets : list bracket) :
  TAX_BRACKETS_get filingStatus = BracketArray brackets ->
  Spec.ascending_from (Fin 0) brackets ->
  0 < income ->
  exists tax,
    TaxCalculator.calculateFederalTax income filingStatus = Normal tax /\
    inject_Z tax - (1 # 2) <= Spec.marginal_bracket_sum income brackets /\
    Spec.marginal_bracket_sum income brackets < inject_Z tax + (1 # 2).
Proof.
  intros Hget Hasc Hpos.
  unfold TaxCalculator.calculateFederalTax.
  apply (le_false income 0) in Hpos. rewrite Hpos, Hget.
  eexists. split; [reflexivity|].
  pose proof (Math_round_nearest
                (TaxCalculator.bracket_loop income brackets 0 (Fin 0))) as Hn.
  pose proof (bracket_loop_sum income brackets 0 0 Hasc) as Hsum.
  unfold Spec.marginal_bracket_sum.
  split; lra.
Qed.

Lemma inject_Z_lt_succ (a b : Z) : inject_Z a < inject_Z b + 1 -> (a <= b)%Z.
Proof.
  intro H. change 1 with (inject_Z 1) in H. rewrite <- inject_Z_plus in H.
  rewrite <- Zlt_Qlt in H. lia.
Qed.


(** The federal tax never falls when the income rises: under a recognised
    filing status, [calculateFederalTax] is monotone in the income, over
    non-positive incomes (which owe 0) as well. *)
Theorem federal_tax_monotone_in_income :
  forall (filingStatus : string) (income1 income2 : Q),
    recognized filingStatus ->
    income1 <= income2 ->
    exists tax1 tax2,
      TaxCalculator.calculateFederalTax income1 filingStatus = Normal tax1 /\
      TaxCalculator.calculateFederalTax income2 filingStatus = Normal tax2 /\
      (tax1 <= tax2)%Z.
Proof.
  intros filingStatus income1 income2 Hrec Hle.
  destruct (recognized_table filingStatus Hrec)
    as (brackets & Hget & Hasc & Hrates & Hunb).
  destruct (Qlt_le_dec 0 income1) as [Hpos1|Hneg1].
  - destruct (federal_tax_positive income1 _ _ Hget Hasc Hpos1)
      as (tax1 & Htax1 & Hlo1 & Hhi1).
    destruct (federal_tax_positive income2 _ _ Hget Hasc ltac:(lra))
      as (tax2 & Htax2 & Hlo2 & Hhi2).
    exists tax1, tax2. repeat split; try assumption.
    destruct (marginal_sum_band 0.10 0.37 ltac:(lra) brackets 0 income1 income2
                Hasc Hrates ltac:(lra) Hle) as [_ Hdown].
    specialize (Hdown Hunb). unfold Spec.marginal_bracket_sum in *.
    apply inject_Z_lt_succ. lra.
  - exists 0%Z. rewrite (federal_tax_nonpositive_income income1 _ Hneg1).
    destruct (Qlt_le_dec 0 income2) as [Hpos2|Hneg2].
    + destruct (federal_tax_positive income2 _ _ Hget Hasc Hpos2)
        as (tax2 & Htax2 & Hlo2 & Hhi2).
      exists tax2. repeat split; try assumption.
      pose proof (marginal_sum_nonneg income2 brackets (Fin 0) Hasc) as Hnn.
      unfold Spec.marginal_bracket_sum in *.
      apply inject_Z_lt_succ. change (inject_Z 0) with 0. lra.
    + exists 0%Z. rewrite (federal_tax_nonpositive_income income2 _ Hneg2).
      repeat split. lia.
Qed.

Lemma federal_tax_monotone_in_income_witness :
  exists tax1 tax2,
    TaxCalculator.calculateFederalTax 48475 "marriedJointly" = Normal tax1 /\
    TaxCalculator.calculateFederalTax 48476 "marriedJointly" = Normal tax2 /\
    (tax1 <= tax2)%Z.
Proof.
  apply federal_tax_monotone_in_income.
  - right. left. reflexivity.
  - q_le.
Defined.



Lemma federal_tax_positive_bounds :
  forall (filingStatus : string) (income : Q),
    recognized filingStatus ->
    0 < income ->
    exists tax,
      TaxCalculator.calculateFederalTax income filingStatus = Normal tax /\
      (0 <= tax)%Z /\
      inject_Z tax <= income /\
      0.10 * income - (1 # 2) <= inject_Z tax /\
      inject_Z tax <= 0.37 * income + (1 # 2).
Proof.
  intros filingStatus income Hrec Hpos.
  destruct (recognized_table filingStatus Hrec)
    as (brackets & Hget & Hasc & Hrates & Hunb).
  destruct (federal_tax_positive income filingStatus brackets Hget Hasc Hpos)
    as (tax & Htax & Hlo & Hhi).
  exists tax. split; [exact Htax|].
  destruct (marginal_sum_band 0.10 0.37 ltac:(lra) brackets 0 0 income
              Hasc Hrates ltac:(lra) ltac:(lra)) as [Hup Hdown].
  specialize (Hdown Hunb).
  pose proof (marginal_sum_zero brackets Hasc) as Hzero.
  unfold Spec.marginal_bracket_sum in *.
  assert (Hnonneg : (0 <= tax)%Z).
  { apply inject_Z_lt_succ. change (inject_Z 0) with 0. lra. }
  split; [exact Hnonneg|]. split; [|split; lra].
  destruct (Qlt_le_dec income 1) as [Hsmall|Hbig]; [|lra].
  assert (Htax0 : (tax <= 0)%Z).
  { apply inject_Z_lt_succ. change (inject_Z 0) with 0. lra. }
  assert (tax = 0%Z) by lia. subst tax. change (inject_Z 0) with 0. lra.
Qed.



(* ================================================================== *)
(** ** Further properties of the target policy engine *)

Section Corrections.
Import FinancialCalculator.
Variables afterTaxIncome estimatedSaving targetSpending0 : Q.
Hypothesis worker_saves : 0 < estimatedSaving.

(** With a worker who saves something, the two corrections amount to one
    choice: the worker's own split when the first-pass saving is below the
    worker's, the first-pass split otherwise.  The spending correction
    never changes what the saving correction left. *)
Lemma corrections_closed_form :
  match_worker_spending afterTaxIncome (afterTaxIncome - estimatedSaving)
    (match_worker_saving afterTaxIncome estimatedSaving
       (targetSpending0, Math_max 0 (afterTaxIncome - targetSpending0)))
  = if Js.lt (afterTaxIncome - targetSpending0) estimatedSaving
    then (afterTaxIncome - estimatedSaving, estimatedSaving)
    else (targetSpending0, afterTaxIncome - targetSpending0).
Proof.
  unfold match_worker_saving, match_worker_spending, Math_max.
  destruct (Js.lt (afterTaxIncome - targetSpending0) estimatedSaving) eqn:Hfirst.
  - apply lt_true in Hfirst.
    assert (Hlt : Js.lt (if Qle_bool 0 (afterTaxIncome - targetSpending0)
                         then afterTaxIncome - targetSpending0 else 0)
                    estimatedSaving = true).
    { apply lt_true. destruct (Qle_bool 0 (afterTaxIncome - targetSpending0)); lra. }
    rewrite Hlt.
    assert (Hgt : Js.gt (afterTaxIncome - estimatedSaving)
                    (afterTaxIncome - estimatedSaving) = false)
      by (apply gt_false; lra).
    now rewrite Hgt.
  - apply lt_false in Hfirst.
    assert (Hpos : Qle_bool 0 (afterTaxIncome - targetSpending0) = true)
      by (apply Qle_bool_iff; lra).
    rewrite Hpos.
    assert (Hlt : Js.lt (afterTaxIncome - targetSpending0) estimatedSaving = false)
      by (apply lt_false; exact Hfirst).
    rewrite Hlt.
    assert (Hgt : Js.gt targetSpending0 (afterTaxIncome - estimatedSaving) = false)
      by (apply gt_false; lra).
    now rewrite Hgt.
Qed.

End Corrections.

Lemma calculate_settles (inputs : Inputs.t) :
  0 < Inputs.preTaxIncome inputs ->
  recognized (Inputs.filingStatus inputs) ->
  exists federalTax,
    TaxCalculator.calculateFederalTax (Inputs.preTaxIncome inputs)
      (Inputs.filingStatus inputs)
    = Normal federalTax /\
    (0 <= federalTax)%Z /\
    inject_Z federalTax <= Inputs.preTaxIncome inputs /\
    let totalTax := inject_Z federalTax + Inputs.stateIncomeTax inputs in
    let afterTaxIncome := Inputs.preTaxIncome inputs - totalTax in
    let wealthAccount := wealth_or_zero (Inputs.wealthAccount inputs) in
    let targets :=
      settled_targets (Inputs.preTaxIncome inputs) afterTaxIncome
        wealthAccount in
    FinancialCalculator.calculate inputs
    = Normal
        (Calculations.mk federalTax totalTax afterTaxIncome
           (Math_round (fst targets)) (Math_round (snd targets))
           (Math_round (Inputs.preTaxIncome inputs * 0.1))
           (Math_round (afterTaxIncome - Inputs.preTaxIncome inputs * 0.1))
           wealthAccount).
Proof.
  intros Hincome Hstatus.
  destruct (federal_tax_positive_bounds _ _ Hstatus Hincome)
    as (federalTax & Htax & Hnonneg & Hle & _).
  exists federalTax. split; [exact Htax|]. split; [exact Hnonneg|].
  split; [exact Hle|]. cbv zeta.
  unfold FinancialCalculator.calculate. rewrite Htax. cbn [Js.bind].
  change APP_CONFIG.DEFAULT_SAVINGS_RATE with 0.1.
  change APP_CONFIG.AFTER_TAX_SPENDING_RATE with 0.5.
  change APP_CONFIG.WEALTH_SPENDING_RATE with 0.05.
  fold (wealth_or_zero (Inputs.wealthAccount inputs)).
  rewrite corrections_closed_form by lra.
  unfold settled_targets.
  destruct (Js.lt _ _); reflexivity.
Qed.





(* ================================================================== *)
(** ** Further properties of the projection and endurance engines *)

Lemma projection_year_monotone (s1 s2 b1 b2 : Q) :
  s1 <= s2 -> b1 <= b2 ->
  FinancialCalculator.projection_year s1 b1
  <= FinancialCalculator.projection_year s2 b2.
Proof.
  intros Hs Hb. unfold FinancialCalculator.projection_year.
  change (1 + APP_CONFIG.INVESTMENT_RETURN_RATE) with 1.07. lra.
Qed.

Lemma fifteen_year_loop_monotone (s1 s2 : Q) (turns : nat) :
  s1 <= s2 ->
  forall b1 b2,
    b1 <= b2 ->
    FinancialCalculator.fifteen_year_loop s1 turns b1
    <= FinancialCalculator.fifteen_year_loop s2 turns b2.
Proof.
  intro Hs. induction turns as [|turns IH]; intros b1 b2 Hb.
  - exact Hb.
  - simpl. apply IH. now apply projection_year_monotone.
Qed.

(** Compounding never loses principal: after [turns] years the balance is
    at least the starting balance plus the contributions. *)
Lemma fifteen_year_loop_principal (s : Q) (turns : nat) :
  0 <= s ->
  forall b,
    0 <= b ->
    b + inject_Z (Z.of_nat turns) * s
    <= FinancialCalculator.fifteen_year_loop s turns b.
Proof.
  intro Hs. induction turns as [|turns IH]; intros b Hb.
  - simpl. change (inject_Z 0) with 0. lra.
  - simpl FinancialCalculator.fifteen_year_loop.
    assert (Hstep : b + s <= FinancialCalculator.projection_year s b).
    { unfold FinancialCalculator.projection_year.
      change (1 + APP_CONFIG.INVESTMENT_RETURN_RATE) with 1.07. lra. }
    specialize (IH (FinancialCalculator.projection_year s b) ltac:(lra)).
    rewrite Nat2Z.inj_succ, <- Z.add_1_r, inject_Z_plus.
    change (inject_Z 1) with 1. lra.
Qed.

Lemma endurance_assets_monotone (s s' a a' : Q) :
  s' <= s -> a <= a' ->
  forall k,
    Spec.endurance_assets s a k <= Spec.endurance_assets s' a' k.
Proof.
  intros Hs Ha k. unfold Spec.endurance_assets.
  induction k as [|k IH].
  - exact Ha.
  - rewrite !Nat.iter_succ. unfold Spec.spend_then_grow at 1 3. lra.
Qed.

(** Spending less from a larger asset base never shortens the endurance. *)
Lemma endurance_monotone (s s' a a' : Q) :
  0 <= a -> a <= a' -> s' <= s ->
  exists e e',
    FinancialCalculator.calculateAssetEndurance s a = Some e /\
    FinancialCalculator.calculateAssetEndurance s' a' = Some e' /\
    lasts_at_least e' e.
Proof.
  intros Ha Haa Hss.
  destruct (calculateAssetEndurance_returns s a Ha) as [Hsust Hdepl].
  destruct (calculateAssetEndurance_returns s' a' ltac:(lra)) as [Hsust' Hdepl'].
  unfold FinancialCalculator.calculateAssetEndurance,
    FinancialCalculator.endurance_calls.
  destruct (Qle_decidable s' (a' * 0.07)) as [H'|H'].
  - destruct (calculateAssetEndurance_total s a) as [e He].
    exists e, (-1)%Z. split; [exact He|]. split; [apply Hsust', H'|].
    left. reflexivity.
  - assert (H : ~ s <= a * 0.07) by (intro; apply H'; lra).
    destruct (Hdepl H) as (y & Hy & Hcalls & Hlast & Hmin).
    destruct (Hdepl' H') as (y' & Hy' & Hcalls' & Hlast' & Hmin').
    exists (Z.of_nat y), (Z.of_nat y').
    split; [apply Hcalls; unfold FinancialCalculator.endurance_calls in Hy; lia|].
    split; [apply Hcalls'; unfold FinancialCalculator.endurance_calls in Hy'; lia|].
    right. split; [lia|].
    destruct (Nat.le_gt_cases y y') as [Hle|Hgt]; [lia|].
    exfalso. apply (Hmin y' ltac:(lia)).
    pose proof (endurance_assets_monotone s s' a a' Hss Haa (y' - 1)). lra.
Qed.

(** Spending less from a larger (non-negative) asset base never shortens
    the endurance [calculateAssetEndurance] reports, "indefinite" (-1)
    counting as the longest. *)
Theorem endurance_grows_with_assets_and_thrift :
  forall annualSpending annualSpending' assetBase assetBase' : Q,
    0 <= assetBase ->
    assetBase <= assetBase' ->
    annualSpending' <= annualSpending ->
    exists e e',
      FinancialCalculator.calculateAssetEndurance annualSpending assetBase
      = Some e /\
      FinancialCalculator.calculateAssetEndurance annualSpending' assetBase'
      = Some e' /\
      lasts_at_least e' e.
Proof.
  intros annualSpending annualSpending' assetBase assetBase' Ha Haa Hss.
  exact (endurance_monotone annualSpending annualSpending' assetBase assetBase'
           Ha Haa Hss).
Qed.

Lemma endurance_grows_with_assets_and_thrift_witness :
  exists e e',
    FinancialCalculator.calculateAssetEndurance 100000 500000 = Some e /\
    FinancialCalculator.calculateAssetEndurance 90000 600000 = Some e' /\
    lasts_at_least e' e.
Proof.
  apply endurance_grows_with_assets_and_thrift; q_le.
Defined.


Lemma Math_round_nonneg (x : Q) : 0 <= x -> (0 <= Math_round x)%Z.
Proof.
  intro H. change 0%Z with (Math_round 0). now apply Math_round_monotone.
Qed.


(** The record [calculate] returns on valid inputs has what
    [metrics_ordered] asks for. *)
Lemma calculate_valid_record (inputs : Inputs.t) :
  Spec.valid_inputs inputs ->
  exists result,
    FinancialCalculator.calculate inputs = Normal result /\
    0 <= Calculations.wealthAccount result /\
    (0 <= Calculations.estimatedSaving result)%Z /\
    (Calculations.estimatedSaving result
     <= Calculations.targetSaving result)%Z /\
    (Calculations.targetSpending result
     <= Calculations.estimatedSpending result)%Z.
Proof.
  intros (Hincome & Hwealth & _ & _ & Hstatus).
  destruct (calculate_settles inputs Hincome Hstatus)
    as (federalTax & _ & _ & _ & Hcalc).
  cbv zeta in Hcalc. eexists. split; [exact Hcalc|].
  cbn [Calculations.wealthAccount Calculations.targetSpending
       Calculations.targetSaving Calculations.estimatedSpending
       Calculations.estimatedSaving].
  split; [|split; [|split]].
  - unfold wealth_or_zero. destruct (Inputs.wealthAccount inputs); [lra|exact Hwealth].
  - apply Math_round_nonneg. lra.
  - apply Math_round_monotone. unfold settled_targets.
    destruct (Js.lt _ _) eqn:Hlt; cbn [snd]; [lra|].
    apply lt_false in Hlt. exact Hlt.
  - apply Math_round_monotone. unfold settled_targets.
    destruct (Js.lt _ _) eqn:Hlt; cbn [fst]; [lra|].
    apply lt_false in Hlt. lra.
Qed.



(* ================================================================== *)
(** ** Properties of the computed parts of the UI controller *)




Example same_year_depletion_shows_negative :
  UIController.calculateEnduranceDifference 1 1
  = Difference.mk "0 years" "negative".
Proof. reflexivity. Qed.

(** *** The crossover chart *)




Lemma crossover_window_late_investor (w i : Z) :
  (10 < i)%Z ->
  UIController.crossover_window w i
  = Z.min 50 (Z.max 20 (Qceiling (inject_Z i * 1.5))).
Proof.
  intro Hi. unfold UIController.crossover_window. cbv zeta.
  destruct (Z.eqb_spec i (-1)); [lia|].
  destruct (Z.leb_spec i 10); [lia|].
  destruct (Z.ltb_spec 0 i); [|lia].
  cbn [andb negb]. rewrite !andb_false_r. reflexivity.
Qed.

Lemma crossover_records_length (E S : Q) (turns : nat) :
  forall year assets,
    length (crossover_records E S turns year assets) = turns.
Proof.
  induction turns as [|turns IH]; intros year assets; simpl; [reflexivity|].
  now rewrite IH.
Qed.

Lemma calculateCrossoverPoint_data_length (E A S : Q) :
  length (Crossover.projectionData
            (FinancialCalculator.calculateCrossoverPoint E A S))
  = 51%nat.
Proof.
  unfold FinancialCalculator.calculateCrossoverPoint.
  cbn [Crossover.projectionData]. rewrite crossover_loop_data.
  cbn [FinancialCalculator.st_projectionData FinancialCalculator.st_assets].
  rewrite length_app, crossover_records_length. reflexivity.
Qed.

Lemma calculateCrossoverPoint_years_range (E A S : Q) :
  let y := Crossover.years (FinancialCalculator.calculateCrossoverPoint E A S) in
  y = (-1)%Z \/ (0 <= y <= 50)%Z.
Proof.
  intro y. subst y.
  destruct (calculateCrossoverPoint_cases E A S)
    as [[_ ->]|[(_ & y & Hy & _ & _ & ->)|(_ & _ & ->)]].
  - right. lia.
  - right. lia.
  - left. reflexivity.
Qed.





(** The window follows the investor.  When the investor's crossover year
    is after year 10, [createCrossoverChart] sets the window to
    [min(50, max(20, ceil(1.5 * investorYear)))] whatever the worker's
    crossover year is; a worker crossover later than that is left outside
    the chart. *)
Theorem crossover_window_follows_late_investor :
  forall workerCrossover investorCrossover : Z,
    (10 < investorCrossover)%Z ->
    UIController.crossover_window workerCrossover investorCrossover
    = Z.min 50 (Z.max 20 (Qceiling (inject_Z investorCrossover * 1.5))) /\
    ((Z.max 20 (Qceiling (inject_Z investorCrossover * 1.5))
      < workerCrossover)%Z ->
     (UIController.crossover_window workerCrossover investorCrossover
      < workerCrossover)%Z).
Proof.
  intros w i Hi.
  rewrite (crossover_window_late_investor w i Hi).
  split; [reflexivity|]. intro Hlate. lia.
Qed.

Lemma crossover_window_follows_late_investor_witness :
  (UIController.crossover_window 37 20 < 37)%Z.
Proof.
  apply (crossover_window_follows_late_investor 37 20).
  - lia.
  - vm_compute. reflexivity.
Defined.

(** The case of the witness arises from ordinary inputs: 100000 of income,
    single, 3000 of state tax and no wealth give a worker crossover in year
    37 and an investor crossover in year 20, hence a window of 30 years. *)
Example worker_crossover_outside_window :
  exists result,
    FinancialCalculator.calculate (Inputs.mk 100000 (Inputs.Amount 0) 3000 "single")
    = Normal result /\
    let crossoverData := FinancialCalculator.calculateAllCrossoverPoints result in
    Crossover.years (AllCrossovers.worker crossoverData) = 37%Z /\
    Crossover.years (AllCrossovers.investor crossoverData) = 20%Z /\
    UIController.crossover_window 37 20 = 30%Z.
Proof.
  eexists. split; [vm_compute; reflexivity|].
  vm_compute. repeat split.
Qed.

(* ================================================================== *)
(** ** Properties of the currency texts *)

Lemma string_of_uint_all_digits (d : Decimal.uint) :
  all_digits (NilEmpty.string_of_uint d).
Proof.
  unfold all_digits.
  induction d; cbn [NilEmpty.string_of_uint list_ascii_of_string];
    constructor; try reflexivity; assumption.
Qed.

Lemma string_of_uint_nonempty (d : Decimal.uint) :
  d <> Decimal.Nil -> NilEmpty.string_of_uint d <> ""%string.
Proof. destruct d; intros H E; try discriminate E. now apply H. Qed.

Lemma to_uint_nonnil (n : N) : N.to_uint n <> Decimal.Nil.
Proof.
  destruct n as [|p]; [discriminate|]. apply DecimalPos.Unsigned.to_uint_nonnil.
Qed.

Lemma digits_of_unfold (n : N) :
  Text.digits_of n = NilEmpty.string_of_uint (N.to_uint n).
Proof.
  unfold Text.digits_of, NilZero.string_of_uint.
  pose proof (to_uint_nonnil n) as H.
  destruct (N.to_uint n); [contradiction|reflexivity..].
Qed.

Lemma digits_of_all_digits (n : N) : all_digits (Text.digits_of n).
Proof. rewrite digits_of_unfold. apply string_of_uint_all_digits. Qed.

Lemma digits_of_nonempty (n : N) : Text.digits_of n <> ""%string.
Proof.
  rewrite digits_of_unfold. apply string_of_uint_nonempty, to_uint_nonnil.
Qed.

(** Reading back the digits of a number gives the number. *)
Lemma digits_value_of (n : N) : Text.digits_value (Text.digits_of n) = n.
Proof.
  unfold Text.digits_value. rewrite digits_of_unfold, NilEmpty.usu.
  apply DecimalN.Unsigned.of_to.
Qed.

Lemma filter_group_rev (keep : ascii -> bool) :
  keep ","%char = false ->
  forall reversed k,
    Forall (fun c => keep c = true) reversed ->
    filter keep (Text.group_rev k reversed) = reversed.
Proof.
  intros Hcomma reversed.
  induction reversed as [|c rest IH]; intros k Hall; [reflexivity|].
  inversion Hall as [|? ? Hc Hrest]; subst.
  cbn [Text.group_rev]. destruct (k =? 3)%nat; cbn [filter].
  - rewrite Hcomma, Hc. f_equal. now apply IH.
  - rewrite Hc. f_equal. now apply IH.
Qed.

(** Removing everything outside a class that holds the digits but not the
    comma undoes the grouping. *)
Lemma keep_only_group_thousands (keep : ascii -> bool) (digits : string) :
  keep ","%char = false ->
  Forall (fun c => keep c = true) (list_ascii_of_string digits) ->
  Text.keep_only keep (Text.group_thousands digits) = digits.
Proof.
  intros Hcomma Hall. unfold Text.keep_only, Text.group_thousands.
  rewrite list_ascii_of_string_of_list_ascii, filter_rev.
  rewrite (filter_group_rev keep Hcomma) by (now apply Forall_rev).
  now rewrite rev_involutive, string_of_list_ascii_of_string.
Qed.

Lemma digits_are_numeric (digits : string) :
  all_digits digits ->
  Forall (fun c => Text.is_numeric c = true) (list_ascii_of_string digits).
Proof.
  unfold all_digits. apply Forall_impl. intros c Hc.
  unfold Text.is_numeric. now rewrite Hc.
Qed.

Lemma span_digits_all (digits : string) :
  all_digits digits -> Text.span_digits digits = (digits, ""%string).
Proof.
  unfold all_digits. induction digits as [|c rest IH]; intro Hall;
    [reflexivity|].
  cbn [list_ascii_of_string] in Hall.
  inversion Hall as [|? ? Hc Hrest]; subst.
  cbn [Text.span_digits]. rewrite Hc, (IH Hrest). reflexivity.
Qed.

Lemma digit_is_not_minus (c : ascii) :
  Text.is_digit c = true -> Ascii.eqb c "-" = false.
Proof.
  intro Hc. destruct (Ascii.eqb_spec c "-") as [->|]; [discriminate Hc|reflexivity].
Qed.

(** [parseFloat] on a non-empty string of digits reads its value. *)
Lemma parseFloat_digits (digits : string) :
  all_digits digits -> digits <> ""%string ->
  exists q,
    Text.parseFloat_numeric digits = Some q /\
    q == inject_Z (Z.of_N (Text.digits_value digits)).
Proof.
  intros Hall Hne. unfold Text.parseFloat_numeric.
  destruct digits as [|c rest]; [contradiction|].
  assert (Hc : Text.is_digit c = true).
  { unfold all_digits in Hall. cbn in Hall. now inversion Hall. }
  rewrite (digit_is_not_minus c Hc), (span_digits_all _ Hall).
  cbn [String.eqb andb]. eexists. split; [reflexivity|].
  cbn [String.length Z.of_nat Z.pow]. 
  change (Text.digits_value "") with 0%N.
  change (inject_Z (Z.of_N 0)) with 0. field.
Qed.

(** [parseFloat] on a minus sign followed by digits. *)
Lemma parseFloat_minus_digits (digits : string) :
  all_digits digits -> digits <> ""%string ->
  exists q,
    Text.parseFloat_numeric (String "-" digits) = Some q /\
    q == - inject_Z (Z.of_N (Text.digits_value digits)).
Proof.
  intros Hall Hne. unfold Text.parseFloat_numeric.
  cbn [Ascii.eqb Bool.eqb andb]. rewrite (span_digits_all _ Hall).
  destruct digits as [|c rest]; [contradiction|].
  cbn [String.eqb andb]. eexists. split; [reflexivity|].
  cbn [String.length Z.of_nat Z.pow].
  change (Text.digits_value "") with 0%N.
  change (inject_Z (Z.of_N 0)) with 0. field.
Qed.

Lemma keep_only_cons (keep : ascii -> bool) (c : ascii) (s : string) :
  Text.keep_only keep (String c s)
  = if keep c then String c (Text.keep_only keep s)
    else Text.keep_only keep s.
Proof.
  unfold Text.keep_only. cbn [list_ascii_of_string filter].
  now destruct (keep c).
Qed.

(** What [parseCurrency] reads in a dollar sign followed by grouped
    digits. *)
Lemma parseCurrency_dollars (n : N) :
  exists q,
    UtilityFunctions.parseCurrency
      (String "$" (Text.group_thousands (Text.digits_of n)))
    = FormValue.Number q /\
    q == inject_Z (Z.of_N n).
Proof.
  unfold UtilityFunctions.parseCurrency. cbn [String.eqb].
  rewrite keep_only_cons. cbn [Text.is_numeric Text.is_digit Ascii.leb
                                 Ascii.eqb Bool.eqb andb orb].
  change (Text.is_numeric "$") with false. cbv iota.
  rewrite keep_only_group_thousands;
    [|reflexivity|apply digits_are_numeric, digits_of_all_digits].
  destruct (parseFloat_digits (Text.digits_of n) (digits_of_all_digits n)
              (digits_of_nonempty n)) as (q & Hq & Hval).
  rewrite Hq. exists q. split; [reflexivity|].
  now rewrite digits_value_of in Hval.
Qed.

Lemma Math_round_inject_Z (z : Z) : Math_round (inject_Z z) = z.
Proof.
  unfold Math_round.
  pose proof (Qfloor_le (inject_Z z + (1 # 2))) as Hlo.
  pose proof (Qlt_floor (inject_Z z + (1 # 2))) as Hhi.
  set (f := Qfloor (inject_Z z + (1 # 2))) in *.
  rewrite inject_Z_plus in Hhi. change (inject_Z 1) with 1 in Hhi.
  assert (H1 : inject_Z f < inject_Z z + 1) by lra.
  assert (H2 : inject_Z z < inject_Z f + 1) by lra.
  apply inject_Z_lt_succ in H1. apply inject_Z_lt_succ in H2. lia.
Qed.

Lemma Math_round_comp (x y : Q) : x == y -> Math_round x = Math_round y.
Proof. intro H. unfold Math_round. apply Qfloor_comp. now rewrite H. Qed.

(** Parsing undoes the live formatting: for every whole number [n] that a
    JavaScript number holds exactly, [parseCurrency(formatLive(n))] is the
    number [n]. *)
Theorem parseCurrency_reads_formatLive :
  forall n : N,
    (n < 2 ^ 53)%N ->
    exists q,
      UtilityFunctions.parseCurrency (CurrencyInputHandler.formatLive n)
      = FormValue.Number q /\
      q == inject_Z (Z.of_N n).
Proof.
  intros n _. exact (parseCurrency_dollars n).
Qed.

Lemma parseCurrency_reads_formatLive_witness :
  exists q,
    UtilityFunctions.parseCurrency (CurrencyInputHandler.formatLive 1234567)
    = FormValue.Number q /\
    q == inject_Z (Z.of_N 1234567).
Proof.
  apply parseCurrency_reads_formatLive. reflexivity.
Defined.

(** Parsing undoes [formatCurrency] up to its rounding: for every amount
    within the exact range of JavaScript numbers,
    [parseCurrency(formatCurrency(x))] is a number, the magnitude of [x]
    rounded to the nearest unit under the sign of [x], hence within one
    half of [x]. *)
Theorem parseCurrency_reads_formatCurrency :
  forall x : Q,
    Qabs x < inject_Z (2 ^ 53) ->
    exists q,
      UtilityFunctions.parseCurrency (UtilityFunctions.formatCurrency x)
      = FormValue.Number q /\
      q == (if Js.lt x 0 then - inject_Z (Math_round (Qabs x))
            else inject_Z (Math_round (Qabs x))) /\
      Qabs (q - x) <= 1 # 2.
Proof.
  intros x _.
  pose proof (Math_round_nonneg (Qabs x) (Qabs_nonneg x)) as Hm.
  pose proof (Math_round_nearest (Qabs x)) as [Hlo Hhi].
  set (m := Math_round (Qabs x)) in *.
  assert (Hback : Z.of_N (Z.to_N m) = m) by lia.
  unfold UtilityFunctions.formatCurrency. fold m.
  destruct (Js.lt x 0) eqn:Hsign.
  - apply lt_true in Hsign.
    assert (Habs : Qabs x == - x) by (apply Qabs_neg; lra).
    unfold UtilityFunctions.parseCurrency.
    cbn [append String.eqb].
    rewrite !keep_only_cons.
    change (Text.is_numeric "-") with true.
    change (Text.is_numeric "$") with false. cbv iota.
    rewrite keep_only_group_thousands;
      [|reflexivity|apply digits_are_numeric, digits_of_all_digits].
    destruct (parseFloat_minus_digits (Text.digits_of (Z.to_N m))
                (digits_of_all_digits _) (digits_of_nonempty _))
      as (q & Hq & Hval).
    rewrite Hq. exists q. split; [reflexivity|].
    rewrite digits_value_of, Hback in Hval.
    split; [exact Hval|].
    apply Qabs_Qle_condition. rewrite Hval. split; lra.
  - apply lt_false in Hsign.
    assert (Habs : Qabs x == x) by (apply Qabs_pos; lra).
    cbn [append].
    destruct (parseCurrency_dollars (Z.to_N m)) as (q & Hq & Hval).
    exists q. split; [exact Hq|].
    rewrite Hback in Hval. split; [exact Hval|].
    apply Qabs_Qle_condition. rewrite Hval. split; lra.
Qed.

Lemma parseCurrency_reads_formatCurrency_witness :
  exists q,
    UtilityFunctions.parseCurrency (UtilityFunctions.formatCurrency (-1234.5))
    = FormValue.Number q /\
    q == (if Js.lt (-1234.5) 0 then - inject_Z (Math_round (Qabs (-1234.5)))
          else inject_Z (Math_round (Qabs (-1234.5)))) /\
    Qabs (q - (-1234.5)) <= 1 # 2.
Proof.
  apply parseCurrency_reads_formatCurrency. reflexivity.
Defined.

Lemma keep_only_empty (keep : ascii -> bool) :
  Text.keep_only keep "" = ""%string.
Proof. reflexivity. Qed.

Lemma digits_of_formatLive (n : N) :
  Text.keep_only Text.is_digit (CurrencyInputHandler.formatLive n)
  = Text.digits_of n.
Proof.
  unfold CurrencyInputHandler.formatLive. cbn [append].
  rewrite keep_only_cons. change (Text.is_digit "$") with false. cbv iota.
  apply keep_only_group_thousands; [reflexivity|apply digits_of_all_digits].
Qed.

Lemma handleInput_formatLive (n : N) :
  (0 < n)%N ->
  CurrencyInputHandler.handleInput (CurrencyInputHandler.formatLive n)
  = CurrencyInputHandler.formatLive n.
Proof.
  intro Hn. unfold CurrencyInputHandler.handleInput.
  rewrite digits_of_formatLive, digits_value_of.
  apply N.ltb_lt in Hn. now rewrite Hn.
Qed.

(** What [handleInput] shows and what the parser then reads.  Whatever
    the text of the field, [handleInput] leaves either the empty text (no
    digit, or digits worth 0) or the live format of the number [n] its
    digits spell; applying it again changes nothing; and [parseCurrency]
    reads [n] back from that text, or the empty string when the field was
    emptied.  In particular no text [handleInput] leaves parses to 0. *)
Theorem handleInput_shows_typed_number :
  forall value : string,
    let n := Text.digits_value (Text.keep_only Text.is_digit value) in
    (n < 2 ^ 53)%N ->
    let shown := CurrencyInputHandler.handleInput value in
    CurrencyInputHandler.handleInput shown = shown /\
    ((0 < n)%N ->
     shown = CurrencyInputHandler.formatLive n /\
     exists q,
       UtilityFunctions.parseCurrency shown = FormValue.Number q /\
       q == inject_Z (Z.of_N n)) /\
    (n = 0%N ->
     shown = ""%string /\
     UtilityFunctions.parseCurrency shown = FormValue.Empty).
Proof.
  intros value n _ shown.
  assert (Hshown : shown
                   = if (0 <? n)%N then CurrencyInputHandler.formatLive n
                     else ""%string) by reflexivity.
  rewrite Hshown. clear Hshown shown.
  destruct (N.ltb_spec 0 n) as [Hpos|Hzero].
  - split; [now apply handleInput_formatLive|]. split.
    + intros _. split; [reflexivity|]. apply parseCurrency_dollars.
    + intro H. lia.
  - split; [reflexivity|]. split.
    + intro H. lia.
    + intros _. split; reflexivity.
Qed.

Lemma handleInput_shows_typed_number_witness :
  CurrencyInputHandler.handleInput (CurrencyInputHandler.handleInput "12a3456")
  = CurrencyInputHandler.handleInput "12a3456".
Proof.
  destruct (handleInput_shows_typed_number "12a3456") as [H _];
    [reflexivity|exact H].
Defined.

Lemma formatCurrency_whole (q : Q) (n : N) :
  q == inject_Z (Z.of_N n) ->
  UtilityFunctions.formatCurrency q = CurrencyInputHandler.formatLive n.
Proof.
  intro Hq. unfold UtilityFunctions.formatCurrency, CurrencyInputHandler.formatLive.
  assert (Hnn : 0 <= q).
  { rewrite Hq. change 0 with (inject_Z 0). rewrite <- Zle_Qle. lia. }
  assert (Hsign : Js.lt q 0 = false) by (apply lt_false; exact Hnn).
  rewrite Hsign.
  assert (Hm : Math_round (Qabs q) = Z.of_N n).
  { rewrite <- (Math_round_inject_Z (Z.of_N n)). apply Math_round_comp.
    rewrite (Qabs_pos q Hnn). exact Hq. }
  rewrite Hm, N2Z.id. reflexivity.
Qed.

(** Leaving a field does not change what typing left in it: for every
    field and every text whose digits spell a number below 2^53,
    [handleBlur] applied to the text [handleInput] left returns that same
    text. *)
Theorem handleBlur_keeps_live_format :
  forall id value : string,
    (Text.digits_value (Text.keep_only Text.is_digit value) < 2 ^ 53)%N ->
    CurrencyInputHandler.handleBlur id
      (CurrencyInputHandler.handleInput value)
    = CurrencyInputHandler.handleInput value.
Proof.
  intros id value _.
  set (n := Text.digits_value (Text.keep_only Text.is_digit value)).
  assert (Hshown : CurrencyInputHandler.handleInput value
                   = if (0 <? n)%N then CurrencyInputHandler.formatLive n
                     else ""%string) by reflexivity.
  rewrite Hshown. clear Hshown.
  destruct (N.ltb_spec 0 n) as [Hpos|Hzero].
  - unfold CurrencyInputHandler.handleBlur.
    destruct (parseCurrency_dollars n) as (q & Hq & Hval).
    unfold CurrencyInputHandler.formatLive at 1. cbn [append].
    rewrite Hq.
    assert (Hgt : Js.gt q 0 = true).
    { apply gt_true. rewrite Hval. change 0 with (inject_Z 0).
      rewrite <- Zlt_Qlt. lia. }
    rewrite Hgt. now apply formatCurrency_whole.
  - reflexivity.
Qed.

Lemma handleBlur_keeps_live_format_witness :
  CurrencyInputHandler.handleBlur "preTaxIncome"
    (CurrencyInputHandler.handleInput "85000")
  = CurrencyInputHandler.handleInput "85000".
Proof.
  apply handleBlur_keeps_live_format. reflexivity.
Defined.

(* ================================================================== *)
(** ** Properties of the form validation and of the submit handler *)

Lemma falsy_number (q : Q) : FormValue.falsy (FormValue.Number q) = false <-> ~ q == 0.
Proof.
  cbn [FormValue.falsy]. split.
  - intros H E. apply Qeq_bool_iff in E. congruence.
  - intro H. destruct (Qeq_bool q 0) eqn:E; [|reflexivity].
    apply Qeq_bool_iff in E. contradiction.
Qed.

Lemma validation_accepts_iff (inputs : RawInputs.t) :
  Errors.no_keys (FormValidator.validateCalculatorForm inputs) = true <->
  exists income wealth,
    RawInputs.preTaxIncome inputs = FormValue.Number income /\
    0 < income /\
    RawInputs.wealthAccount inputs = FormValue.Number wealth /\
    0 <= wealth /\
    RawInputs.filingStatus inputs <> ""%string /\
    (forall tax,
        FormValue.to_number (RawInputs.stateIncomeTax inputs) = Some tax ->
        0 <= tax /\ tax <= income).
Proof.
  destruct inputs as [pre wealth state status].
  unfold FormValidator.validateCalculatorForm.
  cbn [RawInputs.preTaxIncome RawInputs.wealthAccount
       RawInputs.stateIncomeTax RawInputs.filingStatus].
  split.
  - intro H.
    destruct (FormValue.falsy pre || FormValue.le_number pre 0) eqn:H1;
      destruct wealth as [| | |W];
      try destruct (FormValue.lt_number (FormValue.Number W) 0) eqn:H2;
      destruct (FormValue.lt_number state 0) eqn:H3;
      destruct (String.eqb status "") eqn:H4;
      destruct (FormValue.gt state pre) eqn:H5;
      cbn in H; try discriminate H.
    clear H.
    apply orb_false_iff in H1. destruct H1 as [Hfalsy Hle].
    destruct pre as [| | |I]; try discriminate Hfalsy.
    exists I, W.
    cbn [FormValue.le_number FormValue.to_number] in Hle.
    apply le_false in Hle.
    cbn [FormValue.lt_number FormValue.to_number] in H2.
    apply lt_false in H2.
    apply String.eqb_neq in H4.
    split; [reflexivity|]. split; [exact Hle|]. split; [reflexivity|].
    split; [exact H2|]. split; [exact H4|].
    intros tax Htax. split.
    + unfold FormValue.lt_number in H3. rewrite Htax in H3.
      now apply lt_false in H3.
    + unfold FormValue.gt in H5. rewrite Htax in H5.
      cbn [FormValue.to_number] in H5. now apply gt_false in H5.
  - intros (I & W & -> & HI & -> & HW & Hstatus & Hstate).
    assert (H1 : FormValue.falsy (FormValue.Number I)
                 || FormValue.le_number (FormValue.Number I) 0 = false).
    { apply orb_false_iff. split.
      - apply falsy_number. lra.
      - cbn. now apply le_false. }
    rewrite H1.
    assert (H2 : FormValue.lt_number (FormValue.Number W) 0 = false)
      by (cbn; now apply lt_false).
    rewrite H2.
    assert (H3 : FormValue.lt_number state 0 = false).
    { unfold FormValue.lt_number.
      destruct (FormValue.to_number state) as [tax|] eqn:E; [|reflexivity].
      apply lt_false. now apply (Hstate tax). }
    rewrite H3.
    apply String.eqb_neq in Hstatus. rewrite Hstatus.
    assert (H5 : FormValue.gt state (FormValue.Number I) = false).
    { unfold FormValue.gt.
      destruct (FormValue.to_number state) as [tax|] eqn:E; [|reflexivity].
      cbn [FormValue.to_number]. apply gt_false. now apply (Hstate tax). }
    rewrite H5. reflexivity.
Qed.

(** What validation lets through.  [validateCalculatorForm] reports no
    error exactly when the income is a positive number, the wealth is a
    number that is not negative (a blank, [null] or [undefined] wealth is
    always refused), a filing status is present, and the state tax, when
    it has a numeric value, lies between 0 and the income.  Nothing checks
    that the filing status is one of the four recognised keys. *)
Theorem validation_accepts_exactly :
  forall inputs : RawInputs.t,
    Errors.no_keys (FormValidator.validateCalculatorForm inputs) = true <->
    exists income wealth,
      RawInputs.preTaxIncome inputs = FormValue.Number income /\
      0 < income /\
      RawInputs.wealthAccount inputs = FormValue.Number wealth /\
      0 <= wealth /\
      RawInputs.filingStatus inputs <> ""%string /\
      (forall tax,
          FormValue.to_number (RawInputs.stateIncomeTax inputs) = Some tax ->
          0 <= tax /\ tax <= income).
Proof.
  intro inputs. exact (validation_accepts_iff inputs).
Qed.

Lemma validation_accepts_exactly_witness :
  Errors.no_keys
    (FormValidator.validateCalculatorForm
       (RawInputs.mk (FormValue.Number 85000) (FormValue.Number 0)
          FormValue.Undefined "headOfHousehold"))
  = true.
Proof.
  apply validation_accepts_exactly.
  exists 85000, 0.
  cbn [RawInputs.preTaxIncome RawInputs.wealthAccount
       RawInputs.stateIncomeTax RawInputs.filingStatus FormValue.to_number].
  split; [reflexivity|]. split; [reflexivity|]. split; [reflexivity|].
  split; [q_le|]. split; [intro H; discriminate H|].
  intros tax H. discriminate H.
Defined.

Lemma handleInput_unfold (value : string) :
  CurrencyInputHandler.handleInput value
  = if (0 <? typed_number value)%N
    then CurrencyInputHandler.formatLive (typed_number value)
    else ""%string.
Proof. reflexivity. Qed.

Lemma parseCurrency_handleInput (value : string) :
  ((0 < typed_number value)%N ->
   CurrencyInputHandler.handleInput value
   = CurrencyInputHandler.formatLive (typed_number value) /\
   exists q,
     UtilityFunctions.parseCurrency (CurrencyInputHandler.handleInput value)
     = FormValue.Number q /\
     q == inject_Z (Z.of_N (typed_number value))) /\
  (typed_number value = 0%N ->
   CurrencyInputHandler.handleInput value = ""%string).
Proof.
  rewrite handleInput_unfold.
  destruct (N.ltb_spec 0 (typed_number value)) as [Hpos|Hzero]; split.
  - intros _. split; [reflexivity|]. apply parseCurrency_dollars.
  - intro H. lia.
  - intro H. lia.
  - intros _. reflexivity.
Qed.

Lemma form_inputs_of_typed (a b c filingStatus : string) :
  (0 < typed_number a)%N ->
  (0 < typed_number b)%N ->
  exists income wealth tax,
    income == inject_Z (Z.of_N (typed_number a)) /\
    wealth == inject_Z (Z.of_N (typed_number b)) /\
    tax == inject_Z (Z.of_N (typed_number c)) /\
    form_inputs (CurrencyInputHandler.handleInput a)
      (CurrencyInputHandler.handleInput b)
      (CurrencyInputHandler.handleInput c) filingStatus
    = RawInputs.mk (FormValue.Number income) (FormValue.Number wealth)
        (FormValue.Number tax) filingStatus.
Proof.
  intros Ha Hb. unfold form_inputs.
  destruct (parseCurrency_handleInput a) as [Hpa _].
  destruct (Hpa Ha) as (_ & income & Hinc & Hival).
  destruct (parseCurrency_handleInput b) as [Hpb _].
  destruct (Hpb Hb) as (Hshown & wealth & Hwealth & Hwval).
  exists income, wealth. rewrite Hinc, Hwealth.
  assert (Hne : String.eqb (CurrencyInputHandler.handleInput b) "" = false).
  { rewrite Hshown. reflexivity. }
  rewrite Hne.
  destruct (parseCurrency_handleInput c) as [Hpc Hzc].
  destruct (N.eq_0_gt_0_cases (typed_number c)) as [Hzero|Hpos].
  - exists 0. rewrite (Hzc Hzero).
    change (UtilityFunctions.parseCurrency "") with FormValue.Empty.
    cbn [FormValue.falsy]. rewrite Hzero.
    repeat split; assumption.
  - destruct (Hpc Hpos) as (_ & tax & Htax & Htval).
    exists tax. rewrite Htax.
    assert (Hnz : FormValue.falsy (FormValue.Number tax) = false).
    { apply falsy_number. rewrite Htval.
      assert (0 < inject_Z (Z.of_N (typed_number c))).
      { change 0 with (inject_Z 0). rewrite <- Zlt_Qlt. lia. }
      lra. }
    rewrite Hnz. repeat split; assumption.
Qed.

Lemma blank_wealth_is_refused (inputs : RawInputs.t) :
  RawInputs.wealthAccount inputs = FormValue.Empty ->
  Errors.wealthAccount (FormValidator.validateCalculatorForm inputs)
  = Some "Please enter your wealth account amount (enter $0 if none)"%string
  /\ Errors.no_keys (FormValidator.validateCalculatorForm inputs) = false.
Proof.
  destruct inputs as [pre wealth state status].
  cbn [RawInputs.wealthAccount]. intros ->.
  unfold FormValidator.validateCalculatorForm.
  cbn [RawInputs.preTaxIncome RawInputs.wealthAccount
       RawInputs.stateIncomeTax RawInputs.filingStatus].
  destruct (FormValue.falsy pre || FormValue.le_number pre 0);
    destruct (FormValue.lt_number state 0);
    destruct (String.eqb status "");
    destruct (FormValue.gt state pre); split; reflexivity.
Qed.

(** From the keyboard to the calculator.  Let the three currency fields
    hold what [handleInput] left of any typed texts, spelling the whole
    numbers [p] (income), [w] (wealth) and [t] (state tax).  If [p] and [w]
    are positive, [t <= p] and a filing status is chosen, the submission is
    accepted and [calculate] runs on exactly these three numbers.  If [w]
    is 0 the wealth field is empty ([handleInput] empties a field whose
    digits are worth 0) and the submission is refused with the message that
    asks to enter $0. *)
Theorem submission_of_typed_fields :
  forall a b c filingStatus : string,
    let p := typed_number a in
    let w := typed_number b in
    let t := typed_number c in
    (p < 2 ^ 53)%N -> (w < 2 ^ 53)%N -> (t < 2 ^ 53)%N ->
    let outcome :=
      handleCalculatorSubmit (CurrencyInputHandler.handleInput a)
        (CurrencyInputHandler.handleInput b)
        (CurrencyInputHandler.handleInput c) filingStatus in
    ((0 < p)%N -> (0 < w)%N -> (t <= p)%N -> filingStatus <> ""%string ->
     exists income wealth tax,
       income == inject_Z (Z.of_N p) /\
       wealth == inject_Z (Z.of_N w) /\
       tax == inject_Z (Z.of_N t) /\
       outcome
       = Some (Calculated
                 (FinancialCalculator.calculate
                    (Inputs.mk income (Inputs.Amount wealth) tax
                       filingStatus)))) /\
    (w = 0%N ->
     exists errors,
       outcome = Some (Rejected errors) /\
       Errors.wealthAccount errors
       = Some "Please enter your wealth account amount (enter $0 if none)"%string).
Proof.
  intros a b c filingStatus p w t _ _ _ outcome. split.
  - intros Hp Hw Htp Hstatus.
    destruct (form_inputs_of_typed a b c filingStatus Hp Hw)
      as (income & wealth & tax & Hi & Hwl & Ht & Hform).
    fold p in Hi. fold w in Hwl. fold t in Ht.
    exists income, wealth, tax.
    split; [exact Hi|]. split; [exact Hwl|]. split; [exact Ht|].
    subst outcome. unfold handleCalculatorSubmit. rewrite Hform.
    assert (Hok : Errors.no_keys
                    (FormValidator.validateCalculatorForm
                       (RawInputs.mk (FormValue.Number income)
                          (FormValue.Number wealth) (FormValue.Number tax)
                          filingStatus)) = true).
    { apply validation_accepts_iff. exists income, wealth.
      cbn [RawInputs.preTaxIncome RawInputs.wealthAccount
           RawInputs.stateIncomeTax RawInputs.filingStatus
           FormValue.to_number].
      split; [reflexivity|].
      split; [rewrite Hi; change 0 with (inject_Z 0); rewrite <- Zlt_Qlt; lia|].
      split; [reflexivity|].
      split; [rewrite Hwl; change 0 with (inject_Z 0); rewrite <- Zle_Qle; lia|].
      split; [exact Hstatus|].
      intros tax' Htax'. injection Htax' as <-. rewrite Ht, Hi. split.
      - change 0 with (inject_Z 0). rewrite <- Zle_Qle. lia.
      - rewrite <- Zle_Qle. lia. }
    cbv zeta. rewrite Hok. reflexivity.
  - intro Hzero.
    destruct (parseCurrency_handleInput b) as [_ Hblank].
    specialize (Hblank Hzero).
    subst outcome. unfold handleCalculatorSubmit. cbv zeta.
    set (inputs := form_inputs _ _ _ _).
    assert (Hwealth : RawInputs.wealthAccount inputs = FormValue.Empty).
    { unfold inputs, form_inputs. cbn [RawInputs.wealthAccount].
      rewrite Hblank. reflexivity. }
    destruct (blank_wealth_is_refused inputs Hwealth) as [Hmsg Hkeys].
    rewrite Hkeys. cbn [negb].
    eexists. split; [reflexivity|exact Hmsg].
Qed.

Lemma submission_of_typed_fields_witness :
  exists errors,
    handleCalculatorSubmit (CurrencyInputHandler.handleInput "85000")
      (CurrencyInputHandler.handleInput "0")
      (CurrencyInputHandler.handleInput "") "single"
    = Some (Rejected errors) /\
    Errors.wealthAccount errors
    = Some "Please enter your wealth account amount (enter $0 if none)"%string.
Proof.
  destruct (submission_of_typed_fields "85000" "0" "" "single") as [_ H];
    try reflexivity.
  apply H. reflexivity.
Defined.

(* ================================================================== *)
(** ** Further properties: clamp, projection series, years saved *)

(** [clamp] with ordered bounds returns a value inside the bounds, the
    value itself when it already lies inside, and clamping twice is
    clamping once; with inverted bounds it returns the upper bound. *)
Theorem clamp_stays_in_range :
  forall value min max : Q,
    (min <= max ->
     min <= UtilityFunctions.clamp value min max /\
     UtilityFunctions.clamp value min max <= max /\
     (min <= value -> value <= max ->
      UtilityFunctions.clamp value min max == value) /\
     UtilityFunctions.clamp (UtilityFunctions.clamp value min max) min max
     == UtilityFunctions.clamp value min max) /\
    (max < min -> UtilityFunctions.clamp value min max == max).
Proof.
  intros value lo hi. unfold UtilityFunctions.clamp, Math_min, Math_max.
  split.
  - intro Hbounds.
    destruct (Qle_bool value lo) eqn:H1.
    + apply Qle_bool_iff in H1.
      destruct (Qle_bool lo hi) eqn:H2;
        [|apply (le_false lo hi) in H2; lra].
      assert (H3 : Qle_bool lo lo = true) by (apply Qle_bool_iff; lra).
      rewrite H3, H2. repeat split; intros; lra.
    + apply (le_false value lo) in H1.
      destruct (Qle_bool value hi) eqn:H2.
      * apply Qle_bool_iff in H2.
        assert (H3 : Qle_bool value lo = false) by (apply le_false; lra).
        rewrite H3, (proj2 (Qle_bool_iff value hi) H2).
        repeat split; intros; lra.
      * apply (le_false value hi) in H2.
        destruct (Qle_bool hi lo) eqn:H3.
        -- apply Qle_bool_iff in H3.
           assert (H4 : Qle_bool lo hi = true) by (apply Qle_bool_iff; lra).
           rewrite H4. repeat split; intros; lra.
        -- assert (H4 : Qle_bool hi hi = true) by (apply Qle_bool_iff; lra).
           rewrite H4. repeat split; intros; lra.
  - intro Hinv.
    destruct (Qle_bool value lo) eqn:H1.
    + assert (H2 : Qle_bool lo hi = false) by (apply le_false; lra).
      rewrite H2. lra.
    + apply (le_false value lo) in H1.
      assert (H2 : Qle_bool value hi = false) by (apply le_false; lra).
      rewrite H2. lra.
Qed.

Lemma clamp_stays_in_range_witness :
  0 <= UtilityFunctions.clamp 95000 0 80086 /\
  UtilityFunctions.clamp 95000 0 80086 <= 80086.
Proof.
  destruct (clamp_stays_in_range 95000 0 80086) as [H _].
  destruct H as (Hlo & Hhi & _); [q_le|].
  split; assumption.
Defined.

Lemma fifteen_year_loop_nonneg (s : Q) (turns : nat) (b : Q) :
  0 <= s -> 0 <= b -> 0 <= FinancialCalculator.fifteen_year_loop s turns b.
Proof.
  intros Hs Hb.
  pose proof (fifteen_year_loop_principal s turns Hs b Hb) as Hp.
  assert (0 <= inject_Z (Z.of_nat turns) * s).
  { apply Qmult_le_0_compat; [|exact Hs].
    change 0 with (inject_Z 0). rewrite <- Zle_Qle. lia. }
  lra.
Qed.

Lemma fifteen_year_loop_grows (s : Q) (turns : nat) (b : Q) :
  0 <= s -> 0 <= b ->
  FinancialCalculator.fifteen_year_loop s turns b
  <= FinancialCalculator.fifteen_year_loop s (S turns) b.
Proof.
  intros Hs Hb.
  pose proof (fifteen_year_loop_nonneg s turns b Hs Hb) as Hnn.
  rewrite fifteen_year_loop_iter in Hnn.
  rewrite !fifteen_year_loop_iter. rewrite Nat.iter_succ.
  set (x := Nat.iter turns (FinancialCalculator.projection_year s) b) in *.
  unfold FinancialCalculator.projection_year.
  change (1 + APP_CONFIG.INVESTMENT_RETURN_RATE) with 1.07. lra.
Qed.

Lemma nth_error_in_range {A : Type} (l : list A) (n : nat) (x : A) :
  nth_error l n = Some x -> (n < length l)%nat.
Proof. intro H. apply nth_error_Some. congruence. Qed.

(** The projected wealth only grows.  With a saving and a starting balance
    that are not negative, every yearly value of [calculateProjection] is
    at least the rounded starting balance plus contributions so far and at
    most the value of the next year; and a larger saving or starting
    balance never lowers the value of any year. *)
Theorem projection_series_grows :
  forall (annualSaving startingBalance : Q) (years k : nat) (value : Z),
    0 <= annualSaving ->
    0 <= startingBalance ->
    nth_error
      (FinancialCalculator.calculateProjection annualSaving years
         startingBalance) k
    = Some value ->
    (Math_round (startingBalance + inject_Z (Z.of_nat (S k)) * annualSaving)
     <= value)%Z /\
    (forall next,
        nth_error
          (FinancialCalculator.calculateProjection annualSaving years
             startingBalance) (S k)
        = Some next ->
        (value <= next)%Z) /\
    (forall annualSaving' startingBalance' value',
        annualSaving <= annualSaving' ->
        startingBalance <= startingBalance' ->
        nth_error
          (FinancialCalculator.calculateProjection annualSaving' years
             startingBalance') k
        = Some value' ->
        (value <= value')%Z).
Proof.
  intros s b years k value Hs Hb Hk.
  assert (Hlen : (k < years)%nat).
  { apply nth_error_in_range in Hk.
    unfold FinancialCalculator.calculateProjection in Hk.
    rewrite projection_loop_length in Hk. simpl in Hk. lia. }
  rewrite (calculateProjection_nth s years b k Hlen) in Hk.
  injection Hk as <-.
  split; [|split].
  - apply Math_round_monotone.
    exact (fifteen_year_loop_principal s (S k) Hs b Hb).
  - intros next Hnext.
    assert (Hlen' : (S k < years)%nat).
    { apply nth_error_in_range in Hnext.
      unfold FinancialCalculator.calculateProjection in Hnext.
      rewrite projection_loop_length in Hnext. simpl in Hnext. lia. }
    rewrite (calculateProjection_nth s years b (S k) Hlen') in Hnext.
    injection Hnext as <-.
    apply Math_round_monotone.
    exact (fifteen_year_loop_grows s (S k) b Hs Hb).
  - intros s' b' value' Hss Hbb Hk'.
    rewrite (calculateProjection_nth s' years b' k Hlen) in Hk'.
    injection Hk' as <-.
    apply Math_round_monotone.
    exact (fifteen_year_loop_monotone s s' (S k) Hss b b' Hbb).
Qed.

Lemma projection_series_grows_witness :
  (Math_round (0 + inject_Z (Z.of_nat 15) * 10000) <= 268881)%Z.
Proof.
  apply (projection_series_grows 10000 0 15 14 268881).
  - q_le.
  - q_le.
  - vm_compute. reflexivity.
Defined.

(** The years saved are never negative.  For every valid input, the cells
    [updateCrossoverStats] fills from [calculateAllCrossoverPoints] either
    show "N/A" and "Infinite", which happens exactly when the worker never
    crosses, or show the same text "d years" twice, where [d], the worker's
    crossover year less the investor's, lies between 0 and 50. *)
Theorem years_saved_are_not_negative :
  forall inputs : Inputs.t,
    Spec.valid_inputs inputs ->
    exists result,
      FinancialCalculator.calculate inputs = Normal result /\
      let crossoverData :=
        FinancialCalculator.calculateAllCrossoverPoints result in
      let worker := Crossover.years (AllCrossovers.worker crossoverData) in
      let investor :=
        Crossover.years (AllCrossovers.investor crossoverData) in
      (worker = (-1)%Z /\
       UIController.crossover_difference_cells crossoverData
       = ("N/A"%string, "Infinite"%string))
      \/ (worker <> (-1)%Z /\
          exists d,
            (0 <= d <= 50)%Z /\ (worker - investor = d)%Z /\
            UIController.crossover_difference_cells crossoverData
            = ((number_to_string d ++ " years")%string,
               (number_to_string d ++ " years")%string)).
Proof.
  intros inputs Hvalid.
  destruct (calculate_valid_record inputs Hvalid)
    as (result & Hcalc & _ & _ & Hsaving & _).
  exists result. split; [exact Hcalc|].
  intros crossoverData worker investor.
  assert (Hord : Spec.no_later investor worker).
  { subst investor worker crossoverData.
    unfold FinancialCalculator.calculateAllCrossoverPoints.
    cbn [AllCrossovers.investor AllCrossovers.worker].
    apply crossover_year_antitone. rewrite <- Zle_Qle. exact Hsaving. }
  assert (Hw : worker = (-1)%Z \/ (0 <= worker <= 50)%Z).
  { subst worker crossoverData.
    unfold FinancialCalculator.calculateAllCrossoverPoints.
    cbn [AllCrossovers.worker].
    apply calculateCrossoverPoint_years_range. }
  assert (Hi : investor = (-1)%Z \/ (0 <= investor <= 50)%Z).
  { subst investor crossoverData.
    unfold FinancialCalculator.calculateAllCrossoverPoints.
    cbn [AllCrossovers.investor].
    apply calculateCrossoverPoint_years_range. }
  unfold UIController.crossover_difference_cells.
  change (Crossover.years (AllCrossovers.worker crossoverData)) with worker.
  change (Crossover.years (AllCrossovers.investor crossoverData))
    with investor.
  clearbody worker investor. clear crossoverData. cbv zeta.
  unfold Spec.no_later, Spec.never in Hord.
  destruct (Z.eqb_spec worker (-1)) as [Hw1|Hw1].
  - left. split; [exact Hw1|reflexivity].
  - right. split; [exact Hw1|].
    destruct Hord as [H|[Hi1 Hle]]; [contradiction|].
    destruct (Z.eqb_spec investor (-1)) as [|_]; [contradiction|].
    cbn [negb andb]. exists (worker - investor)%Z.
    split; [lia|]. split; reflexivity.
Qed.

Lemma years_saved_are_not_negative_witness :
  exists result,
    FinancialCalculator.calculate
      (Inputs.mk 100000 (Inputs.Amount 0) 3000 "single")
    = Normal result.
Proof.
  destruct (years_saved_are_not_negative
              (Inputs.mk 100000 (Inputs.Amount 0) 3000 "single"))
    as (result & Hcalc & _).
  - unfold Spec.valid_inputs; cbn.
    repeat split; try reflexivity; try q_le.
    left. reflexivity.
  - exists result. exact Hcalc.
Defined.

(* ================================================================== *)
(** ** The crossing is permanent *)

Lemma crossover_assets_grow (A S : Q) :
  0 <= A -> 0 <= S ->
  forall y,
    0 <= Spec.crossover_assets A S y /\
    Spec.crossover_assets A S y <= Spec.crossover_assets A S (Datatypes.S y).
Proof.
  intros HA HS y. unfold Spec.crossover_assets.
  induction y as [|y [IHnn IHle]].
  - simpl. unfold Spec.grow_then_contribute. split; lra.
  - rewrite !Nat.iter_succ in *.
    set (x := Nat.iter y (Spec.grow_then_contribute S) A) in *.
    unfold Spec.grow_then_contribute in *. split; lra.
Qed.

Lemma passive_income_grows (A S : Q) :
  0 <= A -> 0 <= S ->
  forall y k,
    (y <= k)%nat ->
    Spec.passive_income A S y <= Spec.passive_income A S k.
Proof.
  intros HA HS y k Hle. induction Hle as [|k Hle IH].
  - apply Qle_refl.
  - apply Qle_trans with (1 := IH). unfold Spec.passive_income.
    destruct (crossover_assets_grow A S HA HS k) as [_ Hstep]. lra.
Qed.

(** The crossing is permanent.  With assets and savings that are not
    negative, when [calculateCrossoverPoint] reports the crossover year
    [y], every yearly record before year [y] has a passive income below the
    earned income and every record from year [y] to year 50 has a passive
    income that reaches it: the series crosses once, at the reported
    year. *)
Theorem crossing_is_permanent :
  forall (earnedIncome currentAssets annualSavings : Q) (y k : nat)
         (record : YearRecord.t),
    0 <= currentAssets ->
    0 <= annualSavings ->
    let result :=
      FinancialCalculator.calculateCrossoverPoint earnedIncome currentAssets
        annualSavings in
    Crossover.years result = Z.of_nat y ->
    nth_error (Crossover.projectionData result) k = Some record ->
    YearRecord.year record = Z.of_nat k /\
    ((k < y)%nat ->
     YearRecord.passiveIncome record < YearRecord.earnedIncome record) /\
    ((y <= k)%nat ->
     YearRecord.earnedIncome record <= YearRecord.passiveIncome record).
Proof.
  intros E A S y k record HA HS result Hyear Hrec.
  assert (Hk : (k <= 50)%nat).
  { apply nth_error_in_range in Hrec. subst result.
    rewrite calculateCrossoverPoint_data_length in Hrec. lia. }
  subst result. rewrite (calculateCrossoverPoint_data E A S k Hk) in Hrec.
  injection Hrec as <-.
  cbn [YearRecord.year YearRecord.passiveIncome YearRecord.earnedIncome].
  split; [reflexivity|].
  destruct (calculateCrossoverPoint_cases E A S)
    as [[H0 Hy]|[(H0 & y1 & Hy1 & Hcross & Hmin & Hy)|(_ & _ & Hy)]];
    rewrite Hy in Hyear.
  - assert (y = 0%nat) by lia. subst y. split; [intro; lia|].
    intros _. apply Qle_trans with (2 := passive_income_grows A S HA HS 0 k ltac:(lia)).
    unfold Spec.passive_income, Spec.crossover_assets. simpl Nat.iter. exact H0.
  - assert (y1 = y) by lia. subst y1. split.
    + intro Hlt. apply Qnot_le_lt.
      destruct k as [|k].
      * unfold Spec.passive_income, Spec.crossover_assets. simpl Nat.iter.
        exact H0.
      * apply Hmin. lia.
    + intro Hle. apply Qle_trans with (1 := Hcross).
      now apply passive_income_grows.
  - lia.
Qed.

(** Earning 1000 with 10000 invested and 10000 saved a year: the crossover
    year is 1; the record of year 0 is below the earned income and the
    record of year 1 has reached it. *)
Lemma crossing_is_permanent_witness :
  YearRecord.passiveIncome (YearRecord.mk 0 10000 (10000 * 0.05) 1000)
  < YearRecord.earnedIncome (YearRecord.mk 0 10000 (10000 * 0.05) 1000)
  /\ YearRecord.earnedIncome
       (YearRecord.mk 1 (10000 * (1 + 0.07) + 10000)
          ((10000 * (1 + 0.07) + 10000) * 0.05) 1000)
     <= YearRecord.passiveIncome
          (YearRecord.mk 1 (10000 * (1 + 0.07) + 10000)
             ((10000 * (1 + 0.07) + 10000) * 0.05) 1000).
Proof.
  split.
  - destruct (crossing_is_permanent 1000 10000 10000 1 0
                (YearRecord.mk 0 10000 (10000 * 0.05) 1000))
      as (_ & Hbefore & _).
    + q_le.
    + q_le.
    + vm_compute. reflexivity.
    + vm_compute. reflexivity.
    + apply Hbefore. lia.
  - destruct (crossing_is_permanent 1000 10000 10000 1 1
                (YearRecord.mk 1 (10000 * (1 + 0.07) + 10000)
                   ((10000 * (1 + 0.07) + 10000) * 0.05) 1000))
      as (_ & _ & Hafter).
    + q_le.
    + q_le.
    + vm_compute. reflexivity.
    + vm_compute. reflexivity.
    + apply Hafter. lia.
Defined.

(* ================================================================== *)
(** ** Binary64 rounding *)

Section Rounding.
Import Binary64.
Local Open Scope Z_scope.

Lemma nearest_even_cases (N D : Z) :
  nearest_even N D = N / D \/ nearest_even N D = N / D + 1.
Proof.
  unfold nearest_even.
  destruct (2 * (N mod D) ?= D); [destruct (Z.even (N / D))| |]; auto.
Qed.

Lemma nearest_even_error (N D : Z) :
  0 < D ->
  2 * N - D <= 2 * (nearest_even N D * D) <= 2 * N + D.
Proof.
  intro HD. unfold nearest_even.
  pose proof (Z.div_mod N D ltac:(lia)) as Heq.
  pose proof (Z.mod_pos_bound N D HD) as Hr.
  destruct (2 * (N mod D) ?= D) eqn:Hc.
  - apply Z.compare_eq in Hc. destruct (Z.even (N / D)); nia.
  - rewrite Z.compare_lt_iff in Hc. nia.
  - rewrite Z.compare_gt_iff in Hc. nia.
Qed.

Lemma nearest_even_monotone (N1 N2 D : Z) :
  0 < D -> N1 <= N2 -> nearest_even N1 D <= nearest_even N2 D.
Proof.
  intros HD Hle.
  pose proof (Z.div_le_mono N1 N2 D HD Hle) as Hf.
  destruct (Z.eq_dec (N1 / D) (N2 / D)) as [Heq|Hne].
  - assert (Hr : N1 mod D <= N2 mod D).
    { rewrite !Z.mod_eq by lia. rewrite Heq. lia. }
    unfold nearest_even. rewrite Heq.
    destruct (2 * (N1 mod D) ?= D) eqn:H1;
      destruct (2 * (N2 mod D) ?= D) eqn:H2;
      try apply Z.compare_eq in H1; try apply Z.compare_eq in H2;
      try rewrite Z.compare_lt_iff in H1; try rewrite Z.compare_lt_iff in H2;
      try rewrite Z.compare_gt_iff in H1; try rewrite Z.compare_gt_iff in H2;
      destruct (Z.even (N2 / D)); lia.
  - destruct (nearest_even_cases N1 D) as [-> | ->];
      destruct (nearest_even_cases N2 D) as [-> | ->]; lia.
Qed.

Lemma nearest_even_exact (m D : Z) :
  0 < D -> nearest_even (m * D) D = m.
Proof.
  intro HD. unfold nearest_even.
  rewrite Z.mod_mul by lia. rewrite Z.div_mul by lia.
  assert (H : (2 * 0 ?= D) = Lt) by (apply Z.compare_lt_iff; lia).
  now rewrite H.
Qed.

Lemma nearest_even_scale (c N D : Z) :
  0 < c -> 0 < D -> nearest_even (c * N) (c * D) = nearest_even N D.
Proof.
  intros Hc HD. unfold nearest_even.
  rewrite Z.div_mul_cancel_l by lia.
  rewrite Z.mul_mod_distr_l by lia.
  replace (2 * (c * (N mod D))) with (c * (2 * (N mod D))) by lia.
  rewrite <- (Zmult_compare_compat_l (2 * (N mod D)) D c) by lia.
  reflexivity.
Qed.

Lemma nearest_even_nonneg (N D : Z) :
  0 < D -> 0 <= N -> 0 <= nearest_even N D.
Proof.
  intros HD HN. pose proof (Z.div_pos N D HN HD).
  destruct (nearest_even_cases N D) as [-> | ->]; lia.
Qed.

Lemma dropped_bits_nonneg N D : 0 <= dropped_bits N D.
Proof. unfold dropped_bits. lia. Qed.

Lemma dropped_bits_upper (N D : Z) :
  0 < D -> 0 <= N -> N < D * 2 ^ dropped_bits N D * 2 ^ 53.
Proof.
  intros HD HN. pose proof (dropped_bits_nonneg N D) as Hk.
  assert (Hq : N / D < 2 ^ (53 + dropped_bits N D)).
  { destruct (Z.eq_dec (N / D) 0) as [->|Hne].
    - apply Z.pow_pos_nonneg; lia.
    - pose proof (Z.div_pos N D HN HD).
      pose proof (Z.log2_spec (N / D) ltac:(lia)) as [_ Hlt].
      eapply Z.lt_le_trans; [exact Hlt|].
      apply Z.pow_le_mono_r; [lia|]. unfold dropped_bits. lia. }
  rewrite Z.pow_add_r in Hq by lia.
  pose proof (Z.mul_succ_div_gt N D HD).
  assert (0 < 2 ^ dropped_bits N D) by (apply Z.pow_pos_nonneg; lia).
  nia.
Qed.

Lemma dropped_bits_lower (N D : Z) :
  0 < D -> 0 <= N -> 0 < dropped_bits N D ->
  D * 2 ^ dropped_bits N D * 2 ^ 52 <= N.
Proof.
  intros HD HN Hk. unfold dropped_bits in *.
  assert (Hl : Z.max 0 (Z.log2 (N / D) - 52) = Z.log2 (N / D) - 52) by lia.
  rewrite Hl in *.
  assert (Hq : 0 < N / D).
  { destruct (Z.eq_dec (N / D) 0) as [Hz|Hne].
    - rewrite Hz in Hk. simpl in Hk. lia.
    - pose proof (Z.div_pos N D HN HD). lia. }
  pose proof (Z.log2_spec (N / D) Hq) as [Hle _].
  replace (Z.log2 (N / D)) with (Z.log2 (N / D) - 52 + 52) in Hle at 1 by lia.
  rewrite Z.pow_add_r in Hle by lia.
  pose proof (Z.mul_div_le N D HD). nia.
Qed.

Lemma round_magnitude_eq (N D : Z) :
  round_magnitude N D
  = nearest_even N (D * 2 ^ dropped_bits N D) * 2 ^ dropped_bits N D.
Proof. reflexivity. Qed.

Lemma significand_upper (N D : Z) :
  0 < D -> 0 <= N ->
  nearest_even N (D * 2 ^ dropped_bits N D) <= 2 ^ 53.
Proof.
  intros HD HN. pose proof (dropped_bits_upper N D HD HN) as Hup.
  pose proof (dropped_bits_nonneg N D) as Hk.
  assert (HD' : 0 < D * 2 ^ dropped_bits N D).
  { apply Z.mul_pos_pos; [lia|]. apply Z.pow_pos_nonneg; lia. }
  assert (N / (D * 2 ^ dropped_bits N D) < 2 ^ 53)
    by (apply Z.div_lt_upper_bound; lia).
  destruct (nearest_even_cases N (D * 2 ^ dropped_bits N D)) as [-> | ->]; lia.
Qed.

Lemma significand_lower (N D : Z) :
  0 < D -> 0 <= N -> 0 < dropped_bits N D ->
  2 ^ 52 <= nearest_even N (D * 2 ^ dropped_bits N D).
Proof.
  intros HD HN Hk. pose proof (dropped_bits_lower N D HD HN Hk) as Hlo.
  assert (HD' : 0 < D * 2 ^ dropped_bits N D).
  { apply Z.mul_pos_pos; [lia|]. apply Z.pow_pos_nonneg; lia. }
  assert (2 ^ 52 <= N / (D * 2 ^ dropped_bits N D))
    by (apply Z.div_le_lower_bound; lia).
  destruct (nearest_even_cases N (D * 2 ^ dropped_bits N D)) as [-> | ->]; lia.
Qed.

Lemma round_magnitude_nonneg (N D : Z) :
  0 < D -> 0 <= N -> 0 <= round_magnitude N D.
Proof.
  intros HD HN. rewrite round_magnitude_eq.
  pose proof (dropped_bits_nonneg N D) as Hk.
  apply Z.mul_nonneg_nonneg.
  - apply nearest_even_nonneg; [|exact HN].
    apply Z.mul_pos_pos; [lia|]. apply Z.pow_pos_nonneg; lia.
  - apply Z.pow_nonneg. lia.
Qed.

Lemma round_magnitude_scale (c N D : Z) :
  0 < c -> 0 < D -> round_magnitude (c * N) (c * D) = round_magnitude N D.
Proof.
  intros Hc HD. rewrite !round_magnitude_eq.
  assert (Hk : dropped_bits (c * N) (c * D) = dropped_bits N D).
  { unfold dropped_bits. now rewrite Z.div_mul_cancel_l by lia. }
  rewrite Hk. rewrite <- Z.mul_assoc.
  rewrite nearest_even_scale; [reflexivity|lia|].
  apply Z.mul_pos_pos; [lia|]. apply Z.pow_pos_nonneg; [lia|].
  apply dropped_bits_nonneg.
Qed.

Lemma round_magnitude_monotone (N1 N2 D : Z) :
  0 < D -> 0 <= N1 -> N1 <= N2 ->
  round_magnitude N1 D <= round_magnitude N2 D.
Proof.
  intros HD HN1 Hle. rewrite !round_magnitude_eq.
  pose proof (dropped_bits_nonneg N1 D) as Hk1.
  pose proof (dropped_bits_nonneg N2 D) as Hk2.
  assert (Hk : dropped_bits N1 D <= dropped_bits N2 D).
  { unfold dropped_bits.
    pose proof (Z.log2_le_mono _ _ (Z.div_le_mono N1 N2 D HD Hle)). lia. }
  destruct (Z.eq_dec (dropped_bits N1 D) (dropped_bits N2 D)) as [Heq|Hne].
  - rewrite Heq. apply Z.mul_le_mono_nonneg_r; [apply Z.pow_nonneg; lia|].
    apply nearest_even_monotone; [|exact Hle].
    apply Z.mul_pos_pos; [lia|]. apply Z.pow_pos_nonneg; lia.
  - pose proof (significand_upper N1 D HD HN1) as Hup.
    pose proof (significand_lower N2 D HD ltac:(lia) ltac:(lia)) as Hlo.
    assert (Hp : 2 * 2 ^ dropped_bits N1 D <= 2 ^ dropped_bits N2 D).
    { rewrite <- Z.pow_succ_r by lia. apply Z.pow_le_mono_r; lia. }
    assert (0 < 2 ^ dropped_bits N1 D) by (apply Z.pow_pos_nonneg; lia).
    change (2 ^ 53) with (2 * 2 ^ 52) in Hup.
    assert (0 < 2 ^ 52) by reflexivity.
    set (m1 := nearest_even N1 _) in *. set (m2 := nearest_even N2 _) in *.
    set (p1 := 2 ^ dropped_bits N1 D) in *.
    set (p2 := 2 ^ dropped_bits N2 D) in *.
    set (h := 2 ^ 52) in *.
    apply Z.le_trans with (h * (2 * p1)).
    + replace (h * (2 * p1)) with ((2 * h) * p1) by ring.
      apply Z.mul_le_mono_nonneg_r; lia.
    + apply Z.le_trans with (h * p2).
      * apply Z.mul_le_mono_nonneg_l; lia.
      * apply Z.mul_le_mono_nonneg_r; lia.
Qed.

(** A significand of at most 53 bits, full when bits were dropped, is left
    as it is. *)
Lemma round_magnitude_fixed (m k : Z) :
  0 <= k -> 0 <= m <= 2 ^ 53 -> (0 < k -> 2 ^ 52 <= m) ->
  round_magnitude (m * 2 ^ k) 1 = m * 2 ^ k.
Proof.
  intros Hk Hm Hfull. rewrite round_magnitude_eq.
  assert (Hpk : 0 < 2 ^ k) by (apply Z.pow_pos_nonneg; lia).
  destruct (Z.eq_dec m (2 ^ 53)) as [->|Hlt].
  - assert (Hd : dropped_bits (2 ^ 53 * 2 ^ k) 1 = k + 1).
    { unfold dropped_bits. rewrite Z.div_1_r.
      rewrite <- Z.pow_add_r, Z.log2_pow2 by lia. lia. }
    rewrite Hd. rewrite Z.mul_1_l.
    replace (2 ^ 53 * 2 ^ k) with (2 ^ 52 * 2 ^ (k + 1)).
    + rewrite nearest_even_exact; [reflexivity|].
      apply Z.pow_pos_nonneg; lia.
    + rewrite (Z.pow_add_r 2 k 1) by lia. change (2 ^ 53) with (2 ^ 52 * 2 ^ 1).
      ring.
  - assert (Hd : dropped_bits (m * 2 ^ k) 1 = k).
    { unfold dropped_bits. rewrite Z.div_1_r.
      destruct (Z.eq_dec k 0) as [->|Hkpos].
      - rewrite Z.pow_0_r, Z.mul_1_r.
        destruct (Z.eq_dec m 0) as [->|Hm0]; [reflexivity|].
        assert (Z.log2 m < 53) by (apply Z.log2_lt_pow2; lia). lia.
      - assert (Hm52 : 2 ^ 52 <= m) by (apply Hfull; lia).
        assert (0 < m) by (change (2 ^ 52) with 4503599627370496 in Hm52; lia).
        rewrite Z.log2_mul_pow2 by lia.
        assert (Z.log2 m = 52).
        { apply Z.log2_unique; [lia|]. change (Z.succ 52) with 53. lia. }
        lia. }
    rewrite Hd. rewrite Z.mul_1_l.
    rewrite nearest_even_exact by exact Hpk. reflexivity.
Qed.

Lemma round_magnitude_idempotent (N D : Z) :
  0 < D -> 0 <= N ->
  round_magnitude (round_magnitude N D) 1 = round_magnitude N D.
Proof.
  intros HD HN. rewrite (round_magnitude_eq N D).
  apply round_magnitude_fixed.
  - apply dropped_bits_nonneg.
  - split; [|now apply significand_upper].
    apply nearest_even_nonneg; [|exact HN].
    apply Z.mul_pos_pos; [lia|]. apply Z.pow_pos_nonneg; [lia|].
    apply dropped_bits_nonneg.
  - now apply significand_lower.
Qed.

(** The rounding error: half a unit, or a relative 2^-53. *)
Lemma round_magnitude_error (N D : Z) :
  0 < D -> 0 <= N ->
  (2 ^ 53 - 1) * N - 2 ^ 52 * D
  <= 2 ^ 53 * (round_magnitude N D * D)
  <= (2 ^ 53 + 1) * N + 2 ^ 52 * D.
Proof.
  intros HD HN. rewrite round_magnitude_eq.
  pose proof (dropped_bits_nonneg N D) as Hk.
  assert (Hpk : 0 < 2 ^ dropped_bits N D) by (apply Z.pow_pos_nonneg; lia).
  pose proof (nearest_even_error N (D * 2 ^ dropped_bits N D)
                ltac:(apply Z.mul_pos_pos; lia)) as Herr.
  set (m := nearest_even N _) in *.
  destruct (Z.eq_dec (dropped_bits N D) 0) as [Hz|Hnz].
  - rewrite Hz in *. rewrite Z.pow_0_r, Z.mul_1_r in *.
    change (2 ^ 53) with (2 * 2 ^ 52). set (h := 2 ^ 52).
    assert (0 < h) by reflexivity. nia.
  - pose proof (dropped_bits_lower N D HD HN ltac:(lia)) as Hlo.
    set (p := 2 ^ dropped_bits N D) in *.
    change (2 ^ 53) with (2 * 2 ^ 52). set (h := 2 ^ 52) in *.
    assert (0 < h) by reflexivity.
    replace (m * p * D) with (m * (D * p)) by ring. nia.
Qed.

Lemma round_magnitude_small (N D : Z) :
  0 < D -> 0 <= N -> N < D * 2 ^ 53 ->
  round_magnitude N D = nearest_even N D.
Proof.
  intros HD HN Hsmall. rewrite round_magnitude_eq.
  assert (Hd : dropped_bits N D = 0).
  { unfold dropped_bits.
    assert (Hq : N / D < 2 ^ 53) by (apply Z.div_lt_upper_bound; lia).
    destruct (Z.eq_dec (N / D) 0) as [->|Hnz]; [reflexivity|].
    pose proof (Z.div_pos N D HN HD).
    assert (Z.log2 (N / D) < 53) by (apply Z.log2_lt_pow2; lia). lia. }
  rewrite Hd, Z.pow_0_r, !Z.mul_1_r. reflexivity.
Qed.

Lemma nearest_even_dyadic_eq (N j : Z) :
  0 <= j -> nearest_even_dyadic N j = nearest_even N (2 ^ j).
Proof.
  intro Hj. unfold nearest_even_dyadic, nearest_even.
  now rewrite Z.shiftr_div_pow2, Z.land_ones by exact Hj.
Qed.

Lemma round_magnitude_dyadic_eq (N j : Z) :
  0 <= j -> round_magnitude_dyadic N j = round_magnitude N (2 ^ j).
Proof.
  intro Hj. unfold round_magnitude_dyadic, round_magnitude, dropped_bits.
  rewrite Z.shiftr_div_pow2 by exact Hj.
  rewrite nearest_even_dyadic_eq by lia.
  rewrite Z.pow_add_r by lia. reflexivity.
Qed.

End Rounding.
(* ================================================================== *)
(** ** Binary64 operations *)

Section Operations.
Import Binary64.
Local Open Scope Z_scope.

Lemma overflow_positive : 0 < overflow.
Proof. reflexivity. Qed.

Lemma signed_finite (negative : bool) (n : Z) :
  n < overflow -> signed negative n = Finite (if negative then - n else n).
Proof.
  intro H. unfold signed.
  destruct (overflow <=? n) eqn:Ho; [apply Z.leb_le in Ho; lia|reflexivity].
Qed.

Lemma signed_well_formed (negative : bool) (N D : Z) :
  0 < D -> 0 <= N -> well_formed (signed negative (round_magnitude N D)).
Proof.
  intros HD HN. unfold signed.
  destruct (overflow <=? round_magnitude N D) eqn:Ho; [exact I|].
  apply Z.leb_gt in Ho. pose proof (round_magnitude_nonneg N D HD HN) as Hn.
  assert (Habs : Z.abs (if negative then - round_magnitude N D
                        else round_magnitude N D) = round_magnitude N D)
    by (destruct negative; lia).
  split; rewrite Habs; [now apply round_magnitude_idempotent|exact Ho].
Qed.

Lemma round_dyadic_eq (N j : Z) :
  0 <= j ->
  round_dyadic N j = signed (N <? 0) (round_magnitude (Z.abs N) (2 ^ j)).
Proof.
  intro Hj. unfold round_dyadic. now rewrite round_magnitude_dyadic_eq.
Qed.

Lemma round_dyadic_well_formed (N j : Z) :
  0 <= j -> well_formed (round_dyadic N j).
Proof.
  intro Hj. rewrite round_dyadic_eq by exact Hj.
  apply signed_well_formed; [apply Z.pow_pos_nonneg|]; lia.
Qed.

Lemma add_well_formed (x y : number) : well_formed (add x y).
Proof.
  destruct x as [|s1|a], y as [|s2|b]; simpl; try exact I.
  - destruct (Bool.eqb s1 s2); exact I.
  - apply round_dyadic_well_formed. lia.
Qed.

Lemma sub_well_formed (x y : number) : well_formed (sub x y).
Proof. apply add_well_formed. Qed.

Lemma mul_well_formed (x y : number) : well_formed (mul x y).
Proof.
  destruct x as [|s1|a], y as [|s2|b]; simpl; try exact I.
  - destruct (b =? 0); exact I.
  - destruct (a =? 0); exact I.
  - apply round_dyadic_well_formed. unfold unit_bits. lia.
Qed.

Lemma round_magnitude_zero (D : Z) : 0 < D -> round_magnitude 0 D = 0.
Proof.
  intro HD. rewrite round_magnitude_small; [|lia|lia|].
  - replace 0 with (0 * D) at 1 by lia. now apply nearest_even_exact.
  - apply Z.mul_pos_pos; [lia|reflexivity].
Qed.

Lemma round_dyadic_zero (j : Z) : 0 <= j -> round_dyadic 0 j = zero.
Proof.
  intro Hj. rewrite round_dyadic_eq by exact Hj.
  change (Z.abs 0) with 0. rewrite round_magnitude_zero.
  - reflexivity.
  - apply Z.pow_pos_nonneg; lia.
Qed.

Lemma representable_round (n : Z) :
  representable n -> round_dyadic n 0 = Finite n.
Proof.
  intros [Hfix Hlt]. rewrite round_dyadic_eq by lia.
  change (2 ^ 0) with 1. rewrite Hfix, signed_finite by exact Hlt.
  f_equal. destruct (n <? 0) eqn:Hn; [apply Z.ltb_lt in Hn|apply Z.ltb_ge in Hn];
    lia.
Qed.

Lemma add_zero_r (x : number) : well_formed x -> add x zero = x.
Proof.
  destruct x as [|s|a]; intro Hx; try reflexivity.
  simpl. rewrite Z.add_0_r. now apply representable_round.
Qed.

Lemma mul_zero_l (r : Z) : mul zero (Finite r) = zero.
Proof.
  simpl. apply round_dyadic_zero. unfold unit_bits. lia.
Qed.

(** Signs. *)
Lemma signed_nonneg (n : Z) : 0 <= n -> le zero (signed false n) = true.
Proof.
  intro Hn. unfold signed. destruct (overflow <=? n); [reflexivity|].
  simpl. now apply Z.leb_le.
Qed.

Lemma signed_nonpos (n : Z) : 0 <= n -> le (signed true n) zero = true.
Proof.
  intro Hn. unfold signed. destruct (overflow <=? n); [reflexivity|].
  simpl. apply Z.leb_le. lia.
Qed.

Lemma round_dyadic_nonneg (N j : Z) :
  0 <= j -> 0 <= N -> le zero (round_dyadic N j) = true.
Proof.
  intros Hj HN. rewrite round_dyadic_eq by exact Hj.
  assert (Hs : (N <? 0) = false) by (apply Z.ltb_ge; lia). rewrite Hs.
  apply signed_nonneg, round_magnitude_nonneg; [apply Z.pow_pos_nonneg|]; lia.
Qed.

Lemma round_dyadic_nonpos (N j : Z) :
  0 <= j -> N <= 0 -> le (round_dyadic N j) zero = true.
Proof.
  intros Hj HN. destruct (Z.eq_dec N 0) as [->|Hne].
  - now rewrite round_dyadic_zero.
  - rewrite round_dyadic_eq by exact Hj.
    assert (Hs : (N <? 0) = true) by (apply Z.ltb_lt; lia). rewrite Hs.
    apply signed_nonpos, round_magnitude_nonneg; [apply Z.pow_pos_nonneg|]; lia.
Qed.

(** A product with a non-negative constant [m * 2^-j]. *)
Lemma mul_by_constant (a m j : Z) :
  0 <= a -> 0 <= m -> 0 <= j <= unit_bits ->
  mul (Finite a) (Finite (m * 2 ^ (unit_bits - j)))
  = signed false (round_magnitude (a * m) (2 ^ j)).
Proof.
  intros Ha Hm Hj. cbv beta iota delta [mul].
  rewrite round_dyadic_eq by (unfold unit_bits; lia).
  assert (Hp : 0 < 2 ^ (unit_bits - j)) by (apply Z.pow_pos_nonneg; lia).
  assert (HN : 0 <= a * (m * 2 ^ (unit_bits - j))) by nia.
  assert (Hs : (a * (m * 2 ^ (unit_bits - j)) <? 0) = false)
    by (apply Z.ltb_ge; exact HN).
  rewrite Hs, Z.abs_eq by exact HN.
  replace (a * (m * 2 ^ (unit_bits - j)))
    with (2 ^ (unit_bits - j) * (a * m)) by ring.
  replace (2 ^ unit_bits) with (2 ^ (unit_bits - j) * 2 ^ j).
  - rewrite round_magnitude_scale; [reflexivity|exact Hp|].
    apply Z.pow_pos_nonneg; lia.
  - rewrite <- Z.pow_add_r by lia. f_equal. lia.
Qed.

End Operations.
(** The operations on values whose doubles are well known. *)
Section KnownDoubles.
Import Binary64.

Example double_sum_of_tenths :
  add (literal 0.1) (literal 0.2) = literal 0.30000000000000004.
Proof. vm_compute. reflexivity. Qed.

Example double_seven_percent_of_100 :
  mul (literal 0.07) (literal 100) = literal 7.000000000000001.
Proof. vm_compute. reflexivity. Qed.

Example double_ties_to_even :
  add (integer 9007199254740992) (integer 1) = integer 9007199254740992
  /\ add (integer 9007199254740994) (integer 1) = integer 9007199254740996.
Proof. split; vm_compute; reflexivity. Qed.

Example double_exact_value :
  literal 2033.5 = Finite (4067 * 2 ^ 1073)%Z
  /\ value (4067 * 2 ^ 1073) == 2033.5.
Proof. split; vm_compute; reflexivity. Qed.

Example double_smallest : literal 5e-324 = Finite 1.
Proof. vm_compute. reflexivity. Qed.

Example double_largest :
  literal 1.7976931348623157e308 = Finite (overflow - 2 ^ 2045)%Z.
Proof. vm_compute. reflexivity. Qed.

Example double_out_of_range :
  mul (literal 1e308) (literal 10) = Infinity false
  /\ sub (Infinity false) (Infinity false) = NaN.
Proof. split; vm_compute; reflexivity. Qed.

End KnownDoubles.

(* ================================================================== *)
(** ** The endurance engine on doubles *)

Section EnduranceOnDoubles.
Import Binary64 Double.
Local Open Scope Z_scope.

Lemma rate_units :
  INVESTMENT_RETURN_RATE = Finite (5044031582654956 * 2 ^ (unit_bits - 56)).
Proof. vm_compute. reflexivity. Qed.

Lemma growth_units :
  FinancialCalculator.growth
  = Finite (4818851601286431 * 2 ^ (unit_bits - 52)).
Proof. vm_compute. reflexivity. Qed.

Lemma growth_sum :
  FinancialCalculator.growth = add (integer 1) INVESTMENT_RETURN_RATE.
Proof. vm_compute. reflexivity. Qed.

Lemma growth_literal : FinancialCalculator.growth = literal 1.07.
Proof. vm_compute. reflexivity. Qed.

Lemma rate_literal_eq : INVESTMENT_RETURN_RATE = literal 0.07.
Proof. vm_compute. reflexivity. Qed.

Lemma round_magnitude_of_representable (n D : Z) :
  0 < D -> 0 <= n -> representable n -> round_magnitude (n * D) D = n.
Proof.
  intros HD Hn [Hfix _]. rewrite Z.abs_eq in Hfix by exact Hn.
  replace (n * D) with (D * n) by ring.
  replace D with (D * 1) at 2 by ring.
  rewrite round_magnitude_scale by lia. exact Hfix.
Qed.

(** A double above the rounding of [N / D] is above [N / D]. *)
Lemma above_rounding (s N D : Z) :
  0 < D -> 0 <= N -> 0 <= s -> representable s ->
  round_magnitude N D < s -> N < s * D.
Proof.
  intros HD HN Hs Hrep Hlt.
  destruct (Z_lt_le_dec N (s * D)) as [H|H]; [exact H|].
  pose proof (round_magnitude_monotone (s * D) N D HD ltac:(nia) H) as Hm.
  rewrite round_magnitude_of_representable in Hm by assumption. lia.
Qed.

Lemma below_rounding (s N D : Z) :
  0 < D -> 0 <= N -> 0 <= s -> representable s ->
  N <= s * D -> round_magnitude N D <= s.
Proof.
  intros HD HN Hs Hrep Hle.
  pose proof (round_magnitude_monotone N (s * D) D HD HN Hle) as Hm.
  now rewrite round_magnitude_of_representable in Hm by assumption.
Qed.

(** [assetBase * 0.07]. *)
Lemma rate_product (a : Z) :
  0 <= a -> representable a ->
  mul (Finite a) INVESTMENT_RETURN_RATE
  = Finite (round_magnitude (a * 5044031582654956) (2 ^ 56))
  /\ 0 <= round_magnitude (a * 5044031582654956) (2 ^ 56) <= a.
Proof.
  intros Ha Hrep.
  assert (Hbound : 0 <= round_magnitude (a * 5044031582654956) (2 ^ 56) <= a).
  { split.
    - apply round_magnitude_nonneg; [reflexivity|lia].
    - apply below_rounding; try assumption; try reflexivity; lia. }
  split; [|exact Hbound].
  rewrite rate_units, mul_by_constant by (unfold unit_bits; lia).
  rewrite signed_finite; [reflexivity|].
  destruct Hrep as [_ Hlt]. rewrite Z.abs_eq in Hlt by exact Ha. lia.
Qed.

Lemma sub_finite (a s : Z) :
  sub (Finite a) (Finite s) = round_dyadic (a - s) 0.
Proof. reflexivity. Qed.

Lemma sub_depleted (a s : Z) :
  a <= s -> le (sub (Finite a) (Finite s)) zero = true.
Proof.
  intro H. rewrite sub_finite. apply round_dyadic_nonpos; lia.
Qed.

(** What is left after a year's spending, when something is left. *)
Lemma sub_remainder (a s : Z) :
  0 <= s -> s < a -> representable a ->
  sub (Finite a) (Finite s) = Finite (round_magnitude (a - s) 1)
  /\ 1 <= round_magnitude (a - s) 1 <= a.
Proof.
  intros Hs Hlt Hrep.
  assert (Hbound : 1 <= round_magnitude (a - s) 1 <= a).
  { split.
    - change 1 with (round_magnitude 1 1) at 1.
      apply round_magnitude_monotone; lia.
    - apply below_rounding; try assumption; lia. }
  split; [|exact Hbound].
  rewrite sub_finite, round_dyadic_eq by lia. change (2 ^ 0) with 1.
  assert (Hsg : (a - s <? 0) = false) by (apply Z.ltb_ge; lia).
  rewrite Hsg, Z.abs_eq by lia.
  rewrite signed_finite; [reflexivity|].
  destruct Hrep as [_ Ho]. rewrite Z.abs_eq in Ho by lia. lia.
Qed.

(** A call that recurses passes on at least what spending left of its
    asset base ... *)
Lemma remaining_assets_cover (a s : Z) :
  0 <= a -> representable a -> 0 <= s -> s < a ->
  a - s
  <= round_magnitude
       (round_magnitude (a - s) 1 * 4818851601286431) (2 ^ 52).
Proof.
  intros Ha Hrepa Hs Hlt.
  pose proof (sub_remainder a s Hs Hlt Hrepa) as [_ Hr].
  set (r := round_magnitude (a - s) 1) in *.
  assert (Hover : a < overflow).
  { destruct Hrepa as [_ Ho]. rewrite Z.abs_eq in Ho by exact Ha. exact Ho. }
  assert (Hrepr : representable r).
  { split; rewrite Z.abs_eq by lia; [|lia].
    apply round_magnitude_idempotent; lia. }
  assert (Hgrow : r <= round_magnitude (r * 4818851601286431) (2 ^ 52)).
  { rewrite <- (round_magnitude_of_representable r (2 ^ 52)) at 1;
      [|reflexivity|lia|exact Hrepr].
    apply round_magnitude_monotone; [reflexivity|lia|lia]. }
  destruct (Z_lt_le_dec (a - s) (2 ^ 53)) as [Hsmall|Hlarge].
  - assert (Hrexact : r = a - s).
    { unfold r. rewrite round_magnitude_small by lia.
      replace (a - s) with ((a - s) * 1) at 1 by ring.
      now apply nearest_even_exact. }
    lia.
  - pose proof (round_magnitude_error (a - s) 1 ltac:(lia) ltac:(lia)) as He1.
    fold r in He1.
    pose proof (round_magnitude_error (r * 4818851601286431) (2 ^ 52)
                  ltac:(reflexivity) ltac:(lia)) as He2.
    lia.
Qed.

(** ... and less than the base it received by more than 6.99% of the
    spending. *)
Lemma remaining_assets_decrease (a s : Z) :
  0 <= a -> representable a -> representable s ->
  round_magnitude (a * 5044031582654956) (2 ^ 56) < s -> s < a ->
  10000 * round_magnitude
            (round_magnitude (a - s) 1 * 4818851601286431) (2 ^ 52)
  <= 10000 * a - 699 * s.
Proof.
  intros Ha Hrepa Hreps Hrate Hlt.
  pose proof (round_magnitude_nonneg (a * 5044031582654956) (2 ^ 56)
                ltac:(reflexivity) ltac:(lia)) as Hp.
  assert (Hs : 0 <= s) by lia.
  pose proof (above_rounding s (a * 5044031582654956) (2 ^ 56)
                ltac:(reflexivity) ltac:(lia) Hs Hreps Hrate) as Habove.
  pose proof (sub_remainder a s Hs Hlt Hrepa) as [_ Hr].
  set (r := round_magnitude (a - s) 1) in *.
  destruct (Z_lt_le_dec a (2 ^ 20)) as [Hsmall|Hlarge].
  - assert (Hrexact : r = a - s).
    { unfold r. rewrite round_magnitude_small by lia.
      replace (a - s) with ((a - s) * 1) at 1 by ring.
      now apply nearest_even_exact. }
    assert (Hrate_small :
              round_magnitude (a * 5044031582654956) (2 ^ 56)
              = nearest_even (a * 5044031582654956) (2 ^ 56)).
    { apply round_magnitude_small; [reflexivity|lia|lia]. }
    rewrite Hrate_small in Hrate.
    pose proof (nearest_even_error (a * 5044031582654956) (2 ^ 56)
                  ltac:(reflexivity)) as He1.
    rewrite round_magnitude_small; [|reflexivity|lia|lia].
    pose proof (nearest_even_error (r * 4818851601286431) (2 ^ 52)
                  ltac:(reflexivity)) as He2.
    lia.
  - pose proof (round_magnitude_error (a - s) 1 ltac:(lia) ltac:(lia)) as He1.
    fold r in He1.
    pose proof (round_magnitude_error (r * 4818851601286431) (2 ^ 52)
                  ltac:(reflexivity) ltac:(lia)) as He2.
    lia.
Qed.

Lemma double_endurance_calls_unfold (calls : nat) (s a : number) (years : Z) :
  FinancialCalculator.calculateAssetEndurance_calls (S calls) s a years
  = if le s (mul a INVESTMENT_RETURN_RATE) then Some (-1)
    else if le (sub a s) zero then Some (years + 1)
    else FinancialCalculator.calculateAssetEndurance_calls calls s
           (mul (sub a s) FinancialCalculator.growth) (years + 1).
Proof. reflexivity. Qed.

(** From a non-sustainable base worth at most [1 + 0.0699 * n] spendings
    the recursion returns within [n + 1] calls, at the first year whose
    remainder is not positive. *)
Lemma double_endurance_run (s : Z) :
  representable s ->
  forall (n : nat) (a years : Z) (calls : nat),
    0 <= a -> representable a ->
    round_magnitude (a * 5044031582654956) (2 ^ 56) < s ->
    10000 * a <= (10000 + 699 * Z.of_nat n) * s ->
    (n < calls)%nat ->
    exists j : nat,
      (j <= n)%nat /\
      FinancialCalculator.calculateAssetEndurance_calls calls (Finite s)
        (Finite a) years
      = Some (years + 1 + Z.of_nat j) /\
      le (sub (Spec.endurance_assets (Finite s) (Finite a) j) (Finite s)) zero
      = true /\
      (forall i : nat,
          (i < j)%nat ->
          le (sub (Spec.endurance_assets (Finite s) (Finite a) i) (Finite s))
            zero
          = false) /\
      a <= (Z.of_nat j + 1) * s /\
      699 * (Z.of_nat j * s) <= 10000 * a.
Proof.
  intros Hreps n.
  induction n as [|n IH]; intros a years calls Ha Hrepa Hrate Hpot Hcalls.
  - destruct calls as [|calls]; [lia|].
    exists 0%nat. rewrite double_endurance_calls_unfold.
    destruct (rate_product a Ha Hrepa) as [-> Hp].
    assert (Hfirst : le (Finite s)
                       (Finite (round_magnitude (a * 5044031582654956) (2 ^ 56)))
                     = false) by (apply Z.leb_gt; exact Hrate).
    rewrite Hfirst.
    assert (Hdone : le (sub (Finite a) (Finite s)) zero = true).
    { apply sub_depleted. change (Z.of_nat 0) with 0 in Hpot. lia. }
    rewrite Hdone.
    refine (conj _ (conj _ (conj Hdone (conj _ (conj _ _))))); try lia.
    f_equal. lia.
  - destruct calls as [|calls]; [lia|].
    rewrite double_endurance_calls_unfold.
    destruct (rate_product a Ha Hrepa) as [-> Hp].
    assert (Hfirst : le (Finite s)
                       (Finite (round_magnitude (a * 5044031582654956) (2 ^ 56)))
                     = false) by (apply Z.leb_gt; exact Hrate).
    rewrite Hfirst.
    destruct (Z_le_gt_dec a s) as [Hle|Hgt].
    + exists 0%nat.
      assert (Hdone : le (sub (Finite a) (Finite s)) zero = true)
        by (apply sub_depleted; exact Hle).
      rewrite Hdone.
      refine (conj _ (conj _ (conj Hdone (conj _ (conj _ _))))); try lia.
      f_equal. lia.
    + assert (Hs : 0 <= s) by lia.
      destruct (sub_remainder a s Hs ltac:(lia) Hrepa) as [Hsub Hr].
      pose proof (remaining_assets_cover a s Ha Hrepa Hs ltac:(lia)) as Hcover.
      pose proof (remaining_assets_decrease a s Ha Hrepa Hreps Hrate
                    ltac:(lia)) as Hdecr.
      set (r := round_magnitude (a - s) 1) in *.
      set (a' := round_magnitude (r * 4818851601286431) (2 ^ 52)) in *.
      assert (Ha' : 0 <= a')
        by (apply round_magnitude_nonneg; [reflexivity|lia]).
      assert (Hover : a < overflow).
      { destruct Hrepa as [_ Ho]. rewrite Z.abs_eq in Ho by exact Ha. exact Ho. }
      assert (Hnext : mul (Finite r) FinancialCalculator.growth = Finite a').
      { rewrite growth_units, mul_by_constant by (unfold unit_bits; lia).
        apply signed_finite. lia. }
      assert (Hrepa' : representable a').
      { split; rewrite Z.abs_eq by exact Ha'; [|lia].
        apply round_magnitude_idempotent; [reflexivity|lia]. }
      assert (Hrate' : round_magnitude (a' * 5044031582654956) (2 ^ 56) < s).
      { eapply Z.le_lt_trans; [|exact Hrate].
        apply round_magnitude_monotone; [reflexivity|lia|lia]. }
      assert (Hpot' : 10000 * a' <= (10000 + 699 * Z.of_nat n) * s).
      { rewrite Nat2Z.inj_succ in Hpot. lia. }
      assert (Hleft : le (sub (Finite a) (Finite s)) zero = false).
      { rewrite Hsub. apply Z.leb_gt. lia. }
      rewrite Hleft, Hsub, Hnext.
      destruct (IH a' (years + 1) calls Ha' Hrepa' Hrate' Hpot' ltac:(lia))
        as (j & Hj & Hres & Hlast & Hbefore & Hlow & Hhigh).
      assert (Hshift :
                forall i,
                  Spec.endurance_assets (Finite s) (Finite a) (S i)
                  = Spec.endurance_assets (Finite s) (Finite a') i).
      { intro i. unfold Spec.endurance_assets. rewrite Nat.iter_succ_r.
        unfold Spec.spend_then_grow at 2.
        now rewrite <- growth_literal, Hsub, Hnext. }
      exists (S j). split; [lia|]. split; [|split; [|split; [|split]]].
      * rewrite Hres. f_equal. lia.
      * rewrite Hshift. exact Hlast.
      * intros [|i] Hi; [exact Hleft|].
        rewrite Hshift. apply Hbefore. lia.
      * rewrite Nat2Z.inj_succ. lia.
      * rewrite Nat2Z.inj_succ. lia.
Qed.

Lemma endurance_potential_start (a s : Z) :
  0 <= a -> 0 <= s ->
  a * 5044031582654956 < s * 2 ^ 56 ->
  10000 * a <= (10000 + 699 * Z.of_nat 199) * s.
Proof.
  intros Ha Hs Hlt. change (Z.of_nat 199) with 199. lia.
Qed.

End EnduranceOnDoubles.

Section EnduranceClaim.
Import Binary64.
Local Open Scope Z_scope.

Lemma literal_double (x : Q) : double (literal x).
Proof.
  unfold literal, round_ratio.
  pose proof (signed_well_formed (Qnum x * one <? 0)
                (Z.abs (Qnum x * one)) (Zpos (Qden x))
                ltac:(lia) ltac:(lia)) as Hwf.
  unfold signed in *.
  destruct (overflow <=? round_magnitude (Z.abs (Qnum x * one)) (Z.pos (Qden x)));
    [exact I|exact Hwf].
Qed.

Lemma rate_of_unbounded_base :
  mul (Infinity false) Double.INVESTMENT_RETURN_RATE = Infinity false.
Proof. vm_compute. reflexivity. Qed.

(** A spending that is [NaN] fails both tests of every call: the recursion
    never returns. *)
Lemma double_endurance_of_NaN (calls : nat) :
  forall (assetBase : number) (years : Z),
    Double.FinancialCalculator.calculateAssetEndurance_calls calls NaN
      assetBase years
    = None.
Proof.
  induction calls as [|calls IH]; intros assetBase years; [reflexivity|].
  rewrite double_endurance_calls_unfold.
  assert (Hsub : sub assetBase NaN = NaN) by (destruct assetBase; reflexivity).
  rewrite Hsub. cbv beta iota delta [le].
  assert (Hmul : mul NaN Double.FinancialCalculator.growth = NaN)
    by reflexivity.
  rewrite Hmul. apply IH.
Qed.

(** What [calculateAssetEndurance] returns on numbers, case by case. *)
Lemma double_endurance_returns (annualSpending assetBase : number) :
  double annualSpending -> double assetBase ->
  le zero assetBase = true ->
  (le annualSpending (mul assetBase Double.INVESTMENT_RETURN_RATE) = true ->
   Double.FinancialCalculator.calculateAssetEndurance annualSpending assetBase
   = Some (-1)) /\
  (le annualSpending (mul assetBase Double.INVESTMENT_RETURN_RATE) = false ->
   exists j : nat,
     Double.FinancialCalculator.calculateAssetEndurance annualSpending
       assetBase
     = Some (Z.of_nat (S j)) /\
     le (sub (Double.Spec.endurance_assets annualSpending assetBase j)
           annualSpending) zero
     = true /\
     forall i : nat,
       (i < j)%nat ->
       le (sub (Double.Spec.endurance_assets annualSpending assetBase i)
             annualSpending) zero
       = false).
Proof.
  intros Hs Ha Hbase.
  unfold Double.FinancialCalculator.calculateAssetEndurance.
  change Double.FinancialCalculator.endurance_calls with (S 199).
  rewrite double_endurance_calls_unfold.
  split.
  - intros ->. reflexivity.
  - intros Hfirst. rewrite Hfirst.
    destruct annualSpending as [|sneg|s]; [destruct Hs| |].
    + (* an infinite spending *)
      destruct assetBase as [|aneg|a]; [destruct Ha| |].
      * destruct aneg; [discriminate Hbase|].
        rewrite rate_of_unbounded_base in Hfirst. destruct sneg; discriminate.
      * destruct sneg.
        -- exfalso. destruct (rate_product a) as [Hmul _].
           ++ now apply Z.leb_le in Hbase.
           ++ exact Ha.
           ++ rewrite Hmul in Hfirst. discriminate Hfirst.
        -- exists 0%nat. repeat split; try reflexivity. intros i Hi. lia.
    + destruct assetBase as [|aneg|a]; [destruct Ha| |].
      * destruct aneg; [discriminate Hbase|].
        rewrite rate_of_unbounded_base in Hfirst. discriminate Hfirst.
      * assert (Ha0 : 0 <= a) by (now apply Z.leb_le in Hbase).
        destruct (rate_product a Ha0 Ha) as [Hmul Hp].
        rewrite Hmul in Hfirst. apply Z.leb_gt in Hfirst.
        assert (Hs0 : 0 <= s) by lia.
        pose proof (above_rounding s (a * 5044031582654956) (2 ^ 56)
                      ltac:(reflexivity) ltac:(lia) Hs0 Hs Hfirst) as Habove.
        destruct (double_endurance_run s Hs 199 a 0 (S 199) Ha0 Ha Hfirst
                    (endurance_potential_start a s Ha0 Hs0 Habove)
                    ltac:(lia))
          as (j & _ & Hres & Hlast & Hbefore & _).
        exists j. split; [|split; assumption].
        rewrite double_endurance_calls_unfold in Hres.
        rewrite Hmul in Hres.
        assert (Hfalse : le (Finite s)
                           (Finite (round_magnitude (a * 5044031582654956)
                                      (2 ^ 56))) = false)
          by (apply Z.leb_gt; exact Hfirst).
        rewrite Hfalse in Hres. rewrite Hres. f_equal. lia.
Qed.

End EnduranceClaim.

(** C3.  On binary64 numbers and a non-negative asset base,
    [calculateAssetEndurance] returns the indefinite sentinel -1 exactly
    when [annualSpending <= assetBase * 0.07]; otherwise it returns a finite
    year [y >= 1], the smallest one for which, with [A_0 = assetBase] and
    [A_k = (A_(k-1) - annualSpending) * 1.07], the remainder
    [A_(y-1) - annualSpending] is not positive.  Products and differences
    are the binary64 ones, as the engine computes them. *)
Theorem endurance_is_sentinel_or_first_depletion :
  forall annualSpending assetBase : Binary64.number,
    Binary64.double annualSpending ->
    Binary64.double assetBase ->
    Binary64.le Binary64.zero assetBase = true ->
    let sustainable :=
      Binary64.le annualSpending
        (Binary64.mul assetBase (Binary64.literal 0.07)) in
    let remainder (k : nat) :=
      Binary64.sub
        (Double.Spec.endurance_assets annualSpending assetBase k)
        annualSpending in
    (Double.FinancialCalculator.calculateAssetEndurance annualSpending
       assetBase
     = Some Spec.indefinite
     <-> sustainable = true) /\
    (sustainable = false ->
     exists y,
       (1 <= y)%nat /\
       Double.FinancialCalculator.calculateAssetEndurance annualSpending
         assetBase
       = Some (Z.of_nat y) /\
       Binary64.le (remainder (y - 1)%nat) Binary64.zero = true /\
       (forall j,
           (1 <= j < y)%nat ->
           Binary64.le (remainder (j - 1)%nat) Binary64.zero = false)).
Proof.
  intros annualSpending assetBase Hs Ha Hbase sustainable remainder.
  subst sustainable remainder. cbv beta.
  rewrite <- rate_literal_eq.
  destruct (double_endurance_returns annualSpending assetBase Hs Ha Hbase)
    as [Hsust Hdepl].
  assert (Hfinite :
            Binary64.le annualSpending
              (Binary64.mul assetBase Double.INVESTMENT_RETURN_RATE) = false ->
            exists y,
              (1 <= y)%nat /\
              Double.FinancialCalculator.calculateAssetEndurance annualSpending
                assetBase
              = Some (Z.of_nat y) /\
              Binary64.le
                (Binary64.sub
                   (Double.Spec.endurance_assets annualSpending assetBase
                      (y - 1))
                   annualSpending) Binary64.zero = true /\
              (forall j,
                  (1 <= j < y)%nat ->
                  Binary64.le
                    (Binary64.sub
                       (Double.Spec.endurance_assets annualSpending assetBase
                          (j - 1))
                       annualSpending) Binary64.zero = false)).
  { intro Hno. destruct (Hdepl Hno) as (j & Hres & Hlast & Hbefore).
    exists (S j). split; [lia|]. split; [exact Hres|].
    replace (S j - 1)%nat with j by lia. split; [exact Hlast|].
    intros i Hi. apply Hbefore. lia. }
  split; [split|exact Hfinite].
  - intro Hres.
    destruct (Binary64.le annualSpending
                (Binary64.mul assetBase Double.INVESTMENT_RETURN_RATE))
      eqn:Hle; [reflexivity|].
    destruct (Hfinite eq_refl) as (y & Hy & Hret & _).
    rewrite Hret in Hres. unfold Spec.indefinite in Hres.
    injection Hres as Hres. lia.
  - exact Hsust.
Qed.

(** Two amounts on which the rounding of the products decides: spending
    0.14 from a base of 2 is sustainable, since [2 * 0.07] is the double
    0.14; spending 2033 from 3933 lasts three years, the base left after
    one year being 2033.0000000000002. *)
Lemma endurance_is_sentinel_or_first_depletion_witness :
  Double.FinancialCalculator.calculateAssetEndurance
    (Binary64.literal 0.14) (Binary64.literal 2)
  = Some Spec.indefinite
  /\ exists y,
       (1 <= y)%nat /\
       Double.FinancialCalculator.calculateAssetEndurance
         (Binary64.literal 2033) (Binary64.literal 3933)
       = Some (Z.of_nat y) /\
       Binary64.le
         (Binary64.sub
            (Double.Spec.endurance_assets (Binary64.literal 2033)
               (Binary64.literal 3933) (y - 1))
            (Binary64.literal 2033)) Binary64.zero = true /\
       (forall j,
           (1 <= j < y)%nat ->
           Binary64.le
             (Binary64.sub
                (Double.Spec.endurance_assets (Binary64.literal 2033)
                   (Binary64.literal 3933) (j - 1))
                (Binary64.literal 2033)) Binary64.zero = false).
Proof.
  split.
  - apply (endurance_is_sentinel_or_first_depletion
             (Binary64.literal 0.14) (Binary64.literal 2)).
    + apply literal_double.
    + apply literal_double.
    + vm_compute. reflexivity.
    + vm_compute. reflexivity.
  - apply (endurance_is_sentinel_or_first_depletion
             (Binary64.literal 2033) (Binary64.literal 3933)).
    + apply literal_double.
    + apply literal_double.
    + vm_compute. reflexivity.
    + vm_compute. reflexivity.
Defined.

Example endurance_of_2033_from_3933 :
  Double.FinancialCalculator.calculateAssetEndurance
    (Binary64.literal 2033) (Binary64.literal 3933)
  = Some 3%Z.
Proof. vm_compute. reflexivity. Qed.
(* ================================================================== *)
(** ** The tax engine on doubles *)

Section TaxOnDoubles.
Import Binary64.
Local Open Scope Z_scope.

Lemma lt_of_not_le (x y : number) :
  x <> NaN -> y <> NaN -> le x y = false -> lt y x = true.
Proof.
  intros Hx Hy H. destruct x as [|sx|a]; [contradiction| |];
    (destruct y as [|sy|b]; [contradiction| |]);
    cbv beta iota delta [lt]; now rewrite H.
Qed.

Lemma lt_not_NaN (x y : number) : lt x y = true -> x <> NaN /\ y <> NaN.
Proof.
  destruct x, y; simpl; intro H; try discriminate H; split; discriminate.
Qed.

(** [x - y] is not negative when [y < x]. *)
Lemma sub_positive (x y : number) :
  lt y x = true -> le zero (sub x y) = true.
Proof.
  destruct x as [|[]|a], y as [|[]|b]; simpl; intro H;
    try discriminate H; try reflexivity.
  apply negb_true_iff, Z.leb_gt in H.
  change (round_dyadic (a + - b) 0) with (round_dyadic (a - b) 0).
  apply round_dyadic_nonneg; lia.
Qed.

Lemma Math_max_nonneg (z : number) :
  le zero z = true -> Math_max zero z = z.
Proof.
  destruct z as [|s|n]; simpl; intro H; try discriminate H; now rewrite H.
Qed.

Lemma lt_Math_min (p x y : number) :
  lt p x = true -> lt p y = true -> lt p (Math_min x y) = true.
Proof.
  intros Hx Hy.
  destruct (lt_not_NaN _ _ Hx) as [_ Hxn], (lt_not_NaN _ _ Hy) as [_ Hyn].
  destruct x as [|sx|a]; [contradiction| |];
    (destruct y as [|sy|b]; [contradiction| |]);
    unfold Math_min;
    match goal with |- context [if ?c then _ else _] => destruct c end;
    assumption.
Qed.

(** Nothing of a finite income lies above a threshold it does not
    exceed. *)
Lemma portion_above_income (i p : Z) (ceiling : number) :
  i <= p -> lt (Finite p) ceiling = true ->
  Double.Spec.portion_in_bracket (Finite i) (Finite p) ceiling = zero.
Proof.
  intros Hle Hlt. unfold Double.Spec.portion_in_bracket.
  assert (Hmin : Math_min (Finite i) ceiling = Finite i).
  { destruct ceiling as [|[]|t]; simpl in Hlt |- *; try discriminate Hlt;
      try reflexivity.
    apply negb_true_iff, Z.leb_gt in Hlt.
    assert (Ht : (i <=? t) = true) by (apply Z.leb_le; lia).
    now rewrite Ht. }
  rewrite Hmin, sub_finite.
  destruct (Z.eq_dec i p) as [->|Hne].
  - rewrite Z.sub_diag. now rewrite round_dyadic_zero by lia.
  - rewrite round_dyadic_eq by lia. change (2 ^ 0) with 1.
    assert (Hs : (i - p <? 0) = true) by (apply Z.ltb_lt; lia).
    rewrite Hs.
    assert (Hn : 1 <= round_magnitude (Z.abs (i - p)) 1).
    { change 1 with (round_magnitude 1 1) at 1.
      apply round_magnitude_monotone; lia. }
    unfold signed.
    destruct (overflow <=? round_magnitude (Z.abs (i - p)) 1);
      [reflexivity|].
    unfold Math_max, zero, le.
    assert (Hneg : (0 <=? - round_magnitude (Z.abs (i - p)) 1) = false)
      by (apply Z.leb_gt; lia).
    now rewrite Hneg.
Qed.

Variable income : number.
Hypothesis income_positive : lt zero income = true.

Lemma income_cases :
  income = Infinity false \/ exists i, income = Finite i /\ 0 < i.
Proof.
  destruct income as [|[]|i]; simpl in income_positive;
    try discriminate income_positive; [now left|right].
  exists i. split; [reflexivity|].
  now apply negb_true_iff, Z.leb_gt in income_positive.
Qed.

(** Past the bracket that covers the income the sum no longer changes. *)
Lemma double_marginal_sum_covered (brackets : list Double.bracket) :
  forall (i p : Z) (total : number),
    income = Finite i -> i <= p ->
    Double.Spec.ascending_from (Finite p) brackets = true ->
    well_formed total ->
    Double.Spec.marginal_bracket_sum_from (Finite p) income brackets total
    = total.
Proof.
  induction brackets as [|b rest IH]; intros i p total Hinc Hle Hasc Hwf;
    [reflexivity|].
  simpl in Hasc. apply andb_true_iff in Hasc as [Hasc Hrest].
  apply andb_true_iff in Hasc as [Hlt Hrate].
  simpl Double.Spec.marginal_bracket_sum_from.
  destruct (Double.rate b) as [| |r] eqn:Hr; try discriminate Hrate.
  rewrite Hinc, (portion_above_income i p _ Hle Hlt), mul_zero_l.
  rewrite add_zero_r by exact Hwf.
  destruct (Double.threshold b) as [|[]|t] eqn:Ht; simpl in Hlt;
    try discriminate Hlt.
  - destruct rest as [|b' rest']; [reflexivity|].
    simpl in Hrest. destruct (Double.threshold b') as [|[]|]; discriminate Hrest.
  - rewrite <- Hinc. apply (IH i t); try assumption.
    apply negb_true_iff, Z.leb_gt in Hlt. lia.
Qed.

(** The loop with its [break] accumulates the marginal-bracket sum. *)
Lemma double_bracket_loop_sum (brackets : list Double.bracket) :
  forall previous total : number,
    Double.Spec.ascending_from previous brackets = true ->
    well_formed total ->
    Double.TaxCalculator.bracket_loop income brackets total previous
    = Double.Spec.marginal_bracket_sum_from previous income brackets total.
Proof.
  induction brackets as [|b rest IH]; intros previous total Hasc Hwf;
    [reflexivity|].
  pose proof Hasc as Hasc'.
  simpl in Hasc. apply andb_true_iff in Hasc as [Hasc Hrest].
  apply andb_true_iff in Hasc as [Hlt Hrate].
  simpl Double.TaxCalculator.bracket_loop.
  destruct (le income previous) eqn:Hcov.
  - destruct income_cases as [Hinf|(i & Hi & Hpos)].
    + rewrite Hinf in Hcov.
      destruct previous as [|[]|p]; simpl in Hcov, Hlt; try discriminate.
      destruct (Double.threshold b) as [|[]|]; discriminate Hlt.
    + destruct previous as [|[]|p].
      * rewrite Hi in Hcov. discriminate Hcov.
      * rewrite Hi in Hcov. discriminate Hcov.
      * destruct (Double.threshold b) as [|[]|]; discriminate Hlt.
      * symmetry. apply (double_marginal_sum_covered (b :: rest) i p);
          try assumption.
        rewrite Hi in Hcov. now apply Z.leb_le in Hcov.
  - simpl Double.Spec.marginal_bracket_sum_from.
    destruct (lt_not_NaN _ _ Hlt) as [Hpn _].
    destruct (lt_not_NaN _ _ income_positive) as [_ Hin].
    pose proof (lt_of_not_le income previous Hin Hpn Hcov) as Hbelow.
    unfold Double.Spec.portion_in_bracket.
    rewrite Math_max_nonneg
      by (apply sub_positive, lt_Math_min; assumption).
    apply IH; [exact Hrest|apply add_well_formed].
Qed.

(** The accumulated tax is never negative. *)
Lemma double_bracket_loop_nonneg (brackets : list Double.bracket) :
  forall previous total : number,
    Double.Spec.ascending_from previous brackets = true ->
    le zero total = true ->
    le zero (Double.TaxCalculator.bracket_loop income brackets total previous)
    = true.
Proof.
  induction brackets as [|b rest IH]; intros previous total Hasc Htot;
    [exact Htot|].
  simpl in Hasc. apply andb_true_iff in Hasc as [Hasc Hrest].
  apply andb_true_iff in Hasc as [Hlt Hrate].
  simpl Double.TaxCalculator.bracket_loop.
  destruct (le income previous) eqn:Hcov; [exact Htot|].
  destruct (lt_not_NaN _ _ Hlt) as [Hpn _].
  destruct (lt_not_NaN _ _ income_positive) as [_ Hin].
  pose proof (lt_of_not_le income previous Hin Hpn Hcov) as Hbelow.
  pose proof (sub_positive _ _ (lt_Math_min _ _ _ Hbelow Hlt)) as Hpart.
  apply IH; [exact Hrest|].
  destruct (Double.rate b) as [| |r]; try discriminate Hrate.
  apply Z.ltb_lt in Hrate.
  destruct (sub (Math_min income (Double.threshold b)) previous)
    as [|[]|t]; try discriminate Hpart.
  - (* an unbounded part *)
    simpl mul. assert (Hr0 : (r =? 0) = false) by (apply Z.eqb_neq; lia).
    assert (Hr1 : (r <? 0) = false) by (apply Z.ltb_ge; lia).
    rewrite Hr0, Hr1. simpl xorb.
    destruct total as [|[]|]; try discriminate Htot; reflexivity.
  - apply Z.leb_le in Hpart.
    assert (Hterm : le zero (mul (Finite t) (Finite r)) = true).
    { cbv beta iota delta [mul]. apply round_dyadic_nonneg.
      - unfold unit_bits. lia.
      - nia. }
    destruct (mul (Finite t) (Finite r)) as [|[]|u]; try discriminate Hterm.
    + destruct total as [|[]|]; try discriminate Htot; reflexivity.
    + destruct total as [|[]|v]; try discriminate Htot; [reflexivity|].
      cbv beta iota delta [add]. apply round_dyadic_nonneg; [lia|].
      apply Z.leb_le in Htot, Hterm. lia.
Qed.

End TaxOnDoubles.

Section RoundingToWholeUnits.
Import Binary64.
Local Open Scope Z_scope.

(** [Math.round] returns the whole number within half a unit, a half going
    up. *)
Lemma double_Math_round_nearest (n : Z) :
  exists t : Z,
    Math_round (Finite n) = Finite (t * one)
    /\ 2 * n - one < 2 * (t * one) <= 2 * n + one.
Proof.
  exists ((2 * n + one) / (2 * one)). unfold Math_round.
  assert (Hone : 0 < one) by reflexivity.
  rewrite Z.shiftr_div_pow2, Z.shiftl_mul_pow2 by (unfold unit_bits; lia).
  replace (2 ^ (unit_bits + 1)) with (2 * one)
    by (unfold one; rewrite Z.pow_add_r by (unfold unit_bits; lia); ring).
  fold one. split; [reflexivity|].
  pose proof (Z.mul_div_le (2 * n + one) (2 * one) ltac:(lia)).
  pose proof (Z.mul_succ_div_gt (2 * n + one) (2 * one) ltac:(lia)).
  lia.
Qed.

Lemma double_tables_ascending (filingStatus : string) :
  recognized filingStatus ->
  exists brackets,
    own_property filingStatus APP_CONFIG.TAX_BRACKETS_own = Some brackets /\
    TAX_BRACKETS_get filingStatus = BracketArray brackets /\
    Double.Spec.ascending_from zero (map Double.bracket_of brackets) = true.
Proof.
  intros [ -> | [ -> | [ -> | -> ] ] ];
    eexists; (split; [reflexivity|split; [reflexivity|]]);
    vm_compute; reflexivity.
Qed.

End RoundingToWholeUnits.

(** C2.  For a positive income and a recognised filing status,
    [calculateFederalTax] returns the marginal-bracket sum of that status's
    table, rounded to the nearest whole unit.  The table is in ascending
    threshold order; each bracket adds, at its own rate, the part of the
    income between the previous threshold and [min(income, threshold)],
    the brackets past the income adding nothing; the sum is accumulated in
    table order, every product and every partial sum being the binary64
    one.  The sum is not negative, and its rounding is the whole number
    within one half of it, a half going up (away from zero). *)
Theorem federal_tax_is_rounded_marginal_sum :
  forall (income : Binary64.number) (filingStatus : string),
    Binary64.lt Binary64.zero income = true ->
    recognized filingStatus ->
    exists brackets,
      own_property filingStatus APP_CONFIG.TAX_BRACKETS_own = Some brackets /\
      let table := map Double.bracket_of brackets in
      Double.Spec.ascending_from Binary64.zero table = true /\
      let sum := Double.Spec.marginal_bracket_sum income table in
      Double.TaxCalculator.calculateFederalTax income filingStatus
      = Normal (Binary64.Math_round sum) /\
      Binary64.le Binary64.zero sum = true /\
      forall n,
        sum = Binary64.Finite n ->
        exists t : Z,
          Binary64.Math_round sum = Binary64.Finite (t * Binary64.one) /\
          (2 * n - Binary64.one < 2 * (t * Binary64.one)
           <= 2 * n + Binary64.one)%Z.
Proof.
  intros income filingStatus Hpos Hrec.
  destruct (double_tables_ascending filingStatus Hrec)
    as (brackets & Hown & Hget & Hasc).
  exists brackets. split; [exact Hown|]. intro table. split; [exact Hasc|].
  intro sum.
  assert (Hloop :
            Double.TaxCalculator.bracket_loop income table Binary64.zero
              Binary64.zero = sum).
  { apply double_bracket_loop_sum; [exact Hpos|exact Hasc|].
    split; reflexivity. }
  split; [|split].
  - unfold Double.TaxCalculator.calculateFederalTax.
    assert (Hguard : Binary64.le income Binary64.zero = false).
    { destruct income as [|[]|i]; simpl in Hpos |- *; try discriminate Hpos;
        try reflexivity.
      now apply negb_true_iff in Hpos. }
    rewrite Hguard, Hget. fold table. now rewrite Hloop.
  - rewrite <- Hloop.
    apply double_bracket_loop_nonneg; [exact Hpos|exact Hasc|reflexivity].
  - intros n Hn. rewrite Hn. apply double_Math_round_nearest.
Qed.

(** The income 14.999999999999998 owes [1.4999999999999998] exactly, but the
    binary64 product with 0.1 is 1.5: the engine returns 2. *)
Lemma federal_tax_is_rounded_marginal_sum_witness :
  exists brackets,
    own_property "single" APP_CONFIG.TAX_BRACKETS_own = Some brackets /\
    let table := map Double.bracket_of brackets in
    Double.Spec.ascending_from Binary64.zero table = true /\
    let sum :=
      Double.Spec.marginal_bracket_sum
        (Binary64.literal 14.999999999999998) table in
    Double.TaxCalculator.calculateFederalTax
      (Binary64.literal 14.999999999999998) "single"
    = Normal (Binary64.Math_round sum) /\
    Binary64.le Binary64.zero sum = true /\
    forall n,
      sum = Binary64.Finite n ->
      exists t : Z,
        Binary64.Math_round sum = Binary64.Finite (t * Binary64.one) /\
        (2 * n - Binary64.one < 2 * (t * Binary64.one)
         <= 2 * n + Binary64.one)%Z.
Proof.
  apply (federal_tax_is_rounded_marginal_sum
           (Binary64.literal 14.999999999999998) "single").
  - vm_compute. reflexivity.
  - left. reflexivity.
Defined.

Example federal_tax_of_tie_income :
  Double.TaxCalculator.calculateFederalTax
    (Binary64.literal 14.999999999999998) "single"
  = Normal (Binary64.integer 2).
Proof. vm_compute. reflexivity. Qed.
(* ================================================================== *)
(** ** The projection and crossover engines on doubles *)

Section DoubleConstants.
Import Binary64.

Lemma withdrawal_literal : Double.WITHDRAWAL_RATE = literal 0.05.
Proof. vm_compute. reflexivity. Qed.

Lemma iter_ext {A : Type} (f g : A -> A) :
  (forall x, f x = g x) ->
  forall (n : nat) (a : A), Nat.iter n f a = Nat.iter n g a.
Proof.
  intros Hfg n a. induction n as [|n IH]; [reflexivity|].
  simpl. now rewrite IH, Hfg.
Qed.

Lemma double_projection_year_spec (s b : number) :
  Double.FinancialCalculator.projection_year s b
  = Double.Spec.contribute_then_grow s b.
Proof.
  unfold Double.FinancialCalculator.projection_year,
    Double.Spec.contribute_then_grow.
  now rewrite growth_literal.
Qed.

End DoubleConstants.

Section DoubleProjection.
Import Binary64 Double.FinancialCalculator.
Variable annualSaving : number.

Lemma double_projection_loop_app (turns : nat) :
  forall balance projection,
    projection_loop annualSaving turns balance projection
    = projection ++ projection_loop annualSaving turns balance [].
Proof.
  induction turns as [|turns IH]; intros balance projection; simpl.
  - now rewrite app_nil_r.
  - rewrite IH. rewrite (IH _ [_]). now rewrite <- app_assoc.
Qed.

Lemma double_fifteen_year_loop_iter (turns : nat) :
  forall balance,
    fifteen_year_loop annualSaving turns balance
    = Nat.iter turns (projection_year annualSaving) balance.
Proof.
  induction turns as [|turns IH]; intro balance.
  - reflexivity.
  - rewrite Nat.iter_succ_r. simpl. apply IH.
Qed.

Lemma double_projection_loop_nth (turns : nat) :
  forall balance projection k,
    (k < turns)%nat ->
    nth_error (projection_loop annualSaving turns balance projection)
      (length projection + k)
    = Some (Math_round (fifteen_year_loop annualSaving (S k) balance)).
Proof.
  induction turns as [|turns IH]; intros balance projection k Hk; [lia|].
  cbn [projection_loop]. destruct k as [|k].
  - rewrite double_projection_loop_app, Nat.add_0_r.
    rewrite nth_error_app1 by (rewrite length_app; simpl; lia).
    rewrite nth_error_app2 by lia. now rewrite Nat.sub_diag.
  - specialize (IH (projection_year annualSaving balance)
                  (projection
                   ++ [Math_round (projection_year annualSaving balance)])
                  k ltac:(lia)).
    rewrite length_app in IH. simpl length in IH.
    replace (length projection + S k)%nat
      with (length projection + 1 + k)%nat by lia.
    exact IH.
Qed.

Lemma double_calculateProjection_nth (years : nat) (startingBalance : number)
    (k : nat) :
  (k < years)%nat ->
  nth_error (calculateProjection annualSaving years startingBalance) k
  = Some (Math_round
            (Nat.iter (S k) (Double.Spec.contribute_then_grow annualSaving)
               startingBalance)).
Proof.
  intro Hk. unfold calculateProjection.
  pose proof (double_projection_loop_nth years startingBalance [] k Hk) as Hn.
  simpl length in Hn. simpl Nat.add in Hn. rewrite Hn.
  rewrite double_fifteen_year_loop_iter.
  now rewrite (iter_ext _ _ (double_projection_year_spec annualSaving)).
Qed.

End DoubleProjection.

Section DoubleCrossoverLoop.
Import Binary64 Double.FinancialCalculator.
Variables earnedIncome annualSavings : number.

Let grow := Double.Spec.grow_then_contribute annualSavings.

Lemma double_crossover_year_assets (year : Z) (st : crossover_state) :
  st_assets (crossover_year earnedIncome annualSavings year st)
  = grow (st_assets st).
Proof.
  unfold grow, Double.Spec.grow_then_contribute, crossover_year.
  cbn [st_assets]. now rewrite growth_literal.
Qed.

Lemma double_crossover_year_set (year : Z) (st : crossover_state) :
  st_crossoverYear (crossover_year earnedIncome annualSavings year st)
  = if ge (mul (grow (st_assets st)) Double.WITHDRAWAL_RATE) earnedIncome
       && (st_crossoverYear st =? -1)%Z
    then year
    else st_crossoverYear st.
Proof.
  unfold grow, Double.Spec.grow_then_contribute, crossover_year.
  cbn [st_crossoverYear]. now rewrite growth_literal.
Qed.

Lemma double_crossover_year_data (year : Z) (st : crossover_state) :
  st_projectionData (crossover_year earnedIncome annualSavings year st)
  = st_projectionData st
    ++ [Double.YearRecord.mk year (grow (st_assets st))
          (mul (grow (st_assets st)) Double.WITHDRAWAL_RATE) earnedIncome].
Proof.
  unfold grow, Double.Spec.grow_then_contribute, crossover_year.
  cbn [st_projectionData]. now rewrite growth_literal.
Qed.

Lemma double_crossover_loop_data (turns : nat) :
  forall year st k,
    (k < turns)%nat ->
    nth_error
      (st_projectionData
         (crossover_loop earnedIncome annualSavings turns year st))
      (length (st_projectionData st) + k)
    = Some (Double.YearRecord.mk (year + Z.of_nat k)
              (Nat.iter (S k) grow (st_assets st))
              (mul (Nat.iter (S k) grow (st_assets st))
                 Double.WITHDRAWAL_RATE)
              earnedIncome).
Proof.
  induction turns as [|turns IH]; intros year st k Hk; [lia|].
  cbn [crossover_loop].
  assert (Hkeep :
            forall turns' year' st' i,
              (i < length (st_projectionData st'))%nat ->
              nth_error
                (st_projectionData
                   (crossover_loop earnedIncome annualSavings turns' year' st'))
                i
              = nth_error (st_projectionData st') i).
  { induction turns' as [|turns' IH']; intros year' st' i Hi;
      [reflexivity|].
    cbn [crossover_loop]. rewrite IH'.
    - rewrite double_crossover_year_data. now apply nth_error_app1.
    - rewrite double_crossover_year_data, length_app. simpl. lia. }
  destruct k as [|k].
  - rewrite Hkeep
      by (rewrite double_crossover_year_data, length_app; simpl; lia).
    rewrite double_crossover_year_data, Nat.add_0_r.
    rewrite nth_error_app2 by lia. rewrite Nat.sub_diag, Z.add_0_r.
    reflexivity.
  - specialize (IH (year + 1)%Z
                  (crossover_year earnedIncome annualSavings year st)
                  k ltac:(lia)).
    rewrite double_crossover_year_data, length_app in IH. simpl length in IH.
    rewrite double_crossover_year_assets, <- Nat.iter_succ_r in IH.
    replace (length (st_projectionData st) + S k)%nat
      with (length (st_projectionData st) + 1 + k)%nat by lia.
    rewrite IH. do 2 f_equal. lia.
Qed.

(** Once a crossover year is set, later turns do not overwrite it. *)
Lemma double_crossover_loop_keeps (turns : nat) :
  forall year st,
    st_crossoverYear st <> (-1)%Z ->
    st_crossoverYear (crossover_loop earnedIncome annualSavings turns year st)
    = st_crossoverYear st.
Proof.
  induction turns as [|turns IH]; intros year st Hset; [reflexivity|].
  cbn [crossover_loop].
  assert (Hstep :
            st_crossoverYear (crossover_year earnedIncome annualSavings year st)
            = st_crossoverYear st).
  { rewrite double_crossover_year_set.
    apply Z.eqb_neq in Hset. rewrite Hset. now rewrite andb_false_r. }
  rewrite IH; rewrite Hstep; auto.
Qed.

(** No crossing in any of the turns: the sentinel stays. *)
Lemma double_crossover_loop_never (turns : nat) :
  forall year st,
    st_crossoverYear st = (-1)%Z ->
    (forall j, (j < turns)%nat ->
       ge (mul (Nat.iter (S j) grow (st_assets st)) Double.WITHDRAWAL_RATE)
         earnedIncome
       = false) ->
    st_crossoverYear (crossover_loop earnedIncome annualSavings turns year st)
    = (-1)%Z.
Proof.
  induction turns as [|turns IH]; intros year st Hunset Hno; [exact Hunset|].
  cbn [crossover_loop]. apply IH.
  - rewrite double_crossover_year_set.
    pose proof (Hno 0%nat ltac:(lia)) as H0. change (Nat.iter 1 grow (st_assets st)) with (grow (st_assets st)) in H0.
    now rewrite H0.
  - intros j Hj. rewrite double_crossover_year_assets, <- Nat.iter_succ_r.
    apply Hno. lia.
Qed.

(** The first turn whose passive income reaches the earned income sets the
    crossover year. *)
Lemma double_crossover_loop_first (turns : nat) :
  forall year st j,
    st_crossoverYear st = (-1)%Z ->
    (0 <= year)%Z ->
    (j < turns)%nat ->
    ge (mul (Nat.iter (S j) grow (st_assets st)) Double.WITHDRAWAL_RATE)
      earnedIncome
    = true ->
    (forall i, (i < j)%nat ->
       ge (mul (Nat.iter (S i) grow (st_assets st)) Double.WITHDRAWAL_RATE)
         earnedIncome
       = false) ->
    st_crossoverYear (crossover_loop earnedIncome annualSavings turns year st)
    = (year + Z.of_nat j)%Z.
Proof.
  induction turns as [|turns IH]; intros year st j Hunset Hyear Hj Hcross Hmin;
    [lia|].
  cbn [crossover_loop]. destruct j as [|j].
  - assert (Hstep :
              st_crossoverYear
                (crossover_year earnedIncome annualSavings year st)
              = year).
    { rewrite double_crossover_year_set. change (Nat.iter 1 grow (st_assets st)) with (grow (st_assets st)) in Hcross.
      now rewrite Hcross, Hunset. }
    rewrite double_crossover_loop_keeps; rewrite Hstep; lia.
  - replace (year + Z.of_nat (S j))%Z with (year + 1 + Z.of_nat j)%Z by lia.
    apply IH.
    + rewrite double_crossover_year_set.
      pose proof (Hmin 0%nat ltac:(lia)) as H0. change (Nat.iter 1 grow (st_assets st)) with (grow (st_assets st)) in H0.
      now rewrite H0.
    + lia.
    + lia.
    + rewrite double_crossover_year_assets, <- Nat.iter_succ_r. exact Hcross.
    + intros i Hi. rewrite double_crossover_year_assets, <- Nat.iter_succ_r.
      apply Hmin. lia.
Qed.

End DoubleCrossoverLoop.

Section DoubleCrossoverPoint.
Import Binary64.

Lemma double_passive_income_eq (currentAssets annualSavings : number)
    (y : nat) :
  Double.Spec.passive_income currentAssets annualSavings y
  = mul (Nat.iter y (Double.Spec.grow_then_contribute annualSavings)
           currentAssets)
      Double.WITHDRAWAL_RATE.
Proof.
  unfold Double.Spec.passive_income, Double.Spec.crossover_assets.
  now rewrite withdrawal_literal.
Qed.

Lemma double_calculateCrossoverPoint_data
    (earnedIncome currentAssets annualSavings : number) (k : nat) :
  (k <= 50)%nat ->
  nth_error
    (Double.Crossover.projectionData
       (Double.FinancialCalculator.calculateCrossoverPoint earnedIncome
          currentAssets annualSavings)) k
  = Some (Double.YearRecord.mk (Z.of_nat k)
            (Double.Spec.crossover_assets currentAssets annualSavings k)
            (Double.Spec.passive_income currentAssets annualSavings k)
            earnedIncome).
Proof.
  intro Hk. unfold Double.FinancialCalculator.calculateCrossoverPoint.
  cbn [Double.Crossover.projectionData]. destruct k as [|k].
  - assert (Hkeep :
              forall turns year st i,
                (i < length (Double.FinancialCalculator.st_projectionData st))%nat ->
                nth_error
                  (Double.FinancialCalculator.st_projectionData
                     (Double.FinancialCalculator.crossover_loop earnedIncome
                        annualSavings turns year st)) i
                = nth_error (Double.FinancialCalculator.st_projectionData st) i).
    { induction turns as [|turns IH]; intros year st i Hi; [reflexivity|].
      cbn [Double.FinancialCalculator.crossover_loop]. rewrite IH.
      - rewrite double_crossover_year_data. now apply nth_error_app1.
      - rewrite double_crossover_year_data, length_app. simpl. lia. }
    rewrite Hkeep by (simpl; lia).
    cbn [Double.FinancialCalculator.st_projectionData nth_error].
    rewrite double_passive_income_eq. reflexivity.
  - pose proof (double_crossover_loop_data earnedIncome annualSavings 50 1
                  (Double.FinancialCalculator.mkState currentAssets
                     [Double.YearRecord.mk 0 currentAssets
                        (mul currentAssets Double.WITHDRAWAL_RATE)
                        earnedIncome]
                     (if ge (mul currentAssets Double.WITHDRAWAL_RATE)
                           earnedIncome
                      then 0%Z else (-1)%Z))
                  k ltac:(lia)) as Hn.
    cbn [Double.FinancialCalculator.st_projectionData
           Double.FinancialCalculator.st_assets length Nat.add] in Hn.
    rewrite Hn, double_passive_income_eq.
    unfold Double.Spec.crossover_assets. do 2 f_equal. lia.
Qed.

(** What [calculateCrossoverPoint] leaves in [years], case by case. *)
Lemma double_calculateCrossoverPoint_years
    (earnedIncome currentAssets annualSavings : number) :
  let result :=
    Double.FinancialCalculator.calculateCrossoverPoint earnedIncome
      currentAssets annualSavings in
  let reached (y : nat) :=
    ge (Double.Spec.passive_income currentAssets annualSavings y)
      earnedIncome in
  (reached 0%nat = true -> Double.Crossover.years result = 0%Z) /\
  (reached 0%nat = false ->
   (forall y,
       (1 <= y <= 50)%nat ->
       reached y = true ->
       (forall j, (1 <= j < y)%nat -> reached j = false) ->
       Double.Crossover.years result = Z.of_nat y) /\
   ((forall y, (1 <= y <= 50)%nat -> reached y = false) ->
    Double.Crossover.years result = (-1)%Z)).
Proof.
  intros result reached. subst result reached. cbv beta.
  unfold Double.FinancialCalculator.calculateCrossoverPoint.
  cbn [Double.Crossover.years].
  rewrite !double_passive_income_eq.
  change (Nat.iter 0 (Double.Spec.grow_then_contribute annualSavings) currentAssets)
    with currentAssets.
  split.
  - intros ->. now rewrite double_crossover_loop_keeps.
  - intros ->. split.
    + intros y Hy Hcross Hmin.
      destruct y as [|y]; [lia|].
      rewrite double_passive_income_eq in Hcross.
      rewrite (double_crossover_loop_first earnedIncome annualSavings 50 1 _ y);
        cbn [Double.FinancialCalculator.st_crossoverYear
               Double.FinancialCalculator.st_assets].
      * lia.
      * reflexivity.
      * lia.
      * lia.
      * exact Hcross.
      * intros i Hi. rewrite <- double_passive_income_eq.
        apply (Hmin (S i)). lia.
    + intros Hnone. apply double_crossover_loop_never; [reflexivity|].
      cbn [Double.FinancialCalculator.st_assets].
      intros j Hj. rewrite <- double_passive_income_eq.
      apply (Hnone (S j)). lia.
Qed.

End DoubleCrossoverPoint.

(** C4.  The crossover year of [calculateCrossoverPoint], on binary64
    numbers: it is 0 when the starting passive income
    [currentAssets * 0.05] already reaches the earned income; otherwise it
    is the smallest year [y] of 1..50 whose passive income [assets_y * 0.05]
    reaches the earned income, with
    [assets_y = assets_(y-1) * 1.07 + annualSavings]; and it is the "never"
    sentinel -1 when no year of 0..50 crosses.  Products and sums are the
    binary64 ones, as the engine computes them. *)
Theorem crossover_year_is_first_crossing :
  forall earnedIncome currentAssets annualSavings : Binary64.number,
    let result :=
      Double.FinancialCalculator.calculateCrossoverPoint earnedIncome
        currentAssets annualSavings in
    let reached (y : nat) :=
      Binary64.ge
        (Double.Spec.passive_income currentAssets annualSavings y)
        earnedIncome in
    let reached_at_start :=
      Binary64.ge (Binary64.mul currentAssets (Binary64.literal 0.05))
        earnedIncome in
    (reached_at_start = true -> Double.Crossover.years result = 0%Z) /\
    (reached_at_start = false ->
     (forall y,
         (1 <= y <= 50)%nat ->
         reached y = true ->
         (forall j, (1 <= j < y)%nat -> reached j = false) ->
         Double.Crossover.years result = Z.of_nat y) /\
     ((forall y, (1 <= y <= 50)%nat -> reached y = false) ->
      Double.Crossover.years result = Spec.never)).
Proof.
  intros earnedIncome currentAssets annualSavings.
  exact (double_calculateCrossoverPoint_years earnedIncome currentAssets
           annualSavings).
Qed.

(** Two amounts on which the rounding of the products decides.  With
    36700.15 earned and 734003 invested, the binary64 product
    [734003 * 0.05] is the double 36700.15 and the crossover year is 0.
    With 36700.16 earned, 734003.2 invested and 5000 saved a year, the
    starting product falls short of the earned income and year 1 is the
    first to reach it. *)
Lemma crossover_year_is_first_crossing_witness :
  Double.Crossover.years
    (Double.FinancialCalculator.calculateCrossoverPoint
       (Binary64.literal 36700.15) (Binary64.literal 734003)
       (Binary64.literal 0))
  = 0%Z
  /\ Double.Crossover.years
       (Double.FinancialCalculator.calculateCrossoverPoint
          (Binary64.literal 36700.16) (Binary64.literal 734003.2)
          (Binary64.literal 5000))
     = 1%Z.
Proof.
  split.
  - apply (crossover_year_is_first_crossing (Binary64.literal 36700.15)
             (Binary64.literal 734003) (Binary64.literal 0)).
    vm_compute. reflexivity.
  - destruct (crossover_year_is_first_crossing (Binary64.literal 36700.16)
                (Binary64.literal 734003.2) (Binary64.literal 5000))
      as [_ H].
    destruct H as [H _].
    + vm_compute. reflexivity.
    + apply (H 1%nat).
      * lia.
      * vm_compute. reflexivity.
      * intros j Hj. lia.
Defined.

(** C7.  The two engines compound in opposite orders, on binary64 numbers.
    Every year of [calculateProjection] and of [calculateFifteenYearValue]
    turns the balance [b] into [(b + s) * 1.07]; every year of
    [calculateCrossoverPoint] turns the assets [b] into [b * 1.07 + s];
    each series is its own update iterated year after year.  The two
    updates are not the same function: a first saving of 10000 on nothing
    becomes 10700 under the first and 10000 under the second. *)
Theorem engines_use_opposite_conventions :
  forall s b : Binary64.number,
    Double.FinancialCalculator.projection_year s b
    = Binary64.mul (Binary64.add b s) (Binary64.literal 1.07) /\
    (forall E year st,
        Double.FinancialCalculator.st_assets
          (Double.FinancialCalculator.crossover_year E s year st)
        = Binary64.add
            (Binary64.mul (Double.FinancialCalculator.st_assets st)
               (Binary64.literal 1.07))
            s) /\
    (forall years k,
        (k < years)%nat ->
        nth_error (Double.FinancialCalculator.calculateProjection s years b) k
        = Some (Binary64.Math_round
                  (Nat.iter (S k) (Double.Spec.contribute_then_grow s) b))) /\
    Double.FinancialCalculator.calculateFifteenYearValue s b
    = Binary64.Math_round
        (Nat.iter 15 (Double.Spec.contribute_then_grow s) b) /\
    (forall E k,
        (k <= 50)%nat ->
        nth_error
          (Double.Crossover.projectionData
             (Double.FinancialCalculator.calculateCrossoverPoint E b s)) k
        = Some (Double.YearRecord.mk (Z.of_nat k)
                  (Nat.iter k (Double.Spec.grow_then_contribute s) b)
                  (Binary64.mul
                     (Nat.iter k (Double.Spec.grow_then_contribute s) b)
                     (Binary64.literal 0.05))
                  E)) /\
    Double.Spec.contribute_then_grow (Binary64.integer 10000) Binary64.zero
    <> Double.Spec.grow_then_contribute (Binary64.integer 10000)
         Binary64.zero.
Proof.
  intros s b. refine (conj _ (conj _ (conj _ (conj _ (conj _ _))))).
  - apply double_projection_year_spec.
  - intros E year st. apply double_crossover_year_assets.
  - intros years k Hk. now apply double_calculateProjection_nth.
  - unfold Double.FinancialCalculator.calculateFifteenYearValue.
    rewrite double_fifteen_year_loop_iter.
    now rewrite (iter_ext _ _ (double_projection_year_spec s)).
  - intros E k Hk. now rewrite double_calculateCrossoverPoint_data.
  - intro H. vm_compute in H. discriminate H.
Qed.

(** A year on which the order of the roundings shows: saving -950 on an
    empty balance gives the double -1016.5000000000001, recorded as
    -1017. *)
Lemma engines_use_opposite_conventions_witness :
  nth_error
    (Double.FinancialCalculator.calculateProjection
       (Binary64.literal (-950)) 1 Binary64.zero) 0
  = Some (Binary64.Math_round
            (Nat.iter 1
               (Double.Spec.contribute_then_grow (Binary64.literal (-950)))
               Binary64.zero)).
Proof.
  destruct (engines_use_opposite_conventions (Binary64.literal (-950))
              Binary64.zero)
    as (_ & _ & Hproj & _).
  apply (Hproj 1%nat 0%nat). lia.
Defined.

Example projection_of_negative_saving :
  Double.FinancialCalculator.calculateProjection
    (Binary64.literal (-950)) 1 Binary64.zero
  = [Binary64.integer (-1017)].
Proof. vm_compute. reflexivity. Qed.
(* ================================================================== *)
(** ** Further properties on doubles *)

Section EffectiveRateOnDoubles.
Import Binary64.
Local Open Scope Z_scope.

Lemma representable_one : representable one.
Proof.
  split; [|reflexivity].
  change (Z.abs one) with (2 ^ 52 * 2 ^ 1022).
  apply round_magnitude_fixed; [lia| |intros _; lia].
  split; [|apply Z.pow_le_mono_r]; lia.
Qed.

(** A quotient of a part by the whole does not leave [0, 1]. *)
Lemma div_of_part (t i : Z) :
  0 <= t -> t <= i -> 0 < i ->
  exists r, div (Finite t) (Finite i) = Finite r /\ 0 <= r <= one.
Proof.
  intros Ht Hle Hi. unfold div.
  assert (Hnz : (i =? 0) = false) by (apply Z.eqb_neq; lia).
  rewrite Hnz, Z.sgn_pos, Z.abs_eq, Z.mul_1_l by lia.
  assert (Hone : 0 < one) by reflexivity.
  unfold round_ratio.
  assert (Hs : (t * one <? 0) = false) by (apply Z.ltb_ge; nia).
  rewrite Hs, Z.abs_eq by nia.
  assert (Hbound : 0 <= round_magnitude (t * one) i <= one).
  { split; [apply round_magnitude_nonneg; nia|].
    apply Z.le_trans with (round_magnitude (i * one) (i * 1)).
    - rewrite Z.mul_1_r. apply round_magnitude_monotone; nia.
    - rewrite round_magnitude_scale by lia.
      destruct representable_one as [Hfix _].
      rewrite Z.abs_eq in Hfix by lia. lia. }
  exists (round_magnitude (t * one) i). split; [|exact Hbound].
  apply signed_finite.
  assert (one < overflow) by reflexivity. lia.
Qed.

End EffectiveRateOnDoubles.

(** The effective rate is a fraction.  [calculateEffectiveRate] answers 0
    for an income that is not positive; for a tax between 0 and a positive
    income, the binary64 quotient it returns lies between 0 and 1: the
    rounding of the division never takes it past 1. *)
Theorem effective_rate_is_a_fraction :
  forall tax income : Binary64.number,
    (Binary64.le income Binary64.zero = true ->
     Double.TaxCalculator.calculateEffectiveRate tax income = Binary64.zero)
    /\
    (forall t : Z,
        tax = Binary64.Finite t ->
        (0 <= t)%Z ->
        Binary64.lt Binary64.zero income = true ->
        Binary64.le tax income = true ->
        exists r : Z,
          Double.TaxCalculator.calculateEffectiveRate tax income
          = Binary64.Finite r /\
          (0 <= r <= Binary64.one)%Z).
Proof.
  intros tax income. unfold Double.TaxCalculator.calculateEffectiveRate.
  split.
  - intros ->. reflexivity.
  - intros t -> Ht Hpos Hle.
    destruct income as [|[]|i]; simpl in Hpos; try discriminate Hpos.
    + exists 0%Z. split; [reflexivity|]. split; [lia|]. discriminate.
    + apply negb_true_iff in Hpos.
      change (Binary64.le (Binary64.Finite i) Binary64.zero)
        with (i <=? 0)%Z.
      rewrite Hpos. apply Z.leb_gt in Hpos. apply Z.leb_le in Hle.
      now apply div_of_part.
Qed.

(** The federal tax 8114 on an income of 60000: a rate between 0 and 1. *)
Lemma effective_rate_is_a_fraction_witness :
  exists r : Z,
    Double.TaxCalculator.calculateEffectiveRate (Binary64.integer 8114)
      (Binary64.integer 60000)
    = Binary64.Finite r /\
    (0 <= r <= Binary64.one)%Z.
Proof.
  destruct (effective_rate_is_a_fraction (Binary64.integer 8114)
              (Binary64.integer 60000)) as [_ H].
  apply (H (8114 * Binary64.one)%Z).
  - vm_compute. reflexivity.
  - vm_compute. discriminate.
  - vm_compute. reflexivity.
  - vm_compute. reflexivity.
Defined.

(** The product of that rate with the income is not the tax:
    [8114 / 60000 * 60000] is the double 8114.000000000001. *)
Example effective_rate_times_income :
  Binary64.mul
    (Double.TaxCalculator.calculateEffectiveRate (Binary64.integer 8114)
       (Binary64.integer 60000))
    (Binary64.integer 60000)
  = Binary64.literal 8114.000000000001.
Proof. vm_compute. reflexivity. Qed.

(** How long a depleting asset base lasts, on binary64 numbers.  When a
    non-negative asset base is not sustainable, the year [y] that
    [calculateAssetEndurance] returns is at least the number of years the
    assets would cover without any growth
    ([assetBase <= y * annualSpending]), and every elapsed year has used up
    more than 6.99% of the spending
    ([(y - 1) * 0.0699 * annualSpending <= assetBase]).  The amounts are
    compared exactly, in units of 2^-1074. *)
Theorem endurance_year_bounds :
  forall annualSpending assetBase : Z,
    Binary64.representable annualSpending ->
    Binary64.representable assetBase ->
    (0 <= assetBase)%Z ->
    Binary64.le (Binary64.Finite annualSpending)
      (Binary64.mul (Binary64.Finite assetBase) (Binary64.literal 0.07))
    = false ->
    exists y : Z,
      Double.FinancialCalculator.calculateAssetEndurance
        (Binary64.Finite annualSpending) (Binary64.Finite assetBase)
      = Some y /\
      (1 <= y)%Z /\
      (assetBase <= y * annualSpending)%Z /\
      (699 * ((y - 1) * annualSpending) <= 10000 * assetBase)%Z.
Proof.
  intros s a Hs Ha Ha0 Hfirst.
  rewrite <- rate_literal_eq in Hfirst.
  destruct (rate_product a Ha0 Ha) as [Hmul Hp].
  rewrite Hmul in Hfirst.
  pose proof Hfirst as Hfalse. apply Z.leb_gt in Hfirst.
  assert (Hs0 : (0 <= s)%Z) by lia.
  pose proof (above_rounding s (a * 5044031582654956) (2 ^ 56)
                ltac:(reflexivity) ltac:(lia) Hs0 Hs Hfirst) as Habove.
  destruct (double_endurance_run s Hs 199 a 0 (S 199) Ha0 Ha Hfirst
              (endurance_potential_start a s Ha0 Hs0 Habove) ltac:(lia))
    as (j & _ & Hres & _ & _ & Hlow & Hhigh).
  exists (0 + 1 + Z.of_nat j)%Z. split; [exact Hres|].
  split; [lia|]. split.
  - replace (0 + 1 + Z.of_nat j)%Z with (Z.of_nat j + 1)%Z by lia. exact Hlow.
  - replace (0 + 1 + Z.of_nat j - 1)%Z with (Z.of_nat j) by lia. exact Hhigh.
Qed.

(** Spending 2033 from 3933: three years, between 3933 / 2033 and
    1 + 3933 / (0.0699 * 2033). *)
Lemma endurance_year_bounds_witness :
  exists y : Z,
    Double.FinancialCalculator.calculateAssetEndurance
      (Binary64.Finite (2033 * Binary64.one))
      (Binary64.Finite (3933 * Binary64.one))
    = Some y /\
    (1 <= y)%Z /\
    (3933 * Binary64.one <= y * (2033 * Binary64.one))%Z /\
    (699 * ((y - 1) * (2033 * Binary64.one))
     <= 10000 * (3933 * Binary64.one))%Z.
Proof.
  apply (endurance_year_bounds (2033 * Binary64.one) (3933 * Binary64.one)).
  - vm_compute. split; reflexivity.
  - vm_compute. split; reflexivity.
  - vm_compute. discriminate.
  - vm_compute. reflexivity.
Defined.
